(** * parselglossy: type system and node validation

    A shallow embedding of [parselglossy/types.py] (the type tags,
    [type_matches] and [type_fixers]) and of [parselglossy/validate.py]
    ([type_matches], [validate_node], [check_predicates_node]).

    Python objects are modelled as follows.
    - Scalars are values.  A finite double is represented by its exact
      rational value (every finite double is a dyadic rational); NaN and the
      infinities are not modelled.
    - Lists are immutable values: none of the modelled functions mutates a
      list.
    - Dicts are mutable objects living in a store, referenced by location;
      a dict is an association list in insertion order, with Python's key
      equality.  Aliasing of dicts is therefore explicit.
    - Raised exceptions are an [Exc] result; recursion carries a depth
      bound that stands for Python's recursion limit. *)

From Stdlib Require Import String Ascii List ZArith QArith Bool Lia.
From Stdlib Require Import FunctionalExtensionality.
Import ListNotations.

Set Warnings "-register-all".

Open Scope string_scope.

(** ** Python values, stores and exceptions *)

Definition loc := nat.

Inductive value : Type :=
| VNone
| VBool (b : bool)
| VInt (z : Z)
| VFloat (q : Q)
| VComplex (re im : Q)
| VStr (s : string)
| VList (vs : list value)
| VDict (l : loc).

Definition dict := list (value * value).
Definition store := loc -> dict.

Definition upd (st : store) (l : loc) (d : dict) : store :=
  fun l' => if Nat.eqb l l' then d else st l'.

(** A piece of an exception message: literal text, [str(v)] as inserted by
    [str.format], or the rendering of a Python set (whose element order is
    hash-dependent in CPython, so it is kept as a collection). *)
Inductive piece : Type :=
| PLit (s : string)
| PStr (v : value)
| PSet (vs : list value).

Definition msg := list piece.

Inductive exn : Type :=
| InputError (m : msg)
| TemplateError (m : msg)
| ValueError (m : msg)
| KeyError (k : value)
| IndexError
| TypeError
| AttributeError
| RecursionError
| SyntaxError            (* SyntaxError and its subclasses *)
| NameError (name : string)
| OtherError (name : string).

Inductive result (A : Type) : Type :=
| Ok (a : A)
| Exc (e : exn).
Arguments Ok {A} a.
Arguments Exc {A} e.

Definition rbind {A B} (r : result A) (k : A -> result B) : result B :=
  match r with
  | Ok a => k a
  | Exc e => Exc e
  end.

Notation "x <- e ;; k" := (rbind e (fun x => k))
  (at level 61, e at next level, right associativity).

(** [type(v).__name__] *)
Definition type_name (v : value) : string :=
  match v with
  | VNone => "NoneType"
  | VBool _ => "bool"
  | VInt _ => "int"
  | VFloat _ => "float"
  | VComplex _ _ => "complex"
  | VStr _ => "str"
  | VList _ => "list"
  | VDict _ => "dict"
  end.

(** Numeric view used by [==] across [bool], [int], [float], [complex]. *)
Definition num (v : value) : option (Q * Q) :=
  match v with
  | VBool b => Some (if b then 1%Q else 0%Q, 0%Q)
  | VInt z => Some (inject_Z z, 0%Q)
  | VFloat q => Some (q, 0%Q)
  | VComplex re im => Some (re, im)
  | _ => None
  end.

(** Python's [==].  Two dicts are compared by identity: the functions below
    only ever compare a hashable key with another value, so the deep
    comparison of two dicts is never reached. *)
Fixpoint py_eq (a b : value) : bool :=
  match a, b with
  | VNone, VNone => true
  | VStr s, VStr t => String.eqb s t
  | VList xs, VList ys =>
      (fix go (xs ys : list value) : bool :=
         match xs, ys with
         | [], [] => true
         | x :: xs', y :: ys' => py_eq x y && go xs' ys'
         | _, _ => false
         end) xs ys
  | VDict l, VDict l' => Nat.eqb l l'
  | _, _ =>
      match num a, num b with
      | Some (r1, i1), Some (r2, i2) => Qeq_bool r1 r2 && Qeq_bool i1 i2
      | _, _ => false
      end
  end.

Definition hashable (v : value) : bool :=
  match v with
  | VList _ | VDict _ => false
  | _ => true
  end.

(** ** Dict primitives *)

Fixpoint dict_find (d : dict) (k : value) : option value :=
  match d with
  | [] => None
  | (k', v) :: d' => if py_eq k' k then Some v else dict_find d' k
  end.

(** [d[k] = v]: an existing equal key keeps its place (and its key object),
    a new key is appended. *)
Fixpoint dict_set (d : dict) (k v : value) : dict :=
  match d with
  | [] => [(k, v)]
  | (k', v') :: d' =>
      if py_eq k' k then (k', v) :: d' else (k', v') :: dict_set d' k v
  end.

Definition dict_keys (d : dict) : list value := map fst d.

(** Python sequence indexing with an [int] (or [bool]) index. *)
Definition py_index {A} (xs : list A) (i : Z) : option A :=
  let n := Z.of_nat (length xs) in
  let j := if (i <? 0)%Z then (i + n)%Z else i in
  if ((j <? 0) || (n <=? j))%Z then None else nth_error xs (Z.to_nat j).

Definition int_index (k : value) : option Z :=
  match k with
  | VInt z => Some z
  | VBool b => Some (if b then 1%Z else 0%Z)
  | _ => None
  end.

Definition chars (s : string) : list value :=
  map (fun c => VStr (String c EmptyString)) (list_ascii_of_string s).

(** [c[k]] *)
Definition py_getitem (st : store) (c k : value) : result value :=
  match c with
  | VDict l =>
      if hashable k then
        match dict_find (st l) k with
        | Some v => Ok v
        | None => Exc (KeyError k)
        end
      else Exc TypeError
  | VList vs =>
      match int_index k with
      | Some i => match py_index vs i with Some v => Ok v | None => Exc IndexError end
      | None => Exc TypeError
      end
  | VStr s =>
      match int_index k with
      | Some i => match py_index (chars s) i with Some v => Ok v | None => Exc IndexError end
      | None => Exc TypeError
      end
  | _ => Exc TypeError
  end.

(** [iter(c)]: the items a [for] loop visits. *)
Definition py_iter (st : store) (c : value) : result (list value) :=
  match c with
  | VList vs => Ok vs
  | VDict l => Ok (dict_keys (st l))
  | VStr s => Ok (chars s)
  | _ => Exc TypeError
  end.

Fixpoint prefix_of (p s : list ascii) : bool :=
  match p, s with
  | [], _ => true
  | a :: p', b :: s' => Ascii.eqb a b && prefix_of p' s'
  | _ :: _, [] => false
  end.

Fixpoint substring_of (p s : list ascii) : bool :=
  prefix_of p s || match s with [] => false | _ :: s' => substring_of p s' end.

Definition str_contains (s p : string) : bool :=
  substring_of (list_ascii_of_string p) (list_ascii_of_string s).

(** [x in c] *)
Definition py_contains (st : store) (c x : value) : result bool :=
  match c with
  | VDict l =>
      if hashable x then Ok (existsb (fun k => py_eq k x) (dict_keys (st l)))
      else Exc TypeError
  | VList vs => Ok (existsb (fun y => py_eq y x) vs)
  | VStr s => match x with VStr t => Ok (str_contains s t) | _ => Exc TypeError end
  | _ => Exc TypeError
  end.

(** [str.strip()] with no argument, on the whitespace of Latin-1. *)
Definition is_space (c : ascii) : bool :=
  let n := nat_of_ascii c in
  (Nat.leb 9 n && Nat.leb n 13) || (Nat.leb 28 n && Nat.leb n 32)
  || Nat.eqb n 133 || Nat.eqb n 160.

Fixpoint drop_space (cs : list ascii) : list ascii :=
  match cs with
  | c :: cs' => if is_space c then drop_space cs' else cs
  | [] => []
  end.

Definition strip (s : string) : string :=
  string_of_list_ascii (rev (drop_space (rev (drop_space (list_ascii_of_string s))))).

Definition py_strip (v : value) : result value :=
  match v with
  | VStr s => Ok (VStr (strip s))
  | _ => Exc AttributeError
  end.

(** [set(xs)]: raises on an unhashable element; iteration order of the set
    is taken as first-insertion order. *)
Fixpoint dedup (xs : list value) : list value :=
  match xs with
  | [] => []
  | x :: xs' => x :: filter (fun y => negb (py_eq x y)) (dedup xs')
  end.

Definition py_set (xs : list value) : result (list value) :=
  if forallb hashable xs then Ok (dedup xs) else Exc TypeError.

Definition py_in_list (x : value) (xs : list value) : bool :=
  existsb (fun y => py_eq y x) xs.

(** [a.difference(b)] *)
Definition set_difference (a b : list value) : list value :=
  filter (fun x => negb (py_in_list x b)) a.

(** Truthiness ([bool(v)], [not v]). *)
Definition truthy (st : store) (v : value) : bool :=
  match v with
  | VNone => false
  | VBool b => b
  | VInt z => negb (Z.eqb z 0)
  | VFloat q => negb (Qeq_bool q 0)
  | VComplex re im => negb (Qeq_bool re 0 && Qeq_bool im 0)
  | VStr s => negb (String.eqb s "")
  | VList vs => match vs with [] => false | _ => true end
  | VDict l => match st l with [] => false | _ => true end
  end.

(** Monadic map and filter in [result], evaluating left to right. *)
Fixpoint mapM {A B} (f : A -> result B) (xs : list A) : result (list B) :=
  match xs with
  | [] => Ok []
  | x :: xs' => y <- f x ;; ys <- mapM f xs' ;; Ok (y :: ys)
  end.

Fixpoint filterM {A} (f : A -> result bool) (xs : list A) : result (list A) :=
  match xs with
  | [] => Ok []
  | x :: xs' =>
      b <- f x ;; ys <- filterM f xs' ;; Ok (if b then x :: ys else ys)
  end.

(** [lst[0]] on a list built by [list(...)] *)
Definition first (xs : list value) : result value :=
  match xs with
  | x :: _ => Ok x
  | [] => Exc IndexError
  end.

(** ** Regular expression [^List\[(\w+)\]$] *)

(** [\w] on a [str] pattern: ASCII letters, digits, [_], and the Latin-1
    characters for which [str.isalnum()] holds. *)
Definition is_word_char (c : ascii) : bool :=
  let n := nat_of_ascii c in
  (Nat.leb 48 n && Nat.leb n 57) || (Nat.leb 65 n && Nat.leb n 90)
  || Nat.eqb n 95 || (Nat.leb 97 n && Nat.leb n 122)
  || Nat.eqb n 170 || Nat.eqb n 178 || Nat.eqb n 179 || Nat.eqb n 181
  || Nat.eqb n 185 || Nat.eqb n 186 || (Nat.leb 188 n && Nat.leb n 190)
  || (Nat.leb 192 n && Nat.leb n 214) || (Nat.leb 216 n && Nat.leb n 246)
  || Nat.leb 248 n.

Definition lbracket : ascii := "["%char.
Definition rbracket : ascii := "]"%char.
Definition newline : ascii := Ascii.ascii_of_nat 10.

(** After [List[]: one or more word characters (greedy, so it stops at the
    first non-word character), then [\]], then the end of the string or a
    single final newline (Python's [$]).  Returns the text of group 1. *)
Fixpoint word_then_close (cs : list ascii) (acc : list ascii) : option (list ascii) :=
  match cs with
  | c :: cs' =>
      if is_word_char c then word_then_close cs' (c :: acc)
      else if Ascii.eqb c rbracket then
        match acc, cs' with
        | _ :: _, [] => Some (rev acc)
        | _ :: _, [n] => if Ascii.eqb n newline then Some (rev acc) else None
        | _, _ => None
        end
      else None
  | [] => None
  end.

(** [re.search(r"^List\[(\w+)\]$", s)] and its [group(1)]. *)
Definition list_tag_match (s : string) : option string :=
  match list_ascii_of_string s with
  | l :: i :: s' :: t :: b :: rest =>
      if Ascii.eqb l "L"%char && Ascii.eqb i "i"%char && Ascii.eqb s' "s"%char
         && Ascii.eqb t "t"%char && Ascii.eqb b lbracket
      then option_map string_of_list_ascii (word_then_close rest [])
      else None
  | _ => None
  end.

(** ** [parselglossy/types.py] *)
Module Types.

Definition allowed_scalar_types : list string := ["str"; "int"; "float"; "complex"; "bool"].

Definition allowed_list_types : list string :=
  map (fun t => "List[" ++ t ++ "]") allowed_scalar_types.

Definition allowed_types : list string := allowed_scalar_types ++ allowed_list_types.

Definition _type_check_scalar (v : value) (expected_type : string) : bool :=
  String.eqb (type_name v) expected_type.

Definition _type_check_list (v : value) (expected_type : string) : bool :=
  match v with
  | VList xs => forallb (fun x => _type_check_scalar x expected_type) xs
  | _ => false
  end.

(** [expected_type not in allowed_types], with [==] on the tag value. *)
Definition tag_allowed (allowed : list string) (expected_type : value) : bool :=
  existsb (fun t => py_eq (VStr t) expected_type) allowed.

Definition type_matches (v : value) (expected_type : value) : result bool :=
  if negb (tag_allowed allowed_types expected_type) then
    Exc (ValueError [PLit "could not recognize expected_type: "; PStr expected_type])
  else
    match expected_type with
    | VStr s =>
        match list_tag_match s with
        | Some inner => Ok (_type_check_list v inner)
        | None => Ok (_type_check_scalar v s)
        end
    | _ => Exc TypeError (* re.search on a non-str; unreachable after the check *)
    end.

(** The type constructors of [type_fixers]. *)
Inductive ctor : Type := CBool | CComplex | CFloat | CInt | CStr.

(** [str(z)] for an [int]. *)
Fixpoint digits (fuel : nat) (n : Z) (acc : list ascii) : list ascii :=
  match fuel with
  | O => acc
  | S f =>
      let acc' := ascii_of_nat (48 + Z.to_nat (Z.rem n 10)) :: acc in
      if (n <? 10)%Z then acc' else digits f (Z.quot n 10) acc'
  end.

Definition string_of_Z (z : Z) : string :=
  let a := Z.abs z in
  let ds := digits (S (Z.to_nat (Z.log2 a))) a [] in
  string_of_list_ascii (if (z <? 0)%Z then "-"%char :: ds else ds).

Definition float_exact (z : Z) : bool := (Z.abs z <=? 2 ^ 53)%Z.

(** Applying a constructor to one value.  [None] marks a conversion this
    development does not model: those producing or parsing the decimal
    text of a floating-point or complex number, parsing an [int] from
    text, the rounding of large integers to [float], and the rendering of
    containers by [str].  [type_fixers] is applied after [type_matches]
    succeeded, where every case met below is modelled. *)
Definition apply_ctor (st : store) (c : ctor) (v : value) : option (result value) :=
  match c, v with
  | CBool, _ => Some (Ok (VBool (truthy st v)))
  | CInt, VBool b => Some (Ok (VInt (if b then 1 else 0)))
  | CInt, VInt z => Some (Ok (VInt z))
  | CInt, VFloat q => Some (Ok (VInt (Z.quot (Qnum q) (Zpos (Qden q)))))
  | CInt, VStr _ => None
  | CInt, _ => Some (Exc TypeError)
  | CFloat, VBool b => Some (Ok (VFloat (if b then 1 else 0)))
  | CFloat, VInt z => if float_exact z then Some (Ok (VFloat (inject_Z z))) else None
  | CFloat, VFloat q => Some (Ok (VFloat q))
  | CFloat, VStr _ => None
  | CFloat, _ => Some (Exc TypeError)
  | CComplex, VBool b => Some (Ok (VComplex (if b then 1 else 0) 0))
  | CComplex, VInt z =>
      if float_exact z then Some (Ok (VComplex (inject_Z z) 0)) else None
  | CComplex, VFloat q => Some (Ok (VComplex q 0))
  | CComplex, VComplex re im => Some (Ok (VComplex re im))
  | CComplex, VStr _ => None
  | CComplex, _ => Some (Exc TypeError)
  | CStr, VNone => Some (Ok (VStr "None"))
  | CStr, VBool b => Some (Ok (VStr (if b then "True" else "False")))
  | CStr, VInt z => Some (Ok (VStr (string_of_Z z)))
  | CStr, VStr s => Some (Ok (VStr s))
  | CStr, _ => None
  end.

(** The entries of [type_fixers]: a constructor, or the closure
    [lambda x: list(map(v, x))] created by the dict comprehension, whose
    free variable [v] is the comprehension's own loop variable. *)
Inductive fixer : Type :=
| FCtor (c : ctor)
| FMapLoopVar.

(** The fixer table together with the final value of the comprehension's
    loop variable [v], which the closures read when they are called. *)
Record fixer_table : Type := {
  entries : list (string * fixer);
  loop_var_v : ctor
}.

Definition scalar_fixers : list (string * ctor) :=
  [("bool", CBool); ("complex", CComplex); ("float", CFloat); ("int", CInt); ("str", CStr)].

(** [{"List[{:s}]".format(k): lambda x: list(map(v, x)) for k, v in ...}]:
    each iteration rebinds [v] and stores a closure over it. *)
Fixpoint comprehension (items : list (string * ctor)) (v : ctor)
  : list (string * fixer) * ctor :=
  match items with
  | [] => ([], v)
  | (k, v') :: items' =>
      let '(rest, vfinal) := comprehension items' v' in
      (("List[" ++ k ++ "]", FMapLoopVar) :: rest, vfinal)
  end.

(** [type_fixers.update(tmp)]: the list tags are new keys, appended. *)
Definition type_fixers : fixer_table :=
  let '(tmp, vfinal) := comprehension scalar_fixers CBool in
  {| entries := map (fun '(k, c) => (k, FCtor c)) scalar_fixers ++ tmp;
     loop_var_v := vfinal |}.

Fixpoint lookup_fixer (es : list (string * fixer)) (tag : string) : option fixer :=
  match es with
  | [] => None
  | (k, f) :: es' => if String.eqb k tag then Some f else lookup_fixer es' tag
  end.

Fixpoint map_ctor (st : store) (c : ctor) (xs : list value) : option (result (list value)) :=
  match xs with
  | [] => Some (Ok [])
  | x :: xs' =>
      match apply_ctor st c x with
      | None => None
      | Some (Exc e) => Some (Exc e)
      | Some (Ok y) =>
          match map_ctor st c xs' with
          | None => None
          | Some (Exc e) => Some (Exc e)
          | Some (Ok ys) => Some (Ok (y :: ys))
          end
      end
  end.

(** Calling [type_fixers[tag](x)]; a missing tag raises [KeyError]. *)
Definition coerce (st : store) (x : value) (tag : string) : option (result value) :=
  match lookup_fixer (entries type_fixers) tag with
  | None => Some (Exc (KeyError (VStr tag)))
  | Some (FCtor c) => apply_ctor st c x
  | Some FMapLoopVar =>
      match py_iter st x with
      | Exc e => Some (Exc e)
      | Ok xs =>
          match map_ctor st (loop_var_v type_fixers) xs with
          | None => None
          | Some (Exc e) => Some (Exc e)
          | Some (Ok ys) => Some (Ok (VList ys))
          end
      end
  end.

End Types.

(** ** [parselglossy/validate.py] *)
Module Validate.

Definition allowed_basic_types : list string := ["str"; "int"; "float"; "complex"; "bool"].

Definition allowed_list_types : list string :=
  map (fun t => "List[" ++ t ++ "]") allowed_basic_types.

Definition allowed_types : list string := allowed_basic_types ++ allowed_list_types.

(** [for element in value: if not type(element).__name__ == t: return False] *)
Fixpoint elements_match (xs : list value) (t : string) : bool :=
  match xs with
  | [] => true
  | x :: xs' => if negb (String.eqb (type_name x) t) then false else elements_match xs' t
  end.

Definition type_matches (v : value) (expected_type : value) : result bool :=
  if negb (Types.tag_allowed allowed_types expected_type) then
    Exc (ValueError [PLit "could not recognize expected_type: "; PStr expected_type])
  else
    match expected_type with
    | VStr s =>
        match list_tag_match s with
        | Some list_element_type =>
            match v with
            | VList xs => Ok (elements_match xs list_element_type)
            | _ => Ok false
            end
        | None => Ok (String.eqb (type_name v) s)
        end
    | _ => Exc TypeError (* re.match on a non-str; unreachable after the check *)
    end.

(** A list comprehension [[f(x) for x in xs if cond(x)]]: for each item the
    condition, then (if it holds) the element expression. *)
Fixpoint comp_filter_map (cond : value -> result bool) (f : value -> result value)
    (xs : list value) : result (list value) :=
  match xs with
  | [] => Ok []
  | x :: xs' =>
      b <- cond x ;;
      if b then (y <- f x ;; ys <- comp_filter_map cond f xs' ;; Ok (y :: ys))
      else comp_filter_map cond f xs'
  end.

(** [[x for x in input_dict if type(input_dict[x]).__name__ == 'dict']] *)
Definition input_sections_of (st : store) (input_dict : value) : result (list value) :=
  xs <- py_iter st input_dict ;;
  comp_filter_map
    (fun x => v <- py_getitem st input_dict x ;; Ok (String.eqb (type_name v) "dict"))
    (fun x => Ok x) xs.

(** [list(filter(lambda x: x not in input_sections, input_dict.keys()))] *)
Definition input_keywords_of (st : store) (input_dict : value) (input_sections : list value)
  : result (list value) :=
  match input_dict with
  | VDict l => Ok (filter (fun x => negb (py_in_list x input_sections)) (dict_keys (st l)))
  | _ => Exc AttributeError
  end.

(** [[x[field] for x in entries]] *)
Definition names_of (st : store) (entries : value) (field : string) : result (list value) :=
  xs <- py_iter st entries ;; mapM (fun x => py_getitem st x (VStr field)) xs.

(** [if key in template_dict: [x[field] for x in template_dict[key]] else: []] *)
Definition template_names_of (st : store) (template_dict : value) (key field : string)
  : result (list value) :=
  has <- py_contains st template_dict (VStr key) ;;
  if has then (es <- py_getitem st template_dict (VStr key) ;; names_of st es field)
  else Ok [].

Definition template_sections_of (st : store) (template_dict : value) : result (list value) :=
  template_names_of st template_dict "sections" "section".

Definition template_keywords_of (st : store) (template_dict : value) : result (list value) :=
  template_names_of st template_dict "keywords" "keyword".

(** [[x['keyword'] for x in template_dict['keywords']
      if 'documentation' not in x or x['documentation'].strip() == '']] *)
Definition keywords_no_doc_of (st : store) (template_dict : value) : result (list value) :=
  kws <- py_getitem st template_dict (VStr "keywords") ;;
  xs <- py_iter st kws ;;
  comp_filter_map
    (fun x =>
       has <- py_contains st x (VStr "documentation") ;;
       if negb has then Ok true
       else (d <- py_getitem st x (VStr "documentation") ;;
             s <- py_strip d ;; Ok (py_eq s (VStr ""))))
    (fun x => py_getitem st x (VStr "keyword")) xs.

(** [[x['keyword'] for x in template_dict['keywords'] if 'default' not in x]] *)
Definition keywords_no_default_of (st : store) (template_dict : value) : result (list value) :=
  kws <- py_getitem st template_dict (VStr "keywords") ;;
  xs <- py_iter st kws ;;
  comp_filter_map
    (fun x => has <- py_contains st x (VStr "default") ;; Ok (negb has))
    (fun x => py_getitem st x (VStr "keyword")) xs.

(** [list(filter(lambda x: x[field] == name, template_dict[key]))[0]] *)
Definition find_entry (st : store) (template_dict : value) (key field : string) (name : value)
  : result value :=
  es <- py_getitem st template_dict (VStr key) ;;
  xs <- py_iter st es ;;
  ys <- filterM (fun x => n <- py_getitem st x (VStr field) ;; Ok (py_eq n name)) xs ;;
  first ys.

(** [for keyword in input_keywords: ...] (the type checks) *)
Fixpoint check_types (st : store) (input_dict template_dict : value) (ks : list value)
  : result unit :=
  match ks with
  | [] => Ok tt
  | keyword :: ks' =>
      template_keyword <- find_entry st template_dict "keywords" "keyword" keyword ;;
      _type <- py_getitem st template_keyword (VStr "type") ;;
      v <- py_getitem st input_dict keyword ;;
      b <- type_matches v _type ;;
      if negb b then
        Exc (InputError [PLit "incorrect type for keyword: "; PStr keyword;
                         PLit ", expected '"; PStr _type; PLit "' type"])
      else check_types st input_dict template_dict ks'
  end.

(** The read-only part of [validate_node], up to and including the type
    checks: it returns the dict's location together with [input_keywords],
    [template_sections] and [template_keywords]. *)
Definition prelude (st : store) (input_dict template_dict : value)
  : result (loc * list value * list value * list value) :=
  input_sections <- input_sections_of st input_dict ;;
  input_keywords <- input_keywords_of st input_dict input_sections ;;
  template_sections <- template_sections_of st template_dict ;;
  template_keywords <- template_keywords_of st template_dict ;;
  keywords_no_doc <- keywords_no_doc_of st template_dict ;;
  match keywords_no_doc with
  | _ :: _ =>
      Exc (TemplateError [PLit "keyword(s) without any documentation: ";
                          PStr (VList keywords_no_doc)])
  | [] =>
      ik <- py_set input_keywords ;; tk <- py_set template_keywords ;;
      match set_difference ik tk with
      | (_ :: _) as d => Exc (InputError [PLit "found unexpected keyword(s): "; PSet d])
      | [] =>
          is <- py_set input_sections ;; ts <- py_set template_sections ;;
          match set_difference is ts with
          | (_ :: _) as d => Exc (InputError [PLit "found unexpected section(s): "; PSet d])
          | [] =>
              kwnd <- keywords_no_default_of st template_dict ;;
              nd <- py_set kwnd ;; ik' <- py_set input_keywords ;;
              match set_difference nd ik' with
              | (_ :: _) as d =>
                  Exc (InputError [PLit "the following keyword(s) must be set: "; PSet d])
              | [] =>
                  _ <- check_types st input_dict template_dict input_keywords ;;
                  match input_dict with
                  | VDict l => Ok (l, input_keywords, template_sections, template_keywords)
                  | _ => Exc AttributeError (* unreachable: keys() succeeded *)
                  end
              end
          end
      end
  end.

(** [input_dict[k] = v] on the dict at [l]. *)
Definition dict_setitem (st : store) (l : loc) (k v : value) : result store :=
  if hashable k then Ok (upd st l (dict_set (st l) k v)) else Exc TypeError.

(** [for keyword in ks: input_dict[keyword] = template_keyword['default']] *)
Fixpoint fill_loop (st : store) (l : loc) (template_dict : value) (ks : list value)
  : store * result unit :=
  match ks with
  | [] => (st, Ok tt)
  | keyword :: ks' =>
      match find_entry st template_dict "keywords" "keyword" keyword with
      | Exc e => (st, Exc e)
      | Ok template_keyword =>
          match py_getitem st template_keyword (VStr "default") with
          | Exc e => (st, Exc e)
          | Ok _default =>
              match dict_setitem st l keyword _default with
              | Exc e => (st, Exc e)
              | Ok st' => fill_loop st' l template_dict ks'
              end
          end
      end
  end.

(** [for keyword in set(template_keywords).difference(set(input_keywords)): ...] *)
Definition fill_defaults (st : store) (l : loc) (template_dict : value)
    (template_keywords input_keywords : list value) : store * result unit :=
  match py_set template_keywords, py_set input_keywords with
  | Exc e, _ => (st, Exc e)
  | Ok _, Exc e => (st, Exc e)
  | Ok tk, Ok ik => fill_loop st l template_dict (set_difference tk ik)
  end.

(** [for section in template_sections:
       input_section = input_dict[section]
       template_section = list(filter(...))[0]
       input_dict[section] = validate_node(input_section, template_section)] *)
Fixpoint sections_loop (rec : store -> value -> value -> store * result value)
    (st : store) (l : loc) (template_dict : value) (secs : list value)
  : store * result unit :=
  match secs with
  | [] => (st, Ok tt)
  | section :: secs' =>
      match py_getitem st (VDict l) section with
      | Exc e => (st, Exc e)
      | Ok input_section =>
          match find_entry st template_dict "sections" "section" section with
          | Exc e => (st, Exc e)
          | Ok template_section =>
              match rec st input_section template_section with
              | (st1, Exc e) => (st1, Exc e)
              | (st1, Ok r) =>
                  match dict_setitem st1 l section r with
                  | Exc e => (st1, Exc e)
                  | Ok st2 => sections_loop rec st2 l template_dict secs'
                  end
              end
          end
      end
  end.

(** [validate_node(input_dict, template_dict)]: the dict [input_dict] is
    updated in place and returned.  [fuel] bounds the recursion depth. *)
Fixpoint validate_node (fuel : nat) (st : store) (input_dict template_dict : value)
  : store * result value :=
  match fuel with
  | O => (st, Exc RecursionError)
  | S f =>
      match prelude st input_dict template_dict with
      | Exc e => (st, Exc e)
      | Ok (l, input_keywords, template_sections, template_keywords) =>
          match fill_defaults st l template_dict template_keywords input_keywords with
          | (st1, Exc e) => (st1, Exc e)
          | (st1, Ok _) =>
              match sections_loop (validate_node f) st1 l template_dict template_sections with
              | (st2, Exc e) => (st2, Exc e)
              | (st2, Ok _) => (st2, Ok (VDict l))
              end
          end
      end
  end.

(** Python's default recursion limit. *)
Definition recursion_limit : nat := 1000.

End Validate.

(** ** [check_predicates_node] *)

(** The local variables of [check_predicates_node] visible to [eval] when a
    predicate is evaluated.  [predicate] and [r] keep the values of earlier
    iterations (possibly of an earlier keyword) until rebound. *)
Record pred_frame : Type := {
  f_input_dict : value;
  f_input_dict_node : value;
  f_template_dict_node : value;
  f_input_sections : list value;
  f_input_keywords : list value;
  f_template_sections : list value;
  f_keyword : value;
  f_template_keyword : value;
  f_value : value;
  f_predicate : value;
  f_r : option value
}.

(** The local [r] survives from one keyword to the next: the result of the
    last predicate evaluated in this call, if any.  ([predicate] also
    survives, but it is rebound before every [eval].) *)
Definition carry := option value.

Module Predicates.
Section Eval.

(** [eval(predicate)] in the frame of [check_predicates_node]: it may read
    and update the store, return a value, or raise. *)
Variable py_eval : store -> pred_frame -> store * result value.

Definition syntax_error_msg (predicate keyword : value) : msg :=
  [PLit "syntax error in predicate "; PStr predicate; PLit " in keyword "; PStr keyword].

Definition failed_msg (predicate keyword : value) : msg :=
  [PLit "predicate "; PStr predicate; PLit " failed in keyword "; PStr keyword].

(** The fixed part of the frame while one keyword is checked. *)
Record kw_env : Type := {
  k_input_dict : value;
  k_input_dict_node : value;
  k_template_dict_node : value;
  k_input_sections : list value;
  k_input_keywords : list value;
  k_template_sections : list value;
  k_keyword : value;
  k_template_keyword : value;
  k_value : value
}.

Definition frame_of (ke : kw_env) (predicate : value) (r : option value) : pred_frame :=
  {| f_input_dict := k_input_dict ke;
     f_input_dict_node := k_input_dict_node ke;
     f_template_dict_node := k_template_dict_node ke;
     f_input_sections := k_input_sections ke;
     f_input_keywords := k_input_keywords ke;
     f_template_sections := k_template_sections ke;
     f_keyword := k_keyword ke;
     f_template_keyword := k_template_keyword ke;
     f_value := k_value ke;
     f_predicate := predicate;
     f_r := r |}.

(** [for predicate in template_keyword['predicates']:
       try: r = eval(predicate)
       except SyntaxError: raise TemplateError(...)
       if not r: raise InputError(...)] *)
Fixpoint predicate_loop (st : store) (ke : kw_env) (r : option value) (preds : list value)
  : store * result (option value) :=
  match preds with
  | [] => (st, Ok r)
  | predicate :: preds' =>
      match py_eval st (frame_of ke predicate r) with
      | (st1, Exc SyntaxError) =>
          (st1, Exc (TemplateError (syntax_error_msg predicate (k_keyword ke))))
      | (st1, Exc e) => (st1, Exc e)
      | (st1, Ok v) =>
          if negb (truthy st1 v) then
            (st1, Exc (InputError (failed_msg predicate (k_keyword ke))))
          else predicate_loop st1 ke (Some v) preds'
      end
  end.

(** One iteration of [for keyword in input_keywords: ...]. *)
Definition check_keyword (st : store) (input_dict input_dict_node template_dict_node : value)
    (input_sections input_keywords template_sections : list value) (c : carry)
    (keyword : value) : store * result carry :=
  match Validate.find_entry st template_dict_node "keywords" "keyword" keyword with
  | Exc e => (st, Exc e)
  | Ok template_keyword =>
      match py_getitem st input_dict_node keyword with
      | Exc e => (st, Exc e)
      | Ok v =>
          match py_contains st template_keyword (VStr "predicates") with
          | Exc e => (st, Exc e)
          | Ok false => (st, Ok c)
          | Ok true =>
              match py_getitem st template_keyword (VStr "predicates") with
              | Exc e => (st, Exc e)
              | Ok ps =>
                  match py_iter st ps with
                  | Exc e => (st, Exc e)
                  | Ok preds =>
                      let ke := {| k_input_dict := input_dict;
                                   k_input_dict_node := input_dict_node;
                                   k_template_dict_node := template_dict_node;
                                   k_input_sections := input_sections;
                                   k_input_keywords := input_keywords;
                                   k_template_sections := template_sections;
                                   k_keyword := keyword;
                                   k_template_keyword := template_keyword;
                                   k_value := v |} in
                      predicate_loop st ke c preds
                  end
              end
          end
      end
  end.

Fixpoint keywords_loop (st : store) (input_dict input_dict_node template_dict_node : value)
    (input_sections input_keywords template_sections : list value) (c : carry)
    (ks : list value) : store * result carry :=
  match ks with
  | [] => (st, Ok c)
  | keyword :: ks' =>
      match check_keyword st input_dict input_dict_node template_dict_node
              input_sections input_keywords template_sections c keyword with
      | (st1, Exc e) => (st1, Exc e)
      | (st1, Ok c1) =>
          keywords_loop st1 input_dict input_dict_node template_dict_node
            input_sections input_keywords template_sections c1 ks'
      end
  end.

(** [for section in template_sections: check_predicates_node(input_dict,
       input_dict_node[section], template_section)] *)
Fixpoint psections_loop (rec : store -> value -> value -> store * result unit)
    (st : store) (input_dict_node template_dict_node : value) (secs : list value)
  : store * result unit :=
  match secs with
  | [] => (st, Ok tt)
  | section :: secs' =>
      match py_getitem st input_dict_node section with
      | Exc e => (st, Exc e)
      | Ok input_section =>
          match Validate.find_entry st template_dict_node "sections" "section" section with
          | Exc e => (st, Exc e)
          | Ok template_section =>
              match rec st input_section template_section with
              | (st1, Exc e) => (st1, Exc e)
              | (st1, Ok _) => psections_loop rec st1 input_dict_node template_dict_node secs'
              end
          end
      end
  end.

Fixpoint check_predicates_node (fuel : nat) (st : store)
    (input_dict input_dict_node template_dict_node : value) : store * result unit :=
  match fuel with
  | O => (st, Exc RecursionError)
  | S f =>
      match Validate.input_sections_of st input_dict_node with
      | Exc e => (st, Exc e)
      | Ok input_sections =>
          match Validate.input_keywords_of st input_dict_node input_sections with
          | Exc e => (st, Exc e)
          | Ok input_keywords =>
              match Validate.template_sections_of st template_dict_node with
              | Exc e => (st, Exc e)
              | Ok template_sections =>
                  match keywords_loop st input_dict input_dict_node template_dict_node
                          input_sections input_keywords template_sections None
                          input_keywords with
                  | (st1, Exc e) => (st1, Exc e)
                  | (st1, Ok _) =>
                      psections_loop
                        (fun st' n t => check_predicates_node f st' input_dict n t)
                        st1 input_dict_node template_dict_node template_sections
                  end
              end
          end
      end
  end.

End Eval.
End Predicates.

(** ** [rec_typenade] and [typenade] ([parselglossy/types.py]) *)

(** A dict built by [rec_typenade]: [outgoing = {}] is a fresh dict filled
    by [outgoing[k] = ...], never shared, so it is kept as a tree of its
    own rather than in the store. *)
Inductive otree : Type :=
| OLeaf (v : value)
| ODict (entries : list (value * otree)).

(** [outgoing[k] = o] on a fresh dict, as [dict_set]. *)
Fixpoint oset (d : list (value * otree)) (k : value) (o : otree) : list (value * otree) :=
  match d with
  | [] => [(k, o)]
  | (k', o') :: d' => if py_eq k' k then (k', o) :: d' else (k', o') :: oset d' k o
  end.

(** [Error(address, message)] of [parselglossy.exceptions]. *)
Record error : Type := {
  err_address : list value;
  err_message : msg
}.

Module Typenade.

(** Bind in [option (result _)], where [None] marks a conversion of
    [type_fixers] that [Types.apply_ctor] does not model. *)
Definition obind {A B} (r : option (result A)) (k : A -> option (result B)) : option (result B) :=
  match r with
  | None => None
  | Some (Exc e) => Some (Exc e)
  | Some (Ok a) => k a
  end.

Definition required_msg (k : value) : msg :=
  [PLit "Keyword '"; PStr k; PLit "' is required but has no value"].

Definition mismatch_msg (v declared : value) : msg :=
  [PLit "Actual ("; PLit (type_name v); PLit ") and declared ("; PStr declared;
   PLit ") types do not match"].

(** [type_fixers[declared](x)]; after [type_matches] succeeded, [declared]
    is one of the allowed tags, a [str]. *)
Definition fix_value (st : store) (declared x : value) : option (result value) :=
  match declared with
  | VStr s => Types.coerce st x s
  | _ => Some (Exc (KeyError declared))
  end.

(** The body of [for k, v in incoming.items(): ...] for one item: the new
    [outgoing[k]] and the errors it adds. *)
Definition typenade_item (rec : value -> value -> list value -> option (result (otree * list error)))
    (st : store) (incoming types : value) (fixate : bool) (address : list value) (k v : value)
  : option (result (otree * list error)) :=
  match v with
  | VDict _ =>
      obind (Some (py_getitem st types k)) (fun tk => rec v tk (app address [k]))
  | _ =>
      obind (Some (py_getitem st types k)) (fun declared =>
      obind (Some (py_getitem st incoming k)) (fun w =>
      match w with
      | VNone =>
          Some (Ok (OLeaf VNone, [{| err_address := app address [k]; err_message := required_msg k |}]))
      | _ =>
          obind (Some (Types.type_matches w declared)) (fun b =>
          if b then
            obind (if fixate then fix_value st declared w else Some (Ok w)) (fun x =>
            Some (Ok (OLeaf x, [])))
          else
            Some (Ok (OLeaf VNone,
                      [{| err_address := app address [k]; err_message := mismatch_msg w declared |}])))
      end))
  end.

Fixpoint items_loop (rec : value -> value -> list value -> option (result (otree * list error)))
    (st : store) (incoming types : value) (fixate : bool) (address : list value)
    (items : dict) (outgoing : list (value * otree)) (errors : list error)
  : option (result (otree * list error)) :=
  match items with
  | [] => Some (Ok (ODict outgoing, errors))
  | (k, v) :: items' =>
      obind (typenade_item rec st incoming types fixate address k v) (fun '(o, es) =>
      items_loop rec st incoming types fixate address items' (oset outgoing k o) (app errors es))
  end.

(** [rec_typenade(incoming, types, fixate=fixate, address=address)]; the
    fuel is the interpreter's recursion limit. *)
Fixpoint rec_typenade (fuel : nat) (st : store) (incoming types : value) (fixate : bool)
    (address : list value) : option (result (otree * list error)) :=
  match fuel with
  | O => Some (Exc RecursionError)
  | S f =>
      match incoming with
      | VDict l =>
          items_loop (fun v tk addr => rec_typenade f st v tk fixate addr)
            st incoming types fixate address (st l) [] []
      | _ => Some (Exc AttributeError) (* [.items()] of a non-dict *)
      end
  end.

(** [typenade(incoming, types)]: a non-empty error list raises
    [ParselglossyError] (its message, built by [collate_errors], is not
    modelled). *)
Definition typenade (st : store) (incoming types : value) : option (result otree) :=
  obind (rec_typenade Validate.recursion_limit st incoming types true []) (fun '(outgoing, errors) =>
  match errors with
  | [] => Some (Ok outgoing)
  | _ => Some (Exc (OtherError "ParselglossyError"))
  end).

End Typenade.

(** ** [parselglossy/documentation.py] *)

Module Documentation.
Section Str.

(** [str(x)] (and ["{}".format(x)]), used on keyword defaults only. *)
Variable py_str : store -> value -> string.

Definition nl : string := String (ascii_of_nat 10) EmptyString.

(** ["{:s}".format(x)]: only a [str] has the [s] format. *)
Definition fmt_s (v : value) : result string :=
  match v with
  | VStr s => Ok s
  | _ => Exc (ValueError [PLit "Unknown format code 's'"])
  end.

(** [key in d.keys()] *)
Definition keys_contains (st : store) (d : value) (key : string) : result bool :=
  match d with
  | VDict l => Ok (existsb (fun k => py_eq k (VStr key)) (dict_keys (st l)))
  | _ => Exc AttributeError
  end.

(** [d[key] if key in d.keys() else []] *)
Definition entries_or_empty (st : store) (d : value) (key : string) : result value :=
  has <- keys_contains st d key ;;
  if has then py_getitem st d (VStr key) else Ok (VList []).

(** [in_str.replace("\n", "\n" + ("  " * level))] *)
Fixpoint replace_nl (pad s : string) : string :=
  match s with
  | EmptyString => EmptyString
  | String c s' =>
      if Ascii.eqb c (ascii_of_nat 10) then String c (pad ++ replace_nl pad s')
      else String c (replace_nl pad s')
  end.

Fixpoint spaces (level : nat) : string :=
  match level with
  | O => EmptyString
  | S n => "  " ++ spaces n
  end.

Definition indent (in_str : string) (level : nat) : string := replace_nl (spaces level) in_str.

Definition document_keyword (st : store) (keyword : value) : result string :=
  name <- py_getitem st keyword (VStr "name") ;;
  docstring <- py_getitem st keyword (VStr "docstring") ;;
  type_ <- py_getitem st keyword (VStr "type") ;;
  n <- fmt_s name ;; d <- fmt_s docstring ;; t <- fmt_s type_ ;;
  let doc := nl ++ " :" ++ n ++ ": " ++ d ++ nl ++ nl ++ "  **Type** ``" ++ t ++ "``" ++ nl in
  has <- keys_contains st keyword "default" ;;
  if has then (dv <- py_getitem st keyword (VStr "default") ;;
               Ok (doc ++ nl ++ "  **Default** " ++ py_str st dv))
  else Ok doc.

(** [for k in keywords: doc += document_keyword(k); docs.extend(indent(doc, level))]:
    [docs] is a list of characters joined at the end, kept here as the
    joined string. *)
Fixpoint keywords_doc_loop (st : store) (level : nat) (doc docs : string) (ks : list value)
  : result (string * string) :=
  match ks with
  | [] => Ok (doc, docs)
  | k :: ks' =>
      dk <- document_keyword st k ;;
      let doc' := doc ++ dk in
      keywords_doc_loop st level doc' (docs ++ indent doc' level) ks'
  end.

(** [for s in sections: doc += fmt.format(s["name"], s["docstring"]);
       doc += rec_documentation_generator(s, level=level + 1);
       docs.extend(indent(doc, level))] *)
Fixpoint sections_doc_loop (rec : value -> result string) (st : store) (level : nat)
    (doc docs : string) (ss : list value) : result string :=
  match ss with
  | [] => Ok docs
  | s :: ss' =>
      name <- py_getitem st s (VStr "name") ;;
      docstring <- py_getitem st s (VStr "docstring") ;;
      n <- fmt_s name ;; d <- fmt_s docstring ;;
      let doc1 := doc ++ nl ++ " :" ++ n ++ ": " ++ d ++ nl in
      sub <- rec s ;;
      let doc2 := doc1 ++ sub in
      sections_doc_loop rec st level doc2 (docs ++ indent doc2 level) ss'
  end.

(** [rec_documentation_generator(template, level=level)]; the fuel is the
    interpreter's recursion limit.  [doc] is read only after it is
    assigned: a falsy [keywords] or [sections] is empty, so its loop does
    not run. *)
Fixpoint rec_documentation_generator (fuel : nat) (st : store) (template : value) (level : nat)
  : result string :=
  match fuel with
  | O => Exc RecursionError
  | S f =>
      keywords <- entries_or_empty st template "keywords" ;;
      let doc0 := if truthy st keywords then nl ++ "**Keywords**" else EmptyString in
      ks <- py_iter st keywords ;;
      r1 <- keywords_doc_loop st level doc0 EmptyString ks ;;
      let '(doc1, docs1) := r1 in
      sections <- entries_or_empty st template "sections" ;;
      let doc2 := if truthy st sections
                  then (if Nat.eqb level 0 then nl else nl ++ nl) ++ "**Sections**"
                  else doc1 in
      ss <- py_iter st sections ;;
      sections_doc_loop (fun s => rec_documentation_generator f st s (S level))
        st level doc2 docs1 ss
  end.

Definition info : string :=
  ".. This documentation was autogenerated using parselglossy. Editing by hand is not recommended." ++ nl.

Definition default_header : string :=
  nl ++ "================" ++ nl ++ "Input parameters" ++ nl ++ "================" ++ nl ++ nl.

Definition required_note : string :=
  "Keywords without a default value are **required**." ++ nl ++
  "Sections where all keywords have a default value can be omitted." ++ nl.

Definition documentation_generator (st : store) (template : value) (header : string) : result string :=
  docs <- rec_documentation_generator Validate.recursion_limit st template 0 ;;
  let header' := (if String.eqb header EmptyString then default_header else header) ++ required_note in
  Ok (info ++ header' ++ docs).

End Str.
End Documentation.

Open Scope nat_scope.

(** * Concrete stores *)

(** A store given by a finite table of locations; any other location holds
    the empty dict. *)
Definition mk_store (xs : list (loc * dict)) : store :=
  fun l => match find (fun p => Nat.eqb (fst p) l) xs with
           | Some (_, d) => d
           | None => []
           end.

(** A template keyword entry [{'keyword': n, 'type': t, ('default': d,)
    'documentation': 'doc'}]. *)
Definition kw_entry (n t : string) (d : option value) : dict :=
  app [(VStr "keyword", VStr n); (VStr "type", VStr t)]
    (app (match d with Some v => [(VStr "default", v)] | None => [] end)
         [(VStr "documentation", VStr "doc")]).

(** Input [{}] (location 1) against a template (location 2) with the one
    keyword [n] of type [int], default [0] (location 3). *)
Definition store_default : store :=
  mk_store [(1, []); (2, [(VStr "keywords", VList [VDict 3])]);
            (3, kw_entry "n" "int" (Some (VInt 0)))].

(** Input [{'x': 1}] against a template whose only keyword [a] is
    required. *)
Definition store_unexpected : store :=
  mk_store [(1, [(VStr "x", VInt 1)]); (2, [(VStr "keywords", VList [VDict 3])]);
            (3, kw_entry "a" "int" None)].

(** Input [{'x': 1, 'y': 2}] against the same template. *)
Definition store_two_unexpected : store :=
  mk_store [(1, [(VStr "x", VInt 1); (VStr "y", VInt 2)]);
            (2, [(VStr "keywords", VList [VDict 3])]);
            (3, kw_entry "a" "int" None)].

(** Input [{}] against a template whose keyword [n] of type [int] has the
    ill-typed default ['x']. *)
Definition store_bad_default : store :=
  mk_store [(1, []); (2, [(VStr "keywords", VList [VDict 3])]);
            (3, kw_entry "n" "int" (Some (VStr "x")))].

(** Input [{}] against a template with no keyword and one section [s]. *)
Definition store_missing_section : store :=
  mk_store [(1, []);
            (2, [(VStr "keywords", VList []); (VStr "sections", VList [VDict 3])]);
            (3, [(VStr "section", VStr "s"); (VStr "keywords", VList [])])].

(** Input [{'n': '5'}] against the template with keyword [n] of type
    [int]. *)
Definition store_mistyped : store :=
  mk_store [(1, [(VStr "n", VStr "5")]); (2, [(VStr "keywords", VList [VDict 3])]);
            (3, kw_entry "n" "int" (Some (VInt 0)))].

(** Input [{}] against a template with only a [sections] entry. *)
Definition store_no_keywords : store :=
  mk_store [(1, []); (2, [(VStr "sections", VList [])])].

(** The run of [validate_node] on [store_default]. *)
Definition run_default : store * result value :=
  Validate.validate_node Validate.recursion_limit store_default (VDict 1) (VDict 2).

(** The text of a message whose pieces are literals and [str] arguments
    ([str.format] inserts a [str] as it is); other messages are not
    rendered. *)
Definition render (m : msg) : option string :=
  fold_right
    (fun p acc =>
       match p, acc with
       | PLit s, Some r => Some (s ++ r)
       | PStr (VStr s), Some r => Some (s ++ r)
       | _, _ => None
       end) (Some "") m.

(** Input [{'n': 5}] against a template whose keyword [n] carries the two
    predicates ['value > 0'] and ['undefined_name']. *)
Definition store_predicates : store :=
  mk_store [(1, [(VStr "n", VInt 5)]); (2, [(VStr "keywords", VList [VDict 3])]);
            (3, [(VStr "keyword", VStr "n"); (VStr "type", VStr "int");
                 (VStr "predicates", VList [VStr "value > 0"; VStr "undefined_name"]);
                 (VStr "documentation", VStr "doc")])].

(** A small [eval] for the predicates of [store_predicates]: ['value > 0']
    compares the keyword's value with 0, ['undefined_name'] raises
    [NameError], anything else is a syntax error. *)
Definition toy_eval (st : store) (fr : pred_frame) : store * result value :=
  (st, match f_predicate fr with
       | VStr s =>
           if String.eqb s "value > 0" then
             match f_value fr with
             | VInt z => Ok (VBool (0 <? z)%Z)
             | _ => Exc TypeError
             end
           else if String.eqb s "undefined_name" then Exc (NameError "undefined_name")
           else Exc SyntaxError
       | _ => Exc TypeError
       end).

(** Input [{'a': None, 'b': '5', 'c': {'d': 1}, 'e': 7}] (location 1), or
    [{'b': 5, 'c': {'d': 1}}] (location 5), against the types
    [{'a': 'int', 'b': 'int', 'c': {'d': 'int'}, 'e': 'int'}] (location 3). *)
Definition store_typenade : store :=
  mk_store [(1, [(VStr "a", VNone); (VStr "b", VStr "5"); (VStr "c", VDict 2); (VStr "e", VInt 7)]);
            (2, [(VStr "d", VInt 1)]);
            (3, [(VStr "a", VStr "int"); (VStr "b", VStr "int"); (VStr "c", VDict 4);
                 (VStr "e", VStr "int")]);
            (4, [(VStr "d", VStr "int")]);
            (5, [(VStr "b", VInt 5); (VStr "c", VDict 2)])].

(** Input [{'n': 5, 's': {}}] (location 1) against a template (location 2)
    with the keyword [n] of type [int] without default (location 3) and
    the section [s] (location 5), whose keyword [m] of type [int] has the
    default [1] (location 6). *)
Definition store_nested : store :=
  mk_store [(1, [(VStr "n", VInt 5); (VStr "s", VDict 4)]); (4, []);
            (2, [(VStr "keywords", VList [VDict 3]); (VStr "sections", VList [VDict 5])]);
            (3, kw_entry "n" "int" None);
            (5, [(VStr "section", VStr "s"); (VStr "keywords", VList [VDict 6])]);
            (6, kw_entry "m" "int" (Some (VInt 1)))].

Definition run_nested : store * result value :=
  Validate.validate_node Validate.recursion_limit store_nested (VDict 1) (VDict 2).

(** * Notions used in the statements *)

(** [k in d] on a dict's key list. *)
Definition has_key (d : dict) (k : value) : bool := py_in_list k (dict_keys d).

(** No dict of the store loses a key. *)
Definition keys_grow (st st' : store) : Prop :=
  forall l k, has_key (st l) k = true -> has_key (st' l) k = true.

(** Unpacking a chain of binds and matches that ends in [Ok]. *)
Ltac inv_ok H :=
  repeat match type of H with
  | rbind ?r _ = Ok _ =>
      let E := fresh "E" in destruct r eqn:E; cbn [rbind] in H; [|discriminate H]
  | (match ?x with _ => _ end) = Ok _ =>
      let E := fresh "E" in destruct x eqn:E; try discriminate H
  end.

(** A template keyword entry that passes the documentation check: a dict
    with a hashable [keyword] name and a non-blank [documentation] string. *)
Definition documented_entry (st : store) (x : value) : Prop :=
  exists e n d, x = VDict e /\ dict_find (st e) (VStr "keyword") = Some n /\
    hashable n = true /\ dict_find (st e) (VStr "documentation") = Some (VStr d) /\
    strip d <> "".

(** [k] is a keyword (not a section) of the input dict at [l]. *)
Definition input_keyword (st : store) (l : loc) (k : value) : Prop :=
  In k (dict_keys (st l)) /\ exists v, dict_find (st l) k = Some v /\ type_name v <> "dict".

(** Whether the value found under [k] is a dict. *)
Definition is_section_key (d : dict) (k : value) : bool :=
  match dict_find d k with
  | Some v => String.eqb (type_name v) "dict"
  | None => false
  end.

(** The locations a value reaches through dict keys, dict values and list
    items. *)
Inductive reaches (st : store) : value -> loc -> Prop :=
| reaches_here l : reaches st (VDict l) l
| reaches_key l k w x : In (k, w) (st l) -> reaches st k x -> reaches st (VDict l) x
| reaches_value l k w x : In (k, w) (st l) -> reaches st w x -> reaches st (VDict l) x
| reaches_item vs w x : In w vs -> reaches st w x -> reaches st (VList vs) x.

(** A value that holds no dict, even inside lists. *)
Fixpoint dict_free (v : value) : bool :=
  match v with
  | VDict _ => false
  | VList vs => forallb dict_free vs
  | _ => true
  end.

(** The dicts held directly as values of a dict. *)
Fixpoint children (d : dict) : list loc :=
  match d with
  | [] => []
  | (_, VDict c) :: d' => c :: children d'
  | _ :: d' => children d'
  end.

(** The dict at [l] is the root of a tree of nested dicts of depth at most
    [depth], whose locations are [fp]: every key is hashable, every value
    is a dict-free value or a sub-dict, and no dict occurs twice (no
    sharing, no cycle). *)
Fixpoint tree (depth : nat) (st : store) (l : loc) (fp : list loc) : Prop :=
  match depth with
  | O => False
  | S depth' =>
      exists cs : list (loc * list loc),
        fp = l :: concat (map snd cs) /\ NoDup fp /\ NoDup (children (st l)) /\
        (forall k w, In (k, w) (st l) ->
           hashable k = true /\ (dict_free w = true \/ exists c, w = VDict c)) /\
        (forall c, In c (children (st l)) -> exists fpc, In (c, fpc) cs) /\
        (forall c fpc, In (c, fpc) cs -> tree depth' st c fpc)
  end.

(** [e] is an entry of [x['keywords']]. *)
Definition keyword_entry (st : store) (x e : loc) : Prop :=
  exists ks xs, dict_find (st x) (VStr "keywords") = Some ks /\
    py_iter st ks = Ok xs /\ In (VDict e) xs.

(** Every keyword entry of every node of the template that has a default
    has a type, which the default matches. *)
Definition defaults_typed (st : store) (t : value) : Prop :=
  forall x e D, reaches st t x -> keyword_entry st x e ->
    dict_find (st e) (VStr "default") = Some D ->
    exists ty, dict_find (st e) (VStr "type") = Some ty /\
      Validate.type_matches D ty = Ok true.

(** Validating the dict at [l] against [t] changes nothing and succeeds, in
    every store that agrees with [st] on the tree [fp] and on the
    template. *)
Definition stable (fuel : nat) (st : store) (fp : list loc) (l : loc) (t : value) : Prop :=
  forall st2, (forall x, In x fp -> st2 x = st x) -> (forall x, reaches st t x -> st2 x = st x) ->
    Validate.validate_node fuel st2 (VDict l) t = (st2, Ok (VDict l)).

(** A successful run at fuel [n] on a tree disjoint from a template whose
    defaults are typed changes nothing outside the tree, keeps it a tree,
    and leaves it stable. *)
Definition run_stable (n : nat) : Prop :=
  forall d st c tc fpc st' r, tree d st c fpc -> (forall x, reaches st tc x -> ~ In x fpc) ->
    defaults_typed st tc -> Validate.validate_node n st (VDict c) tc = (st', Ok r) ->
    (forall x, ~ In x fpc -> st' x = st x) /\ tree d st' c fpc /\ stable n st' fpc c tc.

(** [d[k] = v] for each pair in turn. *)
Fixpoint dict_set_all (d : dict) (ps : list (value * value)) : dict :=
  match ps with
  | [] => d
  | (k, v) :: ps' => dict_set_all (dict_set d k v) ps'
  end.

(** Everything the read-only part of [validate_node] checks, step by
    step, for the input dict at [l]. *)
Definition prelude_ok (st : store) (l : loc) (t : value) (is ik ts tk nd : list value) : Prop :=
  Validate.input_sections_of st (VDict l) = Ok is /\
  Validate.input_keywords_of st (VDict l) is = Ok ik /\
  Validate.template_sections_of st t = Ok ts /\
  Validate.template_keywords_of st t = Ok tk /\
  Validate.keywords_no_doc_of st t = Ok [] /\
  forallb hashable ik = true /\ forallb hashable tk = true /\
  (forall k, In k ik -> py_in_list k tk = true) /\
  forallb hashable is = true /\ forallb hashable ts = true /\
  (forall k, In k is -> py_in_list k ts = true) /\
  Validate.keywords_no_default_of st t = Ok nd /\ forallb hashable nd = true /\
  (forall k, In k nd -> py_in_list k ik = true) /\
  Validate.check_types st (VDict l) t ik = Ok tt.

(** The dicts a value names directly, through lists. *)
Fixpoint dict_locs (v : value) : list loc :=
  match v with
  | VDict l => [l]
  | VList vs => flat_map dict_locs vs
  | _ => []
  end.

(** Every dict named by an entry of a dict of [S] is in [S]. *)
Definition closed_b (st : store) (S : list loc) : bool :=
  forallb (fun l => forallb (fun kw =>
    forallb (fun x => existsb (Nat.eqb x) S) (dict_locs (fst kw) ++ dict_locs (snd kw))) (st l)) S.

(** No two keys of a list are [==]. *)
Fixpoint distinct_keys (ks : list value) : bool :=
  match ks with
  | [] => true
  | k :: ks' => forallb (fun k' => negb (py_eq k k')) ks' && distinct_keys ks'
  end.

(** Every dict a value reaches has pairwise distinct keys. *)
Definition distinct_tree (st : store) (v : value) : Prop :=
  forall x, reaches st v x -> distinct_keys (dict_keys (st x)) = true.

(** The number of [None] leaves of a dict built by [rec_typenade]. *)
Fixpoint none_leaves (o : otree) : nat :=
  match o with
  | OLeaf VNone => 1
  | OLeaf _ => 0
  | ODict es => (fix go (es : list (value * otree)) : nat :=
                   match es with
                   | [] => 0
                   | (_, o') :: es' => none_leaves o' + go es'
                   end) es
  end.

(** A copy of a dict as a fresh tree: dict values copied in turn, every
    other value kept. *)
Fixpoint snapshot_items (snap : value -> option otree) (d : dict) : option (list (value * otree)) :=
  match d with
  | [] => Some []
  | (k, w) :: d' =>
      match snap w, snapshot_items snap d' with
      | Some o, Some os => Some ((k, o) :: os)
      | _, _ => None
      end
  end.

Fixpoint snapshot (fuel : nat) (st : store) (v : value) : option otree :=
  match v with
  | VDict l =>
      match fuel with
      | O => None
      | S f => option_map ODict (snapshot_items (snapshot f st) (st l))
      end
  | _ => Some (OLeaf v)
  end.

(** No keyword entry of any node the template reaches has a [predicates]
    entry. *)
Definition no_predicates (st : store) (t : value) : Prop :=
  forall x e, reaches st t x -> keyword_entry st x e -> dict_find (st e) (VStr "predicates") = None.

(** [incoming[p0][p1]...]: following a path of keys through nested dicts. *)
Fixpoint follow (st : store) (v : value) (p : list value) : option value :=
  match p with
  | [] => Some v
  | k :: p' =>
      match v with
      | VDict l => match dict_find (st l) k with Some w => follow st w p' | None => None end
      | _ => None
      end
  end.

(** The results of [rec_typenade] on [store_typenade], computed once. *)
Definition typenade_out1 : otree * list error :=
  Eval vm_compute in
  match Typenade.rec_typenade Validate.recursion_limit store_typenade (VDict 1) (VDict 3) true [] with
  | Some (Ok p) => p
  | _ => (ODict [], [])
  end.

Definition typenade_out5 : otree :=
  Eval vm_compute in
  match Typenade.typenade store_typenade (VDict 5) (VDict 3) with
  | Some (Ok o) => o
  | _ => ODict []
  end.


(** A template in the layout [documentation.py] reads ([name],
    [docstring]): keywords [a] (location 2) and [b] with default [1]
    (location 3), and a section [s] (location 4) holding keyword [a]. *)
Definition store_doc : store :=
  mk_store [(1, [(VStr "keywords", VList [VDict 2; VDict 3]); (VStr "sections", VList [VDict 4])]);
            (2, [(VStr "name", VStr "a"); (VStr "docstring", VStr "A"); (VStr "type", VStr "int")]);
            (3, [(VStr "name", VStr "b"); (VStr "docstring", VStr "B"); (VStr "type", VStr "int");
                 (VStr "default", VInt 1)]);
            (4, [(VStr "name", VStr "s"); (VStr "docstring", VStr "S"); (VStr "keywords", VList [VDict 2])])].

(** [str] on the values of [store_doc]. *)
Definition str_doc (st : store) (v : value) : string :=
  match v with VInt 1 => "1" | _ => EmptyString end.

Definition doc_kw_a : string :=
  Documentation.nl ++ " :a: A" ++ Documentation.nl ++ Documentation.nl ++ "  **Type** ``int``" ++ Documentation.nl.

Definition doc_kw_b : string :=
  Documentation.nl ++ " :b: B" ++ Documentation.nl ++ Documentation.nl ++ "  **Type** ``int``" ++ Documentation.nl ++
  Documentation.nl ++ "  **Default** 1".

(** Concatenation of a list of strings. *)
Definition concat_str (xs : list string) : string := fold_right append EmptyString xs.

(** The text made of [hdr] followed by the first [i] parts, indented, for
    [i] = 1 .. [length parts], one after the other. *)
Definition cumulative (hdr : string) (parts : list string) (level : nat) : string :=
  concat_str (map (fun i => Documentation.indent (hdr ++ concat_str (firstn i parts)) level)
                  (seq 1 (length parts))).

(** The line [fmt.format(s["name"], s["docstring"])] followed by the
    section's own documentation. *)
Definition section_part (p : string * string * string) : string :=
  let '(n, d, sub) := p in Documentation.nl ++ " :" ++ n ++ ": " ++ d ++ Documentation.nl ++ sub.

Definition sections_header (level : nat) : string :=
  (if Nat.eqb level 0 then Documentation.nl else Documentation.nl ++ Documentation.nl) ++ "**Sections**".

(** * Properties *)

(** ** Equality and tags *)

Lemma py_eq_str_l (t : string) (v : value) : py_eq (VStr t) v = true <-> v = VStr t.
Proof.
  destruct v; simpl; split; intro H; try discriminate.
  - apply String.eqb_eq in H; subst; reflexivity.
  - inversion H; subst; apply String.eqb_refl.
Qed.

Lemma tag_allowed_iff (allowed : list string) (tag : value) :
  Types.tag_allowed allowed tag = true <-> exists t, In t allowed /\ tag = VStr t.
Proof.
  unfold Types.tag_allowed; rewrite existsb_exists; split.
  - intros [t [Hin Heq]]; apply py_eq_str_l in Heq; eauto.
  - intros [t [Hin Heq]]; exists t; split; [exact Hin | apply py_eq_str_l; exact Heq].
Qed.

(** The ten tags of the spec: five scalar tags and their list variants. *)
Definition spec_tags : list string :=
  ["bool"; "str"; "int"; "float"; "complex";
   "List[bool]"; "List[str]"; "List[int]"; "List[float]"; "List[complex]"].

Definition spec_scalar_tags : list string := ["bool"; "str"; "int"; "float"; "complex"].

Lemma types_allowed_spec (t : string) : In t Types.allowed_types <-> In t spec_tags.
Proof. unfold Types.allowed_types; simpl; tauto. Qed.

Lemma validate_allowed_spec (t : string) : In t Validate.allowed_types <-> In t spec_tags.
Proof. unfold Validate.allowed_types; simpl; tauto. Qed.

Lemma spec_tags_ten : length spec_tags = 10 /\ NoDup spec_tags.
Proof.
  split; [reflexivity|].
  repeat constructor; simpl; intuition discriminate.
Qed.

(** A recognised tag always takes the [VStr] branch. *)
Ltac tag_cases H :=
  simpl in H; repeat (destruct H as [H | H]; [subst | ]); [.. | contradiction].

Lemma list_tag_match_scalar (t : string) : In t spec_scalar_tags -> list_tag_match t = None.
Proof. intro H; tag_cases H; reflexivity. Qed.

Lemma list_tag_match_list (t : string) :
  In t spec_scalar_tags -> list_tag_match ("List[" ++ t ++ "]") = Some t.
Proof. intro H; tag_cases H; reflexivity. Qed.

Definition recognised (tag : value) : Prop := exists t, In t spec_tags /\ tag = VStr t.

Lemma types_tag_allowed_iff (tag : value) :
  Types.tag_allowed Types.allowed_types tag = true <-> recognised tag.
Proof.
  rewrite tag_allowed_iff; unfold recognised.
  split; intros [t [H1 H2]]; exists t; split; auto; apply types_allowed_spec; auto.
Qed.

Lemma validate_tag_allowed_iff (tag : value) :
  Types.tag_allowed Validate.allowed_types tag = true <-> recognised tag.
Proof.
  rewrite tag_allowed_iff; unfold recognised.
  split; intros [t [H1 H2]]; exists t; split; auto; apply validate_allowed_spec; auto.
Qed.

Definition unrecognised_error (tag : value) : exn :=
  ValueError [PLit "could not recognize expected_type: "; PStr tag].

(** The error contract of a [type_matches]: it raises exactly on the
    unrecognised tags, always the same [ValueError] whatever the value,
    and answers a boolean on every recognised tag. *)
Definition tag_contract (tm : value -> value -> result bool) : Prop :=
  (forall v tag, (exists e, tm v tag = Exc e) <-> ~ recognised tag) /\
  (forall v tag, ~ recognised tag -> tm v tag = Exc (unrecognised_error tag)) /\
  (forall v tag, recognised tag -> exists b, tm v tag = Ok b).

Lemma types_type_matches_unrecognised (v tag : value) :
  ~ recognised tag -> Types.type_matches v tag = Exc (unrecognised_error tag).
Proof.
  intro H; unfold Types.type_matches.
  destruct (Types.tag_allowed Types.allowed_types tag) eqn:E.
  - exfalso; apply H, types_tag_allowed_iff, E.
  - reflexivity.
Qed.

Lemma types_type_matches_recognised (v : value) (t : string) :
  In t spec_tags ->
  Types.type_matches v (VStr t) =
  Ok (match list_tag_match t with
      | Some inner => Types._type_check_list v inner
      | None => Types._type_check_scalar v t
      end).
Proof.
  intro H; unfold Types.type_matches.
  assert (E : Types.tag_allowed Types.allowed_types (VStr t) = true)
    by (apply types_tag_allowed_iff; exists t; auto).
  rewrite E; simpl; destruct (list_tag_match t); reflexivity.
Qed.

Lemma validate_type_matches_unrecognised (v tag : value) :
  ~ recognised tag -> Validate.type_matches v tag = Exc (unrecognised_error tag).
Proof.
  intro H; unfold Validate.type_matches.
  destruct (Types.tag_allowed Validate.allowed_types tag) eqn:E.
  - exfalso; apply H, validate_tag_allowed_iff, E.
  - reflexivity.
Qed.

Lemma validate_type_matches_recognised (v : value) (t : string) :
  In t spec_tags ->
  Validate.type_matches v (VStr t) =
  Ok (match list_tag_match t with
      | Some inner =>
          match v with VList xs => Validate.elements_match xs inner | _ => false end
      | None => String.eqb (type_name v) t
      end).
Proof.
  intro H; unfold Validate.type_matches.
  assert (E : Types.tag_allowed Validate.allowed_types (VStr t) = true)
    by (apply validate_tag_allowed_iff; exists t; auto).
  rewrite E; simpl; destruct (list_tag_match t); [destruct v|]; reflexivity.
Qed.

Lemma tag_contract_of (tm : value -> value -> result bool) :
  (forall v tag, ~ recognised tag -> tm v tag = Exc (unrecognised_error tag)) ->
  (forall v t, In t spec_tags -> exists b, tm v (VStr t) = Ok b) ->
  tag_contract tm.
Proof.
  intros Hu Hr; split; [|split]; auto.
  - intros v tag; split.
    + intros [e He] [t [Hin ->]]; destruct (Hr v t Hin) as [b Hb]; congruence.
    + intro Hn; eexists; apply Hu, Hn.
  - intros v tag [t [Hin ->]]; auto.
Qed.

(** C7: [type_matches] (both the one of [types.py] and the one of
    [validate.py]) raises if and only if the tag is not one of exactly ten
    recognised tags; the check comes first and does not look at the value
    (the very same [ValueError] for every value); on a recognised tag it
    returns a boolean. *)
Theorem type_matches_tag_contract :
  (length spec_tags = 10 /\ NoDup spec_tags) /\
  (forall t, In t Types.allowed_types <-> In t spec_tags) /\
  (forall t, In t Validate.allowed_types <-> In t spec_tags) /\
  tag_contract Types.type_matches /\ tag_contract Validate.type_matches.
Proof.
  split; [exact spec_tags_ten|].
  split; [exact types_allowed_spec|].
  split; [exact validate_allowed_spec|].
  split; apply tag_contract_of.
  - exact types_type_matches_unrecognised.
  - intros v t H; rewrite (types_type_matches_recognised v t H); eauto.
  - exact validate_type_matches_unrecognised.
  - intros v t H; rewrite (validate_type_matches_recognised v t H); eauto.
Qed.

Lemma elements_match_forallb (xs : list value) (t : string) :
  Validate.elements_match xs t = forallb (fun x => String.eqb (type_name x) t) xs.
Proof.
  induction xs as [|x xs IH]; simpl; [reflexivity|].
  destruct (String.eqb (type_name x) t); simpl; auto.
Qed.

Lemma list_tag_recognised (T : string) :
  In T spec_scalar_tags -> In ("List[" ++ T ++ "]") spec_tags.
Proof. intro H; tag_cases H; simpl; tauto. Qed.

Lemma scalar_tag_recognised (T : string) : In T spec_scalar_tags -> In T spec_tags.
Proof. intro H; tag_cases H; simpl; tauto. Qed.

(** What [type_matches] answers on the list tag [List[T]]. *)
Definition list_tag_contract (tm : value -> value -> result bool) : Prop :=
  forall T, In T spec_scalar_tags -> forall v,
    exists b, tm v (VStr ("List[" ++ T ++ "]")) = Ok b /\
      (b = true <-> exists xs, v = VList xs /\ forall x, In x xs -> tm x (VStr T) = Ok true).

Lemma forallb_type_name_iff (xs : list value) (tm : value -> value -> result bool) (T : string) :
  (forall x, tm x (VStr T) = Ok (String.eqb (type_name x) T)) ->
  (forallb (fun x => String.eqb (type_name x) T) xs = true <->
   forall x, In x xs -> tm x (VStr T) = Ok true).
Proof.
  intro Htm; rewrite forallb_forall; split.
  - intros H x Hx; rewrite Htm, (H x Hx); reflexivity.
  - intros H x Hx; specialize (H x Hx); rewrite Htm in H; congruence.
Qed.

Lemma list_tag_contract_of (tm : value -> value -> result bool) :
  (forall T v, In T spec_scalar_tags -> tm v (VStr T) = Ok (String.eqb (type_name v) T)) ->
  (forall T v, In T spec_scalar_tags ->
     tm v (VStr ("List[" ++ T ++ "]")) =
     Ok (match v with
         | VList xs => forallb (fun x => String.eqb (type_name x) T) xs
         | _ => false
         end)) ->
  list_tag_contract tm.
Proof.
  intros Hs Hl T HT v; rewrite (Hl T v HT); eexists; split; [reflexivity|].
  destruct v; split; intro H;
    try discriminate; try (destruct H as [? [? _]]; discriminate).
  - exists vs; split; [reflexivity|].
    apply (forallb_type_name_iff vs tm T (fun x => Hs T x HT)); exact H.
  - destruct H as [xs [Hxs Hall]]; inversion Hxs; subst.
    apply (forallb_type_name_iff xs tm T (fun x => Hs T x HT)); exact Hall.
Qed.

(** C8: on a list tag [List[T]], [type_matches] (of [types.py] and of
    [validate.py]) returns true exactly when the value is a list all of
    whose elements match the scalar tag [T]; the empty list matches every
    list tag. *)
Theorem type_matches_list_tags :
  list_tag_contract Types.type_matches /\ list_tag_contract Validate.type_matches /\
  (forall T, In T spec_scalar_tags ->
     Types.type_matches (VList []) (VStr ("List[" ++ T ++ "]")) = Ok true /\
     Validate.type_matches (VList []) (VStr ("List[" ++ T ++ "]")) = Ok true).
Proof.
  assert (Ts : forall T v, In T spec_scalar_tags ->
            Types.type_matches v (VStr T) = Ok (String.eqb (type_name v) T)).
  { intros T v H; rewrite (types_type_matches_recognised v T (scalar_tag_recognised T H)).
    rewrite (list_tag_match_scalar T H); reflexivity. }
  assert (Tl : forall T v, In T spec_scalar_tags ->
            Types.type_matches v (VStr ("List[" ++ T ++ "]")) =
            Ok (match v with
                | VList xs => forallb (fun x => String.eqb (type_name x) T) xs
                | _ => false
                end)).
  { intros T v H; rewrite (types_type_matches_recognised v _ (list_tag_recognised T H)).
    rewrite (list_tag_match_list T H); destruct v; reflexivity. }
  assert (Vs : forall T v, In T spec_scalar_tags ->
            Validate.type_matches v (VStr T) = Ok (String.eqb (type_name v) T)).
  { intros T v H; rewrite (validate_type_matches_recognised v T (scalar_tag_recognised T H)).
    rewrite (list_tag_match_scalar T H); reflexivity. }
  assert (Vl : forall T v, In T spec_scalar_tags ->
            Validate.type_matches v (VStr ("List[" ++ T ++ "]")) =
            Ok (match v with
                | VList xs => forallb (fun x => String.eqb (type_name x) T) xs
                | _ => false
                end)).
  { intros T v H; rewrite (validate_type_matches_recognised v _ (list_tag_recognised T H)).
    rewrite (list_tag_match_list T H); destruct v; try reflexivity.
    rewrite elements_match_forallb; reflexivity. }
  split; [apply list_tag_contract_of; auto|].
  split; [apply list_tag_contract_of; auto|].
  intros T H; rewrite (Tl T _ H), (Vl T _ H); split; reflexivity.
Qed.

(** ** [type_fixers] *)

Definition empty_store : store := fun _ => [].

Lemma type_fixers_list_entries (T : string) :
  In T spec_scalar_tags ->
  Types.lookup_fixer (Types.entries Types.type_fixers) ("List[" ++ T ++ "]")
  = Some Types.FMapLoopVar.
Proof. intro H; tag_cases H; reflexivity. Qed.

Lemma map_ctor_str_ints (st : store) (zs : list Z) :
  Types.map_ctor st Types.CStr (map VInt zs)
  = Some (Ok (map (fun z => VStr (Types.string_of_Z z)) zs)).
Proof.
  induction zs as [|z zs IH]; simpl; [reflexivity|].
  rewrite IH; reflexivity.
Qed.

(** C1 (failing input): every [List[T]] entry of [type_fixers] is the
    closure over the comprehension's loop variable [v], whose final value
    is [str]; so the fixer of [List[int]] turns a list of ints into the
    list of their decimal strings, and [[1, 2]], which matches [List[int]],
    comes back as [['1', '2']], not equal to the input. *)
Theorem coerce_list_int_stringifies :
  Types.loop_var_v Types.type_fixers = Types.CStr /\
  (forall T, In T spec_scalar_tags ->
     Types.lookup_fixer (Types.entries Types.type_fixers) ("List[" ++ T ++ "]")
     = Some Types.FMapLoopVar) /\
  (forall st zs, Types.coerce st (VList (map VInt zs)) "List[int]"
                 = Some (Ok (VList (map (fun z => VStr (Types.string_of_Z z)) zs)))) /\
  Types.type_matches (VList [VInt 1; VInt 2]) (VStr "List[int]") = Ok true /\
  Types.coerce empty_store (VList [VInt 1; VInt 2]) "List[int]"
    = Some (Ok (VList [VStr "1"; VStr "2"])) /\
  py_eq (VList [VInt 1; VInt 2]) (VList [VStr "1"; VStr "2"]) = false.
Proof.
  split; [reflexivity|].
  split; [exact type_fixers_list_entries|].
  split; [|split; [reflexivity|split; reflexivity]].
  intros st zs; unfold Types.coerce; simpl.
  rewrite map_ctor_str_ints; reflexivity.
Qed.

(** ** Dict lemmas *)

Lemma py_eq_refl : forall v, py_eq v v = true.
Proof.
  fix IH 1; intros [| b | z | q | re im | s | vs | l]; simpl.
  - reflexivity.
  - destruct b; reflexivity.
  - rewrite !Qeq_bool_refl; reflexivity.
  - rewrite !Qeq_bool_refl; reflexivity.
  - rewrite !Qeq_bool_refl; reflexivity.
  - apply String.eqb_refl.
  - revert vs; fix IHl 1; intros [|x xs]; [reflexivity|].
    simpl; rewrite (IH x); apply IHl.
  - apply Nat.eqb_refl.
Qed.

Lemma dict_find_in_keys (d : dict) (k : value) :
  In k (dict_keys d) -> exists v, dict_find d k = Some v.
Proof.
  induction d as [|[k' v'] d IH]; simpl; [contradiction|].
  intros [Heq | H]; destruct (py_eq k' k) eqn:E; eauto.
  subst; rewrite py_eq_refl in E; discriminate.
Qed.

Lemma dict_find_none_iff (d : dict) (k : value) :
  dict_find d k = None <-> existsb (fun k' => py_eq k' k) (dict_keys d) = false.
Proof.
  induction d as [|[k' v'] d IH]; simpl; [tauto|].
  destruct (py_eq k' k); simpl; [split; discriminate | exact IH].
Qed.

Lemma dict_find_some_exists (d : dict) (k : value) (v : value) :
  dict_find d k = Some v -> existsb (fun k' => py_eq k' k) (dict_keys d) = true.
Proof.
  intro H; destruct (existsb _ _) eqn:E; [reflexivity|].
  apply dict_find_none_iff in E; congruence.
Qed.

Definition keys_hashable (d : dict) : Prop := forallb hashable (dict_keys d) = true.

Lemma comp_filter_map_ok (cond : value -> result bool) (xs : list value) :
  (forall x, In x xs -> exists b, cond x = Ok b) ->
  exists ys, Validate.comp_filter_map cond (fun x => Ok x) xs = Ok ys.
Proof.
  induction xs as [|x xs IH]; simpl; intro H; [eauto|].
  destruct (H x (or_introl eq_refl)) as [b Hb]; rewrite Hb; simpl.
  destruct IH as [ys Hys]; [intros y Hy; apply H; auto|].
  destruct b; simpl; rewrite Hys; simpl; eauto.
Qed.

Lemma input_sections_of_ok (st : store) (l : loc) :
  keys_hashable (st l) ->
  exists secs, Validate.input_sections_of st (VDict l) = Ok secs.
Proof.
  unfold keys_hashable, Validate.input_sections_of; simpl; intro Hh.
  apply comp_filter_map_ok; intros x Hx.
  rewrite forallb_forall in Hh; rewrite (Hh x Hx).
  destruct (dict_find_in_keys (st l) x Hx) as [v Hv]; rewrite Hv; simpl; eauto.
Qed.

(** The [sections] entry of a template dict is absent, or a list of dicts
    each carrying a [section] name. *)
Definition sections_wellformed (st : store) (t : loc) : Prop :=
  dict_find (st t) (VStr "sections") = None \/
  exists xs, dict_find (st t) (VStr "sections") = Some (VList xs) /\
    forall x, In x xs -> exists e n, x = VDict e /\ dict_find (st e) (VStr "section") = Some n.

Lemma mapM_ok {A B} (f : A -> result B) (xs : list A) :
  (forall x, In x xs -> exists y, f x = Ok y) -> exists ys, mapM f xs = Ok ys.
Proof.
  induction xs as [|x xs IH]; simpl; intro H; [eauto|].
  destruct (H x (or_introl eq_refl)) as [y Hy]; rewrite Hy; simpl.
  destruct IH as [ys Hys]; [intros z Hz; apply H; auto|].
  rewrite Hys; simpl; eauto.
Qed.

Lemma template_sections_of_ok (st : store) (t : loc) :
  sections_wellformed st t -> exists secs, Validate.template_sections_of st (VDict t) = Ok secs.
Proof.
  unfold Validate.template_sections_of, Validate.template_names_of; simpl.
  intros [Hn | [xs [Hs Hxs]]].
  - apply dict_find_none_iff in Hn; rewrite Hn; simpl; eauto.
  - rewrite (dict_find_some_exists _ _ _ Hs); simpl; rewrite Hs; simpl.
    apply mapM_ok; intros x Hx; destruct (Hxs x Hx) as [e [n [-> Hn]]]; simpl.
    rewrite Hn; eauto.
Qed.

(** C10: a template node without a [keywords] entry makes [validate_node]
    raise [KeyError('keywords')] (neither an [InputError] nor a
    [TemplateError]), whatever the input dict, the empty one included,
    although the listing of the template keywords handles the absence. *)
Theorem validate_node_no_keywords_key_error (fuel : nat) (st : store) (l t : loc) :
  keys_hashable (st l) ->
  dict_find (st t) (VStr "keywords") = None ->
  sections_wellformed st t ->
  Validate.template_keywords_of st (VDict t) = Ok [] /\
  Validate.validate_node (S fuel) st (VDict l) (VDict t)
  = (st, Exc (KeyError (VStr "keywords"))).
Proof.
  intros Hl Hk Hs.
  assert (Hk' := Hk); apply dict_find_none_iff in Hk'.
  split.
  { unfold Validate.template_keywords_of, Validate.template_names_of; simpl.
    rewrite Hk'; reflexivity. }
  simpl; unfold Validate.prelude.
  destruct (input_sections_of_ok st l Hl) as [secs Hsecs]; rewrite Hsecs; simpl.
  destruct (template_sections_of_ok st t Hs) as [ts Hts]; rewrite Hts; simpl.
  unfold Validate.template_keywords_of, Validate.template_names_of; simpl.
  rewrite Hk'; simpl.
  unfold Validate.keywords_no_doc_of; simpl; rewrite Hk; reflexivity.
Qed.

(** ** [==] is an equivalence: it is equality of canonical forms *)

Inductive cvalue : Type :=
| CNone
| CStr (s : string)
| CNum (re im : Q)
| CList (cs : list cvalue)
| CDict (l : loc).

Fixpoint canon (v : value) : cvalue :=
  match v with
  | VNone => CNone
  | VStr s => CStr s
  | VList vs => CList (map canon vs)
  | VDict l => CDict l
  | VBool b => CNum (Qred (if b then 1%Q else 0%Q)) (Qred 0)
  | VInt z => CNum (Qred (inject_Z z)) (Qred 0)
  | VFloat q => CNum (Qred q) (Qred 0)
  | VComplex re im => CNum (Qred re) (Qred im)
  end.

Lemma Qeq_bool_red (p q : Q) : Qeq_bool p q = true <-> Qred p = Qred q.
Proof.
  rewrite Qeq_bool_iff; split.
  - apply Qred_complete.
  - intro H; rewrite <- (Qred_correct p), <- (Qred_correct q), H; reflexivity.
Qed.

Lemma num_canon (v : value) (re im : Q) :
  num v = Some (re, im) -> canon v = CNum (Qred re) (Qred im).
Proof. destruct v; simpl; intro H; inversion H; subst; reflexivity. Qed.

Lemma num_none_canon (v : value) :
  num v = None -> forall re im, canon v <> CNum re im.
Proof.
  destruct v; simpl; intros H re' im' Hc; discriminate.
Qed.

Lemma py_eq_num (a b : value) (r1 i1 r2 i2 : Q) :
  num a = Some (r1, i1) -> num b = Some (r2, i2) ->
  py_eq a b = Qeq_bool r1 r2 && Qeq_bool i1 i2.
Proof.
  destruct a, b; simpl; intros Ha Hb; try discriminate;
    inversion Ha; inversion Hb; subst; reflexivity.
Qed.

Lemma py_eq_num_l (a b : value) (p : Q * Q) :
  num a = Some p -> num b = None -> py_eq a b = false.
Proof. destruct a, b; simpl; intros Ha Hb; try discriminate; reflexivity. Qed.

Lemma py_eq_num_r (a b : value) (p : Q * Q) :
  num a = None -> num b = Some p -> py_eq a b = false.
Proof. destruct a, b; simpl; intros Ha Hb; try discriminate; reflexivity. Qed.

Lemma py_eq_canon : forall a b, py_eq a b = true <-> canon a = canon b.
Proof.
  fix IH 1; intros a b.
  destruct (num a) as [[r1 i1]|] eqn:Ea; destruct (num b) as [[r2 i2]|] eqn:Eb.
  - rewrite (py_eq_num a b r1 i1 r2 i2 Ea Eb), (num_canon a r1 i1 Ea), (num_canon b r2 i2 Eb).
    rewrite andb_true_iff, !Qeq_bool_red; split.
    + intros [H1 H2]; rewrite H1, H2; reflexivity.
    + intro H; injection H as H1 H2; split; assumption.
  - rewrite (py_eq_num_l a b _ Ea Eb), (num_canon a r1 i1 Ea); split; intro H; [discriminate|].
    exfalso; exact (num_none_canon b Eb _ _ (eq_sym H)).
  - rewrite (py_eq_num_r a b _ Ea Eb), (num_canon b r2 i2 Eb); split; intro H; [discriminate|].
    exfalso; exact (num_none_canon a Ea _ _ H).
  - destruct a as [| b1 | z1 | q1 | r1 i1 | s1 | vs1 | l1]; try discriminate;
    destruct b as [| b2 | z2 | q2 | r2 i2 | s2 | vs2 | l2]; try discriminate;
    cbn [py_eq canon]; try (split; intro H; discriminate).
    + split; reflexivity.
    + rewrite String.eqb_eq; split; intro H; [subst | inversion H]; reflexivity.
    + clear Ea Eb; revert vs1 vs2; fix IHl 1; intros [|x xs] [|y ys]; cbn [map];
        try (split; intro H; first [reflexivity | discriminate]).
      rewrite andb_true_iff, (IH x y), (IHl xs ys); split.
      * intros [H1 H2]; rewrite H1; injection H2 as H2; rewrite H2; reflexivity.
      * intro H; injection H as H1 H2; rewrite H1, H2; split; reflexivity.
    + rewrite Nat.eqb_eq; split; intro H; [subst | inversion H]; reflexivity.
Qed.

Lemma py_eq_sym (a b : value) : py_eq a b = py_eq b a.
Proof.
  destruct (py_eq a b) eqn:E1, (py_eq b a) eqn:E2; auto.
  - apply py_eq_canon in E1; symmetry in E1; apply py_eq_canon in E1; congruence.
  - apply py_eq_canon in E2; symmetry in E2; apply py_eq_canon in E2; congruence.
Qed.

Lemma py_eq_trans (a b c : value) : py_eq a b = true -> py_eq b c = true -> py_eq a c = true.
Proof. rewrite !py_eq_canon; congruence. Qed.

Lemma py_in_list_iff (x : value) (xs : list value) :
  py_in_list x xs = true <-> exists y, In y xs /\ py_eq y x = true.
Proof. unfold py_in_list; rewrite existsb_exists; reflexivity. Qed.

Lemma py_in_list_eq (x x' : value) (xs : list value) :
  py_eq x x' = true -> py_in_list x xs = py_in_list x' xs.
Proof.
  intro H; destruct (py_in_list x xs) eqn:E1, (py_in_list x' xs) eqn:E2; auto.
  - apply py_in_list_iff in E1; destruct E1 as [y [Hy Hyx]].
    assert (py_in_list x' xs = true) by (apply py_in_list_iff; eauto using py_eq_trans).
    congruence.
  - apply py_in_list_iff in E2; destruct E2 as [y [Hy Hyx]].
    rewrite py_eq_sym in H.
    assert (py_in_list x xs = true) by (apply py_in_list_iff; eauto using py_eq_trans).
    congruence.
Qed.

Lemma dedup_incl (xs : list value) (y : value) : In y (dedup xs) -> In y xs.
Proof.
  induction xs as [|x xs IH]; simpl; [tauto|].
  intros [H | H]; [auto|]; apply filter_In in H; right; apply IH; tauto.
Qed.

Lemma dedup_cover (xs : list value) (x : value) :
  In x xs -> exists y, In y (dedup xs) /\ py_eq y x = true.
Proof.
  induction xs as [|a xs IH]; simpl; [tauto|].
  intros [-> | H].
  - exists x; split; [left; reflexivity | apply py_eq_refl].
  - destruct (IH H) as [y [Hy Hyx]].
    destruct (py_eq a y) eqn:E.
    + exists a; split; [left; reflexivity | eauto using py_eq_trans].
    + exists y; split; [right; apply filter_In; rewrite E; auto | exact Hyx].
Qed.

Lemma py_in_list_dedup (x : value) (xs : list value) :
  py_in_list x (dedup xs) = py_in_list x xs.
Proof.
  destruct (py_in_list x (dedup xs)) eqn:E1, (py_in_list x xs) eqn:E2; auto.
  - apply py_in_list_iff in E1; destruct E1 as [y [Hy Hyx]].
    assert (py_in_list x xs = true)
      by (apply py_in_list_iff; exists y; split; [apply dedup_incl|]; auto).
    congruence.
  - apply py_in_list_iff in E2; destruct E2 as [y [Hy Hyx]].
    destruct (dedup_cover xs y Hy) as [z [Hz Hzy]].
    assert (py_in_list x (dedup xs) = true)
      by (apply py_in_list_iff; exists z; split; eauto using py_eq_trans).
    congruence.
Qed.

Lemma set_difference_In (a b : list value) (y : value) :
  In y (set_difference a b) <-> In y a /\ py_in_list y b = false.
Proof.
  unfold set_difference; rewrite filter_In; destruct (py_in_list y b); simpl; intuition.
Qed.

Lemma py_set_ok (xs : list value) :
  forallb hashable xs = true -> py_set xs = Ok (dedup xs).
Proof. unfold py_set; intro H; rewrite H; reflexivity. Qed.

(** ** [validate_node] works in place *)

Lemma py_set_hashable (xs ys : list value) : py_set xs = Ok ys -> forallb hashable xs = true /\ ys = dedup xs.
Proof. unfold py_set; destruct (forallb hashable xs); intro H; [injection H as <-; auto | discriminate]. Qed.

Lemma prelude_facts (st : store) (v t : value) (l : loc) (ik ts tk : list value) :
  Validate.prelude st v t = Ok (l, ik, ts, tk) ->
  v = VDict l /\ (forall k, In k ik -> In k (dict_keys (st l))) /\
  Validate.template_keywords_of st t = Ok tk /\
  forallb hashable ik = true /\ forallb hashable tk = true.
Proof.
  unfold Validate.prelude; intro H; inv_ok H.
  injection H as <- <- <- <-.
  split; [reflexivity|].
  split; [intros k Hk; simpl in E0; injection E0 as <-; apply filter_In in Hk; tauto|].
  split; [reflexivity|].
  split; eapply py_set_hashable; eauto.
Qed.

Lemma dict_set_keys (d : dict) (k v x : value) :
  In x (dict_keys d) -> In x (dict_keys (dict_set d k v)).
Proof.
  induction d as [|[k' v'] d IH]; simpl; [tauto|].
  destruct (py_eq k' k); simpl; intuition.
Qed.

Lemma dict_set_has_key_new (d : dict) (k v : value) : has_key (dict_set d k v) k = true.
Proof.
  unfold has_key, py_in_list.
  induction d as [|[k' v'] d IH]; simpl; [rewrite py_eq_refl; reflexivity|].
  destruct (py_eq k' k) eqn:E; simpl; [rewrite E; reflexivity|].
  rewrite IH, orb_true_r; reflexivity.
Qed.

Lemma has_key_incl (d d' : dict) (x : value) :
  (forall y, In y (dict_keys d) -> In y (dict_keys d')) ->
  has_key d x = true -> has_key d' x = true.
Proof.
  unfold has_key; rewrite !py_in_list_iff; intros Hi [y [Hy Hyx]]; eauto.
Qed.

Lemma has_key_eq (d : dict) (x y : value) :
  py_eq x y = true -> has_key d x = true -> has_key d y = true.
Proof. unfold has_key; intros H; rewrite (py_in_list_eq x y _ H); auto. Qed.

Lemma keys_grow_refl (st : store) : keys_grow st st.
Proof. intros l k H; exact H. Qed.

Lemma keys_grow_trans (st1 st2 st3 : store) :
  keys_grow st1 st2 -> keys_grow st2 st3 -> keys_grow st1 st3.
Proof. intros H1 H2 l k H; auto. Qed.

Lemma dict_setitem_grow (st st' : store) (l : loc) (k v : value) :
  Validate.dict_setitem st l k v = Ok st' -> keys_grow st st' /\ has_key (st' l) k = true.
Proof.
  unfold Validate.dict_setitem; destruct (hashable k); intro H; [|discriminate].
  injection H as <-; split.
  - intros l' x Hx; unfold upd; destruct (Nat.eqb l l') eqn:E; [|exact Hx].
    apply Nat.eqb_eq in E; subst; revert Hx; apply has_key_incl, dict_set_keys.
  - unfold upd; rewrite Nat.eqb_refl; apply dict_set_has_key_new.
Qed.

Lemma fill_loop_grow (st st' : store) (l : loc) (t : value) (ks : list value) (u : unit) :
  Validate.fill_loop st l t ks = (st', Ok u) ->
  keys_grow st st' /\ forall k, In k ks -> has_key (st' l) k = true.
Proof.
  revert st; induction ks as [|k ks IH]; intros st H; cbn [Validate.fill_loop] in H.
  - injection H as <-; split; [apply keys_grow_refl | intros k []].
  - destruct (Validate.find_entry _ _ _ _ _); [|discriminate].
    destruct (py_getitem _ _ _); [|discriminate].
    destruct (Validate.dict_setitem st l k a0) as [st1|] eqn:E; [|discriminate].
    destruct (dict_setitem_grow _ _ _ _ _ E) as [G1 Hk].
    destruct (IH st1 H) as [G2 Hks]; split; [eapply keys_grow_trans; eauto|].
    intros x [<- | Hx]; auto.
Qed.

Lemma sections_loop_grow (rec : store -> value -> value -> store * result value)
    (st st' : store) (l : loc) (t : value) (secs : list value) (u : unit) :
  (forall st0 st1 v t0 r, rec st0 v t0 = (st1, Ok r) -> keys_grow st0 st1) ->
  Validate.sections_loop rec st l t secs = (st', Ok u) -> keys_grow st st'.
Proof.
  intro Hrec; revert st; induction secs as [|s secs IH]; intros st H;
    cbn [Validate.sections_loop] in H.
  - injection H as <-; apply keys_grow_refl.
  - destruct (py_getitem _ _ _); [|discriminate].
    destruct (Validate.find_entry _ _ _ _ _); [|discriminate].
    destruct (rec st a a0) as [st1 [r|e]] eqn:E; [|discriminate].
    destruct (Validate.dict_setitem st1 l s r) as [st2|] eqn:E2; [|discriminate].
    eapply keys_grow_trans; [eapply Hrec; eauto|].
    eapply keys_grow_trans; [apply (dict_setitem_grow _ _ _ _ _ E2)|]; auto.
Qed.

Lemma validate_node_grow (fuel : nat) :
  forall st st' v t r, Validate.validate_node fuel st v t = (st', Ok r) ->
  keys_grow st st' /\ r = v.
Proof.
  induction fuel as [|f IH]; intros st st' v t r H; simpl in H; [discriminate|].
  destruct (Validate.prelude st v t) as [[[[l ik] ts] tk]|] eqn:Ep; [|discriminate].
  destruct (prelude_facts _ _ _ _ _ _ _ Ep) as [-> _].
  destruct (Validate.fill_defaults st l t tk ik) as [st1 [u|]] eqn:Ef; [|discriminate].
  destruct (Validate.sections_loop (Validate.validate_node f) st1 l t ts) as [st2 [u'|]] eqn:Es;
    [|discriminate].
  injection H as <- <-; split; [|reflexivity].
  eapply keys_grow_trans.
  - unfold Validate.fill_defaults in Ef.
    destruct (py_set tk); [|discriminate]; destruct (py_set ik); [|discriminate].
    apply (fill_loop_grow _ _ _ _ _ _ Ef).
  - apply (sections_loop_grow _ _ _ _ _ _ _ (fun a b c d e H => proj1 (IH a b c d e H)) Es).
Qed.

(** C2 (amended): [validate_node] does not produce a fresh tree, it works in
    place: on success the merged tree it returns is the caller's input dict
    object itself, no dict of the store loses a key, and every template
    keyword is now a key of the input dict (given in the input or filled in
    from its default). *)
Theorem validate_node_in_place (fuel : nat) (st st' : store) (l : loc) (t r : value) :
  Validate.validate_node fuel st (VDict l) t = (st', Ok r) ->
  r = VDict l /\ keys_grow st st' /\
  (forall tk, Validate.template_keywords_of st t = Ok tk ->
     forall k, In k tk -> has_key (st' l) k = true).
Proof.
  intro H; destruct (validate_node_grow _ _ _ _ _ _ H) as [G Hr].
  split; [exact Hr|]; split; [exact G|].
  intros tk Htk k Hk.
  destruct fuel as [|f]; simpl in H; [discriminate|].
  destruct (Validate.prelude st (VDict l) t) as [[[[l' ik] ts] tk']|] eqn:Ep; [|discriminate].
  destruct (prelude_facts _ _ _ _ _ _ _ Ep) as [Hl [Hik [Htk' _]]].
  injection Hl as <-; rewrite Htk in Htk'; injection Htk' as <-.
  destruct (Validate.fill_defaults st l t tk ik) as [st1 [u|]] eqn:Ef; [|discriminate].
  destruct (Validate.sections_loop (Validate.validate_node f) st1 l t ts) as [st2 [u'|]] eqn:Es;
    [|discriminate].
  injection H as <- _.
  assert (G2 : keys_grow st1 st2)
    by (apply (sections_loop_grow _ _ _ _ _ _ _
                 (fun a b c d e H => proj1 (validate_node_grow f a b c d e H)) Es)).
  apply G2.
  unfold Validate.fill_defaults in Ef.
  destruct (py_set tk) as [tkd|] eqn:Etk; [|discriminate].
  destruct (py_set ik) as [ikd|] eqn:Eik; [|discriminate].
  apply py_set_hashable in Etk; destruct Etk as [_ ->].
  apply py_set_hashable in Eik; destruct Eik as [_ ->].
  destruct (fill_loop_grow _ _ _ _ _ _ Ef) as [G1 Hfill].
  destruct (dedup_cover tk k Hk) as [y [Hy Hyk]].
  destruct (py_in_list y (dedup ik)) eqn:Ey.
  - apply G1.
    rewrite py_in_list_dedup in Ey; apply py_in_list_iff in Ey; destruct Ey as [z [Hz Hzy]].
    unfold has_key; apply py_in_list_iff; exists z; split; [apply Hik; exact Hz|].
    eapply py_eq_trans; eauto.
  - apply (has_key_eq _ y); [exact Hyk|].
    apply Hfill, set_difference_In; split; assumption.
Qed.

Lemma validate_node_in_place_witness :
  let st' := fst run_default in
  Validate.validate_node Validate.recursion_limit store_default (VDict 1) (VDict 2)
    = (st', Ok (VDict 1)) /\
  (VDict 1 = VDict 1 /\ keys_grow store_default st' /\
   (forall tk, Validate.template_keywords_of store_default (VDict 2) = Ok tk ->
      forall k, In k tk -> has_key (st' 1) k = true)).
Proof.
  intro st'.
  assert (H : Validate.validate_node Validate.recursion_limit store_default (VDict 1) (VDict 2)
              = (st', Ok (VDict 1))) by (vm_compute; reflexivity).
  split; [exact H | exact (validate_node_in_place _ _ _ _ _ _ H)].
Defined.

(** C2 (counterexample): on the input [{}] and a template whose keyword [n]
    defaults to [0], [validate_node] returns the caller's input dict object
    itself (no fresh tree), and that object has been changed from [{}] to
    [{'n': 0}]. *)
Lemma validate_node_mutates_input :
  snd run_default = Ok (VDict 1) /\
  store_default 1 = [] /\ fst run_default 1 = [(VStr "n", VInt 0)].
Proof. vm_compute; split; [reflexivity | split; reflexivity]. Qed.

(** ** [validate_node] stops at the first failing step *)

Lemma comp_filter_map_filter (cond : value -> result bool) (p : value -> bool) (xs : list value) :
  (forall x, In x xs -> cond x = Ok (p x)) ->
  Validate.comp_filter_map cond (fun x => Ok x) xs = Ok (filter p xs).
Proof.
  induction xs as [|x xs IH]; simpl; intro H; [reflexivity|].
  rewrite (H x (or_introl eq_refl)); simpl.
  rewrite IH by (intros y Hy; apply H; auto).
  destruct (p x); reflexivity.
Qed.

Lemma comp_filter_map_none (cond : value -> result bool) (f : value -> result value)
    (xs : list value) :
  (forall x, In x xs -> cond x = Ok false) -> Validate.comp_filter_map cond f xs = Ok [].
Proof.
  induction xs as [|x xs IH]; simpl; intro H; [reflexivity|].
  rewrite (H x (or_introl eq_refl)); simpl; apply IH; auto.
Qed.

Lemma dict_find_eq (d : dict) (x y : value) :
  py_eq x y = true -> dict_find d x = dict_find d y.
Proof.
  intro H; induction d as [|[k v] d IH]; simpl; [reflexivity|].
  rewrite IH; destruct (py_eq k x) eqn:E1, (py_eq k y) eqn:E2; auto.
  - rewrite (py_eq_trans _ _ _ E1 H) in E2; discriminate.
  - rewrite py_eq_sym in H; rewrite (py_eq_trans _ _ _ E2 H) in E1; discriminate.
Qed.

Lemma input_sections_of_eq (st : store) (l : loc) :
  keys_hashable (st l) ->
  Validate.input_sections_of st (VDict l)
  = Ok (filter (is_section_key (st l)) (dict_keys (st l))).
Proof.
  unfold keys_hashable, Validate.input_sections_of; cbn [py_iter rbind]; intro Hh.
  apply comp_filter_map_filter; intros x Hx.
  unfold py_getitem, is_section_key; rewrite forallb_forall in Hh; rewrite (Hh x Hx).
  destruct (dict_find_in_keys (st l) x Hx) as [v Hv]; rewrite Hv; reflexivity.
Qed.

Lemma input_keywords_of_eq (st : store) (l : loc) :
  Validate.input_keywords_of st (VDict l) (filter (is_section_key (st l)) (dict_keys (st l)))
  = Ok (filter (fun k => negb (is_section_key (st l) k)) (dict_keys (st l))).
Proof.
  cbn [Validate.input_keywords_of]; f_equal; apply filter_ext_in; intros k Hk; f_equal.
  destruct (is_section_key (st l) k) eqn:E.
  - apply py_in_list_iff; exists k; split; [apply filter_In; auto | apply py_eq_refl].
  - destruct (py_in_list k _) eqn:E'; [|reflexivity].
    apply py_in_list_iff in E'; destruct E' as [y [Hy Hyk]]; apply filter_In in Hy.
    unfold is_section_key in *; rewrite (dict_find_eq _ _ _ Hyk) in Hy.
    destruct Hy as [_ Hy]; congruence.
Qed.

Lemma input_keyword_iff (st : store) (l : loc) (k : value) :
  input_keyword st l k <->
  In k (filter (fun k => negb (is_section_key (st l) k)) (dict_keys (st l))).
Proof.
  rewrite filter_In; unfold input_keyword, is_section_key; split.
  - intros [Hk [v [Hv Ht]]]; rewrite Hv; split; [exact Hk|].
    destruct (String.eqb (type_name v) "dict") eqn:E; [apply String.eqb_eq in E; congruence|].
    reflexivity.
  - intros [Hk Hn]; split; [exact Hk|].
    destruct (dict_find_in_keys _ _ Hk) as [v Hv]; rewrite Hv in Hn; exists v; split; [exact Hv|].
    intro E; rewrite E in Hn; discriminate.
Qed.

Lemma mapM_In {A B} (f : A -> result B) (xs : list A) (ys : list B) (y : B) :
  mapM f xs = Ok ys -> In y ys -> exists x, In x xs /\ f x = Ok y.
Proof.
  revert ys; induction xs as [|x xs IH]; simpl; intros ys H Hy.
  - injection H as <-; contradiction.
  - destruct (f x) as [b|] eqn:Ef; [|discriminate]; cbn [rbind] in H.
    destruct (mapM f xs) as [bs|] eqn:Em; [|discriminate]; cbn [rbind] in H.
    injection H as <-; destruct Hy as [<- | Hy]; [eauto|].
    destruct (IH bs eq_refl Hy) as [x' [Hx' Hf]]; eauto.
Qed.

Lemma documented_keyword (st : store) (x : value) :
  documented_entry st x -> exists n, py_getitem st x (VStr "keyword") = Ok n /\ hashable n = true.
Proof.
  intros [e [n [d [-> [Hn [Hh _]]]]]]; exists n; cbn [py_getitem hashable]; rewrite Hn; auto.
Qed.

Lemma template_keywords_hashable (st : store) (t : loc) (xs tk : list value) :
  dict_find (st t) (VStr "keywords") = Some (VList xs) ->
  (forall x, In x xs -> documented_entry st x) ->
  Validate.template_keywords_of st (VDict t) = Ok tk -> forallb hashable tk = true.
Proof.
  intros Hk Hdoc Htk; unfold Validate.template_keywords_of, Validate.template_names_of in Htk.
  cbn [py_contains hashable] in Htk; rewrite (dict_find_some_exists _ _ _ Hk) in Htk.
  cbn [rbind py_getitem hashable] in Htk; rewrite Hk in Htk; cbn [rbind] in Htk.
  unfold Validate.names_of in Htk; cbn [py_iter rbind] in Htk.
  apply forallb_forall; intros n Hn.
  destruct (mapM_In _ _ _ _ Htk Hn) as [x [Hx Hf]].
  destruct (documented_keyword st x (Hdoc x Hx)) as [n' [Hn' Hh]]; congruence.
Qed.

Lemma keywords_no_doc_of_nil (st : store) (t : loc) (xs : list value) :
  dict_find (st t) (VStr "keywords") = Some (VList xs) ->
  (forall x, In x xs -> documented_entry st x) ->
  Validate.keywords_no_doc_of st (VDict t) = Ok [].
Proof.
  intros Hk Hdoc; unfold Validate.keywords_no_doc_of; cbn [py_getitem hashable].
  rewrite Hk; cbn [rbind py_iter]; apply comp_filter_map_none; intros x Hx.
  destruct (Hdoc x Hx) as [e [n [d [-> [_ [_ [Hd Hs]]]]]]].
  cbn [py_contains hashable]; rewrite (dict_find_some_exists _ _ _ Hd); cbn [rbind negb].
  cbn [py_getitem hashable]; rewrite Hd; cbn [rbind py_strip py_eq].
  destruct (String.eqb (strip d) "") eqn:E; [apply String.eqb_eq in E; contradiction|].
  reflexivity.
Qed.

(** C3 (amended): [validate_node] does not aggregate errors: it raises at
    the first failing step.  When the input node has keywords the template
    does not declare (its keyword entries being documented), the call
    raises one [InputError] for the unexpected keywords of this node,
    listing all of them (up to [==]) and nothing else: no store update
    happens, and a missing required keyword or a wrong type elsewhere is
    not reported. *)
Theorem validate_node_first_error (fuel : nat) (st : store) (l t : loc) (xs tk : list value) :
  keys_hashable (st l) ->
  dict_find (st t) (VStr "keywords") = Some (VList xs) ->
  (forall x, In x xs -> documented_entry st x) ->
  sections_wellformed st t ->
  Validate.template_keywords_of st (VDict t) = Ok tk ->
  (exists k, input_keyword st l k /\ py_in_list k tk = false) ->
  exists U,
    Validate.validate_node (S fuel) st (VDict l) (VDict t)
      = (st, Exc (InputError [PLit "found unexpected keyword(s): "; PSet U])) /\
    (forall y, In y U -> input_keyword st l y /\ py_in_list y tk = false) /\
    (forall k, input_keyword st l k -> py_in_list k tk = false ->
       exists y, In y U /\ py_eq y k = true).
Proof.
  intros Hl Hk Hdoc Hs Htk [k0 [Hk0 Hk0']].
  set (ik := filter (fun k => negb (is_section_key (st l) k)) (dict_keys (st l))).
  assert (Hik : forall k, input_keyword st l k <-> In k ik) by (intro k; apply input_keyword_iff).
  assert (Hikh : forallb hashable ik = true).
  { apply forallb_forall; intros k Hk'; apply filter_In in Hk'.
    unfold keys_hashable in Hl; rewrite forallb_forall in Hl; apply Hl; tauto. }
  assert (Hsd : forall y, In y (set_difference (dedup ik) (dedup tk)) <->
                  In y (dedup ik) /\ py_in_list y tk = false).
  { intro y; rewrite set_difference_In, py_in_list_dedup; reflexivity. }
  assert (Hcov : forall k, input_keyword st l k -> py_in_list k tk = false ->
                   exists y, In y (set_difference (dedup ik) (dedup tk)) /\ py_eq y k = true).
  { intros k Hk1 Hk2; apply Hik in Hk1; destruct (dedup_cover ik k Hk1) as [y [Hy Hyk]].
    exists y; split; [|exact Hyk]; apply Hsd; split; [exact Hy|].
    rewrite (py_in_list_eq y k tk Hyk); exact Hk2. }
  destruct (set_difference (dedup ik) (dedup tk)) as [|u us] eqn:EU.
  { destruct (Hcov k0 Hk0 Hk0') as [y [[] _]]. }
  exists (u :: us); split; [|split].
  - cbn [Validate.validate_node]; unfold Validate.prelude.
    rewrite (input_sections_of_eq st l Hl); cbn [rbind].
    rewrite input_keywords_of_eq; cbn [rbind].
    destruct (template_sections_of_ok st t Hs) as [ts Hts]; rewrite Hts; cbn [rbind].
    rewrite Htk; cbn [rbind].
    rewrite (keywords_no_doc_of_nil st t xs Hk Hdoc); cbn [rbind].
    fold ik; rewrite (py_set_ok ik Hikh); cbn [rbind].
    rewrite (py_set_ok tk (template_keywords_hashable st t xs tk Hk Hdoc Htk)); cbn [rbind].
    rewrite EU; reflexivity.
  - intros y Hy; apply Hsd in Hy; destruct Hy as [Hy1 Hy2].
    split; [apply Hik, dedup_incl, Hy1 | exact Hy2].
  - intros k Hk1 Hk2; apply Hcov; assumption.
Qed.

Lemma validate_node_first_error_witness :
  exists U,
    Validate.validate_node (S 999) store_two_unexpected (VDict 1) (VDict 2)
      = (store_two_unexpected, Exc (InputError [PLit "found unexpected keyword(s): "; PSet U])) /\
    (forall y, In y U -> input_keyword store_two_unexpected 1 y /\ py_in_list y [VStr "a"] = false) /\
    (forall k, input_keyword store_two_unexpected 1 k -> py_in_list k [VStr "a"] = false ->
       exists y, In y U /\ py_eq y k = true).
Proof.
  apply (validate_node_first_error 999 store_two_unexpected 1 2 [VDict 3] [VStr "a"]).
  - vm_compute; reflexivity.
  - vm_compute; reflexivity.
  - intros x [<- | []]; exists 3, (VStr "a"), "doc".
    split; [reflexivity|]; split; [reflexivity|]; split; [reflexivity|].
    split; [reflexivity | vm_compute; discriminate].
  - left; vm_compute; reflexivity.
  - vm_compute; reflexivity.
  - exists (VStr "x"); split; [|vm_compute; reflexivity].
    split; [simpl; left; reflexivity|].
    exists (VInt 1); split; [vm_compute; reflexivity | discriminate].
Defined.

(** C3 (counterexample): on the input [{'x': 1}] against a template whose
    only keyword [a] is required, the input has an unexpected keyword and
    misses a required one, yet [validate_node] raises a single
    [InputError] naming [x] only. *)
Lemma validate_node_single_error :
  Validate.validate_node Validate.recursion_limit store_unexpected (VDict 1) (VDict 2)
  = (store_unexpected,
     Exc (InputError [PLit "found unexpected keyword(s): "; PSet [VStr "x"]])) /\
  Validate.keywords_no_default_of store_unexpected (VDict 2) = Ok [VStr "a"] /\
  has_key (store_unexpected 1) (VStr "a") = false.
Proof. split; [|split]; vm_compute; reflexivity. Qed.

(** ** Errors of [validate_node] outside its documented ones *)

(** C5 (failing input): a template section [s] absent from the input node
    is not validated as an empty mapping: [input_dict[section]] raises
    [KeyError('s')], which is neither of the documented [InputError] and
    [TemplateError]. *)
Theorem validate_node_missing_section_key_error :
  Validate.validate_node Validate.recursion_limit store_missing_section (VDict 1) (VDict 2)
  = (store_missing_section, Exc (KeyError (VStr "s"))).
Proof. vm_compute; reflexivity. Qed.

(** C6 (failing input): for the input [{'n': '5'}] against the keyword [n]
    of type [int], the type mismatch is reported as
    ["incorrect type for keyword: n, expected 'int' type"]: the declared
    type is named, the actual type [str] is not (the sibling
    [rec_typenade] of [types.py] names both); the input is left as it
    was. *)
Theorem validate_node_type_error_omits_actual_type :
  let m := [PLit "incorrect type for keyword: "; PStr (VStr "n"); PLit ", expected '";
            PStr (VStr "int"); PLit "' type"] in
  Validate.validate_node Validate.recursion_limit store_mistyped (VDict 1) (VDict 2)
    = (store_mistyped, Exc (InputError m)) /\
  render m = Some "incorrect type for keyword: n, expected 'int' type" /\
  type_name (VStr "5") = "str" /\
  str_contains "incorrect type for keyword: n, expected 'int' type" "str" = false /\
  store_mistyped 1 = [(VStr "n", VStr "5")].
Proof. intro m; split; [vm_compute; reflexivity|]; repeat split; vm_compute; reflexivity. Qed.

Lemma validate_node_no_keywords_key_error_witness :
  Validate.template_keywords_of store_no_keywords (VDict 2) = Ok [] /\
  Validate.validate_node (S 999) store_no_keywords (VDict 1) (VDict 2)
  = (store_no_keywords, Exc (KeyError (VStr "keywords"))).
Proof.
  apply (validate_node_no_keywords_key_error 999 store_no_keywords 1 2).
  - vm_compute; reflexivity.
  - vm_compute; reflexivity.
  - right; exists []; split; [vm_compute; reflexivity | intros x []].
Defined.

(** ** How a failing predicate is reported *)

Section PredicateErrors.

Variable py_eval : store -> pred_frame -> store * result value.

Lemma predicate_loop_app (st : store) (ke : Predicates.kw_env) (r : option value)
    (pre post : list value) :
  Predicates.predicate_loop py_eval st ke r (app pre post) =
  match Predicates.predicate_loop py_eval st ke r pre with
  | (st1, Ok r1) => Predicates.predicate_loop py_eval st1 ke r1 post
  | (st1, Exc e) => (st1, Exc e)
  end.
Proof.
  revert st r; induction pre as [|p pre IH]; intros st r; [reflexivity|].
  cbn [app Predicates.predicate_loop].
  destruct (py_eval st (Predicates.frame_of ke p r)) as [st1 [v|e]].
  - destruct (negb (truthy st1 v)); [reflexivity | apply IH].
  - destruct e; reflexivity.
Qed.

Lemma keywords_loop_app (st : store) (d n t : value) (is ik ts : list value) (c : carry)
    (ks1 ks2 : list value) :
  Predicates.keywords_loop py_eval st d n t is ik ts c (app ks1 ks2) =
  match Predicates.keywords_loop py_eval st d n t is ik ts c ks1 with
  | (st1, Ok c1) => Predicates.keywords_loop py_eval st1 d n t is ik ts c1 ks2
  | (st1, Exc e) => (st1, Exc e)
  end.
Proof.
  revert st c; induction ks1 as [|k ks1 IH]; intros st c; [reflexivity|].
  cbn [app Predicates.keywords_loop].
  destruct (Predicates.check_keyword py_eval st d n t is ik ts c k) as [st1 [c1|e]];
    [apply IH | reflexivity].
Qed.

(** C9: in [check_predicates_node], take the first predicate [p] of an
    input keyword [k] whose evaluation does not succeed with a true value
    (the earlier keywords and the earlier predicates of [k] having passed).
    If [eval(p)] returns a false value, the call fails with an [InputError]
    whose message names [p] and [k]; if it raises [SyntaxError], with a
    [TemplateError]; if it raises any other exception (a [NameError] for
    instance), that very exception propagates, neither an [InputError] nor
    a [TemplateError]. *)
Theorem check_predicates_node_predicate_errors (f : nat) (st st0 st1 st2 : store)
    (input_dict node tnode tk v ps p k : value) (is ks1 ks2 ts pre post : list value)
    (c0 c1 : carry) (res : result value) :
  let ke := {| Predicates.k_input_dict := input_dict;
               Predicates.k_input_dict_node := node;
               Predicates.k_template_dict_node := tnode;
               Predicates.k_input_sections := is;
               Predicates.k_input_keywords := app ks1 (k :: ks2);
               Predicates.k_template_sections := ts;
               Predicates.k_keyword := k;
               Predicates.k_template_keyword := tk;
               Predicates.k_value := v |} in
  Validate.input_sections_of st node = Ok is ->
  Validate.input_keywords_of st node is = Ok (app ks1 (k :: ks2)) ->
  Validate.template_sections_of st tnode = Ok ts ->
  Predicates.keywords_loop py_eval st input_dict node tnode is (app ks1 (k :: ks2)) ts None ks1
    = (st0, Ok c0) ->
  Validate.find_entry st0 tnode "keywords" "keyword" k = Ok tk ->
  py_getitem st0 node k = Ok v ->
  py_contains st0 tk (VStr "predicates") = Ok true ->
  py_getitem st0 tk (VStr "predicates") = Ok ps ->
  py_iter st0 ps = Ok (app pre (p :: post)) ->
  Predicates.predicate_loop py_eval st0 ke c0 pre = (st1, Ok c1) ->
  py_eval st1 (Predicates.frame_of ke p c1) = (st2, res) ->
  let run := Predicates.check_predicates_node py_eval (S f) st input_dict node tnode in
  (forall r, res = Ok r -> truthy st2 r = false ->
     run = (st2, Exc (InputError (Predicates.failed_msg p k)))) /\
  (res = Exc SyntaxError -> run = (st2, Exc (TemplateError (Predicates.syntax_error_msg p k)))) /\
  (forall e, res = Exc e -> e <> SyntaxError -> run = (st2, Exc e)).
Proof.
  intros ke H1 H2 H3 H4 H5 H6 H7 H8 H9 H10 H11 run.
  assert (Hk : Predicates.keywords_loop py_eval st input_dict node tnode is (app ks1 (k :: ks2)) ts
                 None (app ks1 (k :: ks2)) =
               match Predicates.predicate_loop py_eval st1 ke c1 (p :: post) with
               | (st', Ok c') => Predicates.keywords_loop py_eval st' input_dict node tnode is
                                   (app ks1 (k :: ks2)) ts c' ks2
               | (st', Exc e) => (st', Exc e)
               end).
  { rewrite keywords_loop_app, H4; cbn [Predicates.keywords_loop].
    unfold Predicates.check_keyword; rewrite H5, H6, H7, H8, H9.
    fold ke; rewrite predicate_loop_app, H10.
    destruct (Predicates.predicate_loop py_eval st1 ke c1 (p :: post)) as [st' [c'|e]];
      reflexivity. }
  cbn [Predicates.predicate_loop] in Hk; rewrite H11 in Hk.
  unfold run; cbn [Predicates.check_predicates_node]; rewrite H1, H2, H3, Hk.
  split; [|split].
  - intros r -> Hr; rewrite Hr; reflexivity.
  - intros ->; reflexivity.
  - intros e -> He; destruct e; try reflexivity; contradiction.
Qed.

End PredicateErrors.

Lemma check_predicates_node_predicate_errors_witness :
  Predicates.check_predicates_node toy_eval 1 store_predicates (VDict 1) (VDict 1) (VDict 2)
  = (store_predicates, Exc (NameError "undefined_name")).
Proof.
  assert (H := check_predicates_node_predicate_errors toy_eval 0
                 store_predicates store_predicates store_predicates store_predicates
                 (VDict 1) (VDict 1) (VDict 2) (VDict 3) (VInt 5)
                 (VList [VStr "value > 0"; VStr "undefined_name"])
                 (VStr "undefined_name") (VStr "n") [] [] [] [] [VStr "value > 0"] []
                 None (Some (VBool true)) (Exc (NameError "undefined_name"))).
  cbv zeta in H.
  destruct H as [_ [_ H]].
  all: match goal with
       | |- Predicates.check_predicates_node _ _ _ _ _ _ = _ =>
           apply H; [reflexivity | discriminate]
       | |- _ => vm_compute; reflexivity
       end.
Defined.

(** ** Reads of the template depend only on what it reaches *)

Lemma reaches_agree (st st' : store) (v : value) :
  (forall x, reaches st v x -> st' x = st x) ->
  forall x, reaches st' v x <-> reaches st v x.
Proof.
  intros H x; split; intro R.
  - assert (Hsub : forall u, (forall y, reaches st u y -> reaches st v y) ->
                     reaches st' u x -> reaches st u x).
    { clear R; intros u Hu R; induction R as [l|l k w y Hin R IH|l k w y Hin R IH|vs w y Hin R IH].
      - constructor.
      - assert (E : st' l = st l) by (apply H, Hu, reaches_here).
        rewrite E in Hin; eapply reaches_key; [exact Hin|].
        apply IH; intros z Hz; apply Hu; eapply reaches_key; eauto.
      - assert (E : st' l = st l) by (apply H, Hu, reaches_here).
        rewrite E in Hin; eapply reaches_value; [exact Hin|].
        apply IH; intros z Hz; apply Hu; eapply reaches_value; eauto.
      - eapply reaches_item; [exact Hin|].
        apply IH; intros z Hz; apply Hu; eapply reaches_item; eauto. }
    exact (Hsub v (fun y Hy => Hy) R).
  - assert (Hsub : forall u, (forall y, reaches st u y -> reaches st v y) ->
                     reaches st u x -> reaches st' u x).
    { clear R; intros u Hu R; induction R as [l|l k w y Hin R IH|l k w y Hin R IH|vs w y Hin R IH].
      - constructor.
      - assert (E : st' l = st l) by (apply H, Hu, reaches_here).
        eapply reaches_key; [rewrite E; exact Hin|].
        apply IH; intros z Hz; apply Hu; eapply reaches_key; eauto.
      - assert (E : st' l = st l) by (apply H, Hu, reaches_here).
        eapply reaches_value; [rewrite E; exact Hin|].
        apply IH; intros z Hz; apply Hu; eapply reaches_value; eauto.
      - eapply reaches_item; [exact Hin|].
        apply IH; intros z Hz; apply Hu; eapply reaches_item; eauto. }
    exact (Hsub v (fun y Hy => Hy) R).
Qed.

Lemma reaches_str (st : store) (s : string) (x : loc) : ~ reaches st (VStr s) x.
Proof. intro R; inversion R. Qed.

Lemma py_index_In {A} (xs : list A) (i : Z) (w : A) : py_index xs i = Some w -> In w xs.
Proof.
  unfold py_index; destruct (_ || _)%Z; [discriminate|]; apply nth_error_In.
Qed.

Lemma chars_str (s : string) (w : value) : In w (chars s) -> exists c, w = VStr c.
Proof. unfold chars; rewrite in_map_iff; intros [c [<- _]]; eauto. Qed.

Lemma dict_find_In (d : dict) (k w : value) : dict_find d k = Some w -> exists k', In (k', w) d.
Proof.
  induction d as [|[k' v'] d IH]; simpl; [discriminate|].
  destruct (py_eq k' k); [intro H; injection H as <-; eauto|].
  intro H; destruct (IH H) as [k'' Hk]; eauto.
Qed.

Lemma py_getitem_agree (st st' : store) (c k : value) :
  (forall x, reaches st c x -> st' x = st x) -> py_getitem st' c k = py_getitem st c k.
Proof. intro H; destruct c; try reflexivity; cbn [py_getitem]; rewrite (H l (reaches_here st l)); reflexivity. Qed.

Lemma py_contains_agree (st st' : store) (c k : value) :
  (forall x, reaches st c x -> st' x = st x) -> py_contains st' c k = py_contains st c k.
Proof. intro H; destruct c; try reflexivity; cbn [py_contains]; rewrite (H l (reaches_here st l)); reflexivity. Qed.

Lemma py_iter_agree (st st' : store) (c : value) :
  (forall x, reaches st c x -> st' x = st x) -> py_iter st' c = py_iter st c.
Proof. intro H; destruct c; try reflexivity; cbn [py_iter]; rewrite (H l (reaches_here st l)); reflexivity. Qed.

Lemma py_getitem_reach (st : store) (c k w : value) :
  py_getitem st c k = Ok w -> forall x, reaches st w x -> reaches st c x.
Proof.
  intros H x R; destruct c; cbn [py_getitem] in H; try discriminate.
  - destruct (int_index k); [|discriminate].
    destruct (py_index (chars s) z) eqn:E; [|discriminate]; injection H as <-.
    apply py_index_In, chars_str in E; destruct E as [c ->]; exfalso; exact (reaches_str _ _ _ R).
  - destruct (int_index k); [|discriminate].
    destruct (py_index vs z) eqn:E; [|discriminate]; injection H as <-.
    eapply reaches_item; [eapply py_index_In; eauto | exact R].
  - destruct (hashable k); [|discriminate].
    destruct (dict_find (st l) k) eqn:E; [|discriminate]; injection H as <-.
    destruct (dict_find_In _ _ _ E) as [k' Hk']; eapply reaches_value; eauto.
Qed.

Lemma py_iter_reach (st : store) (c : value) (xs : list value) (w : value) :
  py_iter st c = Ok xs -> In w xs -> forall x, reaches st w x -> reaches st c x.
Proof.
  intros H Hw x R; destruct c; cbn [py_iter] in H; try discriminate; injection H as <-.
  - apply chars_str in Hw; destruct Hw as [c ->]; exfalso; exact (reaches_str _ _ _ R).
  - eapply reaches_item; eauto.
  - unfold dict_keys in Hw; apply in_map_iff in Hw; destruct Hw as [[k v] [<- Hin]].
    eapply reaches_key; eauto.
Qed.

Lemma mapM_ext_in {A B} (f g : A -> result B) (xs : list A) :
  (forall x, In x xs -> f x = g x) -> mapM f xs = mapM g xs.
Proof.
  induction xs as [|x xs IH]; simpl; intro H; [reflexivity|].
  rewrite (H x (or_introl eq_refl)), IH by auto; reflexivity.
Qed.

Lemma filterM_ext_in {A} (f g : A -> result bool) (xs : list A) :
  (forall x, In x xs -> f x = g x) -> filterM f xs = filterM g xs.
Proof.
  induction xs as [|x xs IH]; simpl; intro H; [reflexivity|].
  rewrite (H x (or_introl eq_refl)), IH by auto; reflexivity.
Qed.

Lemma comp_filter_map_ext_in (c1 c2 : value -> result bool) (f1 f2 : value -> result value)
    (xs : list value) :
  (forall x, In x xs -> c1 x = c2 x /\ f1 x = f2 x) ->
  Validate.comp_filter_map c1 f1 xs = Validate.comp_filter_map c2 f2 xs.
Proof.
  induction xs as [|x xs IH]; simpl; intro H; [reflexivity|].
  destruct (H x (or_introl eq_refl)) as [E1 E2]; rewrite E1, E2, IH by auto; reflexivity.
Qed.

Lemma filterM_incl {A} (f : A -> result bool) (xs ys : list A) (y : A) :
  filterM f xs = Ok ys -> In y ys -> In y xs.
Proof.
  revert ys; induction xs as [|x xs IH]; simpl; intros ys H Hy.
  - injection H as <-; contradiction.
  - destruct (f x) as [b|]; [|discriminate]; cbn [rbind] in H.
    destruct (filterM f xs) as [zs|]; [|discriminate]; cbn [rbind] in H.
    injection H as <-; destruct b; [destruct Hy as [<- | Hy]; [left; reflexivity|]|];
      right; eapply IH; eauto.
Qed.

Lemma agree_sub (st st' : store) (u v : value) :
  (forall x, reaches st u x -> reaches st v x) ->
  (forall x, reaches st v x -> st' x = st x) -> (forall x, reaches st u x -> st' x = st x).
Proof. intros Hs H x R; apply H, Hs, R. Qed.

Lemma find_entry_agree (st st' : store) (tv : value) (key field : string) (name : value) :
  (forall x, reaches st tv x -> st' x = st x) ->
  Validate.find_entry st' tv key field name = Validate.find_entry st tv key field name.
Proof.
  intro H; unfold Validate.find_entry; rewrite (py_getitem_agree st st' tv _ H).
  destruct (py_getitem st tv (VStr key)) as [es|] eqn:E; cbn [rbind]; [|reflexivity].
  assert (Hes := agree_sub st st' es tv (py_getitem_reach st tv _ es E) H).
  rewrite (py_iter_agree st st' es Hes).
  destruct (py_iter st es) as [xs|] eqn:E2; cbn [rbind]; [|reflexivity].
  rewrite (filterM_ext_in _ (fun x => n <- py_getitem st x (VStr field) ;; Ok (py_eq n name)));
    [reflexivity|].
  intros x Hx; rewrite (py_getitem_agree st st' x); [reflexivity|].
  apply (agree_sub st st' x es); [apply (py_iter_reach st es xs x E2 Hx) | exact Hes].
Qed.

Lemma find_entry_reach (st : store) (tv : value) (key field : string) (name e : value) :
  Validate.find_entry st tv key field name = Ok e -> forall x, reaches st e x -> reaches st tv x.
Proof.
  unfold Validate.find_entry; intro H.
  destruct (py_getitem st tv (VStr key)) as [es|] eqn:E; cbn [rbind] in H; [|discriminate].
  destruct (py_iter st es) as [xs|] eqn:E2; cbn [rbind] in H; [|discriminate].
  destruct (filterM _ xs) as [ys|] eqn:E3; cbn [rbind] in H; [|discriminate].
  destruct ys as [|y ys]; cbn [first] in H; [discriminate|]; injection H as ->.
  intros x R; eapply py_getitem_reach; [exact E|].
  eapply py_iter_reach; [exact E2| |exact R].
  eapply filterM_incl; [exact E3 | left; reflexivity].
Qed.

Lemma py_eq_compat (a b x : value) : py_eq a b = true -> py_eq x a = py_eq x b.
Proof.
  intro H; destruct (py_eq x a) eqn:E1, (py_eq x b) eqn:E2; auto.
  - rewrite (py_eq_trans _ _ _ E1 H) in E2; discriminate.
  - rewrite py_eq_sym in H; rewrite (py_eq_trans _ _ _ E2 H) in E1; discriminate.
Qed.

Lemma find_entry_eq (st : store) (tv : value) (key field : string) (n1 n2 : value) :
  py_eq n1 n2 = true ->
  Validate.find_entry st tv key field n1 = Validate.find_entry st tv key field n2.
Proof.
  intro H; unfold Validate.find_entry.
  destruct (py_getitem st tv (VStr key)) as [es|]; cbn [rbind]; [|reflexivity].
  destruct (py_iter st es) as [xs|]; cbn [rbind]; [|reflexivity].
  rewrite (filterM_ext_in _ (fun x => n <- py_getitem st x (VStr field) ;; Ok (py_eq n n2)));
    [reflexivity|].
  intros x _; destruct (py_getitem st x (VStr field)); cbn [rbind]; [|reflexivity].
  rewrite (py_eq_compat _ _ a H); reflexivity.
Qed.

Lemma template_names_of_agree (st st' : store) (tv : value) (key field : string) :
  (forall x, reaches st tv x -> st' x = st x) ->
  Validate.template_names_of st' tv key field = Validate.template_names_of st tv key field.
Proof.
  intro H; unfold Validate.template_names_of; rewrite (py_contains_agree st st' tv _ H).
  destruct (py_contains st tv (VStr key)) as [[|]|]; cbn [rbind]; try reflexivity.
  rewrite (py_getitem_agree st st' tv _ H).
  destruct (py_getitem st tv (VStr key)) as [es|] eqn:E; cbn [rbind]; [|reflexivity].
  assert (Hes := agree_sub st st' es tv (py_getitem_reach st tv _ es E) H).
  unfold Validate.names_of; rewrite (py_iter_agree st st' es Hes).
  destruct (py_iter st es) as [xs|] eqn:E2; cbn [rbind]; [|reflexivity].
  apply mapM_ext_in; intros x Hx; apply py_getitem_agree.
  apply (agree_sub st st' x es); [apply (py_iter_reach st es xs x E2 Hx) | exact Hes].
Qed.

Lemma keywords_no_doc_of_agree (st st' : store) (tv : value) :
  (forall x, reaches st tv x -> st' x = st x) ->
  Validate.keywords_no_doc_of st' tv = Validate.keywords_no_doc_of st tv.
Proof.
  intro H; unfold Validate.keywords_no_doc_of; rewrite (py_getitem_agree st st' tv _ H).
  destruct (py_getitem st tv (VStr "keywords")) as [es|] eqn:E; cbn [rbind]; [|reflexivity].
  assert (Hes := agree_sub st st' es tv (py_getitem_reach st tv _ es E) H).
  rewrite (py_iter_agree st st' es Hes).
  destruct (py_iter st es) as [xs|] eqn:E2; cbn [rbind]; [|reflexivity].
  apply comp_filter_map_ext_in; intros x Hx.
  assert (Hx' := agree_sub st st' x es (py_iter_reach st es xs x E2 Hx) Hes).
  rewrite (py_contains_agree st st' x _ Hx'), !(py_getitem_agree st st' x _ Hx'); split; reflexivity.
Qed.

Lemma keywords_no_default_of_agree (st st' : store) (tv : value) :
  (forall x, reaches st tv x -> st' x = st x) ->
  Validate.keywords_no_default_of st' tv = Validate.keywords_no_default_of st tv.
Proof.
  intro H; unfold Validate.keywords_no_default_of; rewrite (py_getitem_agree st st' tv _ H).
  destruct (py_getitem st tv (VStr "keywords")) as [es|] eqn:E; cbn [rbind]; [|reflexivity].
  assert (Hes := agree_sub st st' es tv (py_getitem_reach st tv _ es E) H).
  rewrite (py_iter_agree st st' es Hes).
  destruct (py_iter st es) as [xs|] eqn:E2; cbn [rbind]; [|reflexivity].
  apply comp_filter_map_ext_in; intros x Hx.
  assert (Hx' := agree_sub st st' x es (py_iter_reach st es xs x E2 Hx) Hes).
  rewrite (py_contains_agree st st' x _ Hx'), (py_getitem_agree st st' x _ Hx'); split; reflexivity.
Qed.

(** ** The checks of [validate_node], step by step *)

Lemma set_difference_dedup_nil (a b : list value) :
  set_difference (dedup a) (dedup b) = [] <-> forall x, In x a -> py_in_list x b = true.
Proof.
  split.
  - intros H x Hx; destruct (dedup_cover a x Hx) as [y [Hy Hyx]].
    destruct (py_in_list y (dedup b)) eqn:E.
    + rewrite py_in_list_dedup in E; rewrite <- (py_in_list_eq y x b Hyx); exact E.
    + assert (In y (set_difference (dedup a) (dedup b))) by (apply set_difference_In; auto).
      rewrite H in *; contradiction.
  - intro H; destruct (set_difference (dedup a) (dedup b)) as [|y ys] eqn:E; [reflexivity|].
    assert (Hy : In y (set_difference (dedup a) (dedup b))) by (rewrite E; left; reflexivity).
    apply set_difference_In in Hy; destruct Hy as [Hy1 Hy2].
    rewrite py_in_list_dedup, (H y (dedup_incl a y Hy1)) in Hy2; discriminate.
Qed.

Lemma prelude_ok_of (st : store) (l l' : loc) (t : value) (ik ts tk : list value) :
  Validate.prelude st (VDict l) t = Ok (l', ik, ts, tk) ->
  l' = l /\ exists is nd, prelude_ok st l t is ik ts tk nd.
Proof.
  unfold Validate.prelude; intro H; inv_ok H.
  injection H as <- <- <- <-; split; [reflexivity|].
  repeat match goal with
         | E : py_set _ = Ok _ |- _ => apply py_set_hashable in E; destruct E as [? ->]
         end.
  do 2 eexists; unfold prelude_ok.
  repeat (split; [eassumption|]).
  split; [apply set_difference_dedup_nil; assumption|].
  do 2 (split; [eassumption|]).
  split; [apply set_difference_dedup_nil; assumption|].
  do 2 (split; [eassumption|]).
  split; [apply set_difference_dedup_nil; assumption|].
  destruct a10; assumption.
Qed.

Lemma prelude_of_ok (st : store) (l : loc) (t : value) (is ik ts tk nd : list value) :
  prelude_ok st l t is ik ts tk nd ->
  Validate.prelude st (VDict l) t = Ok (l, ik, ts, tk).
Proof.
  intros (H1 & H2 & H3 & H4 & H5 & H6 & H7 & H8 & H9 & H10 & H11 & H12 & H13 & H14 & H15).
  unfold Validate.prelude; rewrite H1; cbn [rbind]; rewrite H2; cbn [rbind].
  rewrite H3; cbn [rbind]; rewrite H4; cbn [rbind]; rewrite H5; cbn [rbind].
  rewrite (py_set_ok _ H6), (py_set_ok _ H7); cbn [rbind].
  rewrite (proj2 (set_difference_dedup_nil ik tk) H8).
  rewrite (py_set_ok _ H9), (py_set_ok _ H10); cbn [rbind].
  rewrite (proj2 (set_difference_dedup_nil is ts) H11).
  rewrite H12; cbn [rbind]; rewrite (py_set_ok _ H13); cbn [rbind].
  rewrite (proj2 (set_difference_dedup_nil nd ik) H14), H15; reflexivity.
Qed.

(** ** Dict updates *)

Lemma dict_find_set (d : dict) (y D k : value) :
  dict_find (dict_set d y D) k = if py_eq y k then Some D else dict_find d k.
Proof.
  induction d as [|[k' v'] d IH]; cbn [dict_set dict_find].
  - destruct (py_eq y k); reflexivity.
  - destruct (py_eq k' y) eqn:E; cbn [dict_find].
    + assert (Ek : py_eq k' k = py_eq y k)
        by (rewrite (py_eq_sym k' k), (py_eq_sym y k); apply py_eq_compat; exact E).
      rewrite Ek; destruct (py_eq y k); reflexivity.
    + rewrite IH; destruct (py_eq k' k) eqn:E1, (py_eq y k) eqn:E2; try reflexivity.
      rewrite py_eq_sym in E2; rewrite (py_eq_trans _ _ _ E1 E2) in E; discriminate.
Qed.

Lemma dict_find_set_all (d : dict) (ps : list (value * value)) (k : value) :
  ForallOrdPairs (fun a b => py_eq a b = false) (map fst ps) ->
  dict_find (dict_set_all d ps) k =
  match dict_find ps k with Some D => Some D | None => dict_find d k end.
Proof.
  revert d; induction ps as [|[y D] ps IH]; intros d Hd; cbn [dict_set_all dict_find]; [reflexivity|].
  inversion Hd as [|a l Hh Ht]; subst.
  rewrite (IH _ Ht), dict_find_set.
  destruct (py_eq y k) eqn:E; [|reflexivity].
  assert (N : dict_find ps k = None).
  { apply dict_find_none_iff; apply Bool.not_true_iff_false; intro X.
    apply existsb_exists in X; destruct X as [k' [Hk' Ek']].
    rewrite Forall_forall in Hh; specialize (Hh k' Hk').
    rewrite py_eq_sym in Ek'; rewrite (py_eq_trans _ _ _ E Ek') in Hh; discriminate. }
  rewrite N; reflexivity.
Qed.

Lemma dict_set_same (d : dict) (k v : value) : dict_find d k = Some v -> dict_set d k v = d.
Proof.
  induction d as [|[k' v'] d IH]; cbn [dict_find dict_set]; [discriminate|].
  destruct (py_eq k' k); [intro H; injection H as ->; reflexivity|].
  intro H; rewrite (IH H); reflexivity.
Qed.

Lemma dict_set_keys_inv (d : dict) (y D x : value) :
  In x (dict_keys (dict_set d y D)) -> In x (dict_keys d) \/ x = y.
Proof.
  induction d as [|[k' v'] d IH]; cbn [dict_set dict_keys map].
  - intros [<- | []]; right; reflexivity.
  - destruct (py_eq k' y); cbn [map fst]; intros [E | H].
    + left; left; exact E.
    + left; right; exact H.
    + left; left; exact E.
    + destruct (IH H); [left; right | right]; assumption.
Qed.

Lemma dict_set_all_keys_inv (d : dict) (ps : list (value * value)) (x : value) :
  In x (dict_keys (dict_set_all d ps)) -> In x (dict_keys d) \/ In x (map fst ps).
Proof.
  revert d; induction ps as [|[y D] ps IH]; intros d H; cbn [dict_set_all] in H; [auto|].
  destruct (IH _ H) as [H1 | H1]; [|right; right; exact H1].
  destruct (dict_set_keys_inv _ _ _ _ H1) as [H2 | ->]; [left; exact H2 | right; left; reflexivity].
Qed.

Lemma dict_set_all_keys (d : dict) (ps : list (value * value)) (x : value) :
  In x (dict_keys d) -> In x (dict_keys (dict_set_all d ps)).
Proof.
  revert d; induction ps as [|[y D] ps IH]; intros d H; cbn [dict_set_all]; [exact H|].
  apply IH, dict_set_keys, H.
Qed.

Lemma dict_set_all_has_key (d : dict) (ps : list (value * value)) (y : value) :
  In y (map fst ps) -> has_key (dict_set_all d ps) y = true.
Proof.
  revert d; induction ps as [|[y' D] ps IH]; intros d H; cbn [map fst] in H; [contradiction|].
  cbn [dict_set_all]; destruct H as [<- | H]; [|apply IH, H].
  clear IH; revert d.
  assert (G : forall d, has_key d y' = true -> has_key (dict_set_all d ps) y' = true).
  { induction ps as [|[z E] ps IHp]; intros d Hd; cbn [dict_set_all]; [exact Hd|].
    apply IHp; revert Hd; apply has_key_incl, dict_set_keys. }
  intro d; apply G, dict_set_has_key_new.
Qed.

Lemma dict_set_entries_inv (d : dict) (y D k w : value) :
  In (k, w) (dict_set d y D) -> In (k, w) d \/ w = D.
Proof.
  induction d as [|[k' v'] d IH]; cbn [dict_set].
  - intros [E | []]; injection E as _ <-; right; reflexivity.
  - destruct (py_eq k' y); intros [E | H].
    + injection E as _ <-; right; reflexivity.
    + left; right; exact H.
    + left; left; exact E.
    + destruct (IH H); [left; right|right]; assumption.
Qed.

Lemma dict_set_all_entries_inv (d : dict) (ps : list (value * value)) (k w : value) :
  In (k, w) (dict_set_all d ps) -> In (k, w) d \/ In w (map snd ps).
Proof.
  revert d; induction ps as [|[y D] ps IH]; intros d H; cbn [dict_set_all] in H; [auto|].
  destruct (IH _ H) as [H1 | H1]; [|right; right; exact H1].
  destruct (dict_set_entries_inv _ _ _ _ _ H1) as [H2 | ->]; [left; exact H2 | right; left; reflexivity].
Qed.

Lemma children_In (d : dict) (c : loc) : In c (children d) <-> exists k, In (k, VDict c) d.
Proof.
  induction d as [|[k w] d IH]; cbn [children]; [split; [contradiction | intros [k []]]|].
  destruct w; cbn [In]; rewrite IH; split;
    try (intros [k' H]; exists k'; right; exact H);
    try (intros [k' [E | H]]; [discriminate | exists k'; exact H]).
  - intros [-> | [k' H]]; [exists k; left; reflexivity | exists k'; right; exact H].
  - intros [k' [E | H]]; [injection E as _ ->; left; reflexivity | right; exists k'; exact H].
Qed.

Lemma children_set (d : dict) (y D : value) :
  dict_free D = true ->
  incl (children (dict_set d y D)) (children d) /\
  (NoDup (children d) -> NoDup (children (dict_set d y D))).
Proof.
  intro HD; assert (ND : forall c, D <> VDict c) by (intros c ->; discriminate).
  induction d as [|[k' v'] d [IH1 IH2]]; cbn [dict_set].
  - destruct D; try (exfalso; eapply ND; reflexivity); cbn [children]; split; auto;
      intros c [].
  - destruct (py_eq k' y).
    + destruct D; try (exfalso; eapply ND; reflexivity);
      destruct v'; cbn [children]; split; try (intros c Hc; right; exact Hc);
        try (intros c Hc; exact Hc); try (intro H; inversion H; assumption); auto.
    + destruct v'; cbn [children]; split; auto;
        try (intros c [<- | Hc]; [left; reflexivity | right; apply IH1, Hc]).
      intro H; inversion H as [|a b Hn Hnd]; subst; constructor; auto.
Qed.

Lemma children_set_all (d : dict) (ps : list (value * value)) :
  (forall D, In D (map snd ps) -> dict_free D = true) ->
  incl (children (dict_set_all d ps)) (children d) /\
  (NoDup (children d) -> NoDup (children (dict_set_all d ps))).
Proof.
  revert d; induction ps as [|[y D] ps IH]; intros d HD; cbn [dict_set_all]; [split; auto; intros c H; exact H|].
  destruct (children_set d y D (HD D (or_introl eq_refl))) as [A1 A2].
  destruct (IH (dict_set d y D) (fun D' H => HD D' (or_intror H))) as [B1 B2].
  split; [intros c Hc; apply A1, B1, Hc | intro H; apply B2, A2, H].
Qed.

(** ** Trees of dicts *)

Lemma nodup_app_disj {A} (a b : list A) (x : A) : NoDup (a ++ b) -> In x a -> In x b -> False.
Proof.
  induction a as [|y a IH]; cbn [app In]; [tauto|].
  intros H [<- | Ha] Hb; inversion H as [|z w Hn Hnd]; subst.
  - apply Hn, in_or_app; right; exact Hb.
  - exact (IH Hnd Ha Hb).
Qed.

Lemma nodup_app_l {A} (a b : list A) : NoDup (a ++ b) -> NoDup b.
Proof.
  induction a as [|y a IH]; cbn [app]; [auto|]; intro H; inversion H; auto.
Qed.

Lemma concat_pairs_disjoint (cs : list (loc * list loc)) (p q : loc * list loc) (x : loc) :
  NoDup (concat (map snd cs)) -> In p cs -> In q cs -> In x (snd p) -> In x (snd q) -> p = q.
Proof.
  induction cs as [|p0 cs IH]; cbn [map concat In]; [contradiction|].
  intros Hnd Hp Hq Hx1 Hx2.
  assert (Hin : forall r, In r cs -> In x (snd r) -> In x (concat (map snd cs)))
    by (intros r Hr Hxr; apply in_concat; exists (snd r); split; [apply in_map; exact Hr | exact Hxr]).
  destruct Hp as [<- | Hp], Hq as [<- | Hq]; auto.
  - exfalso; exact (nodup_app_disj _ _ _ Hnd Hx1 (Hin q Hq Hx2)).
  - exfalso; exact (nodup_app_disj _ _ _ Hnd Hx2 (Hin p Hp Hx1)).
  - apply IH; auto; eapply nodup_app_l; exact Hnd.
Qed.

Lemma tree_root (n : nat) (st : store) (l : loc) (fp : list loc) : tree n st l fp -> In l fp.
Proof. destruct n as [|n]; cbn [tree]; [contradiction|]; intros [cs [-> _]]; left; reflexivity. Qed.

Lemma tree_agree (n : nat) :
  forall st st' l fp, tree n st l fp -> (forall x, In x fp -> st' x = st x) -> tree n st' l fp.
Proof.
  induction n as [|n IH]; intros st st' l fp T H; cbn [tree] in *; [contradiction|].
  destruct T as [cs (Efp & Hnd & Hch & Hent & Hcov & Hsub)].
  assert (El : st' l = st l) by (apply H; rewrite Efp; left; reflexivity).
  exists cs; rewrite El; repeat (split; [assumption|]).
  intros c fpc Hc; apply (IH st); [apply Hsub, Hc|].
  intros x Hx; apply H; rewrite Efp; right; apply in_concat.
  exists fpc; split; [apply in_map_iff; exists (c, fpc); auto | exact Hx].
Qed.

Lemma tree_child (n : nat) (st : store) (l : loc) (fp : list loc) (cs : list (loc * list loc))
    (c : loc) (fpc : list loc) :
  fp = l :: concat (map snd cs) -> NoDup fp -> In (c, fpc) cs ->
  incl fpc fp /\ ~ In l fpc.
Proof.
  intros -> Hnd Hc.
  assert (Hin : forall x, In x fpc -> In x (concat (map snd cs)))
    by (intros x Hx; apply in_concat; exists fpc; split; [apply in_map_iff; exists (c, fpc); auto | exact Hx]).
  split; [intros x Hx; right; apply Hin, Hx|].
  intro Hl; inversion Hnd; subst; auto.
Qed.

(** ** Filling in the defaults *)

Lemma fill_loop_effect (t : value) (l : loc) (F : list value) :
  forall st st_f u,
  Validate.fill_loop st l t F = (st_f, Ok u) ->
  (forall x, reaches st t x -> x <> l) ->
  exists ps, map fst ps = F /\
    (forall y D, In (y, D) ps -> exists E,
       Validate.find_entry st t "keywords" "keyword" y = Ok E /\
       py_getitem st E (VStr "default") = Ok D) /\
    (forall x, x <> l -> st_f x = st x) /\
    st_f l = dict_set_all (st l) ps /\ forallb hashable F = true.
Proof.
  induction F as [|y F IH]; intros st st_f u H Ht; cbn [Validate.fill_loop] in H.
  - injection H as <-; exists []; repeat split; auto; intros y D [].
  - destruct (Validate.find_entry st t "keywords" "keyword" y) as [E|] eqn:Ee; [|discriminate].
    destruct (py_getitem st E (VStr "default")) as [D|] eqn:Ed; [|discriminate].
    destruct (Validate.dict_setitem st l y D) as [st1|] eqn:Es; [|discriminate].
    unfold Validate.dict_setitem in Es; destruct (hashable y) eqn:Hy; [|discriminate].
    injection Es as <-.
    assert (Ag : forall x, reaches st t x -> upd st l (dict_set (st l) y D) x = st x).
    { intros x R; unfold upd; destruct (Nat.eqb l x) eqn:E'; [|reflexivity].
      apply Nat.eqb_eq in E'; subst; exfalso; exact (Ht x R eq_refl). }
    destruct (IH _ _ _ H) as [ps (Hps1 & Hps2 & Hps3 & Hps4 & Hps5)].
    { intros x R; apply Ht; apply (proj1 (reaches_agree st _ t Ag x)), R. }
    exists ((y, D) :: ps); split; [cbn [map fst]; rewrite Hps1; reflexivity|].
    split; [|split; [|split]].
    + intros y' D' [E' | Hin]; [injection E' as <- <-; eauto|].
      destruct (Hps2 y' D' Hin) as [E' [H1 H2]]; exists E'.
      rewrite (find_entry_agree st _ t _ _ _ Ag) in H1; split; [exact H1|].
      rewrite (py_getitem_agree st _ E') in H2; [exact H2|].
      apply (agree_sub st _ E' t); [apply (find_entry_reach st t _ _ _ _ H1) | exact Ag].
    + intros x Hx; rewrite (Hps3 x Hx); unfold upd.
      destruct (Nat.eqb l x) eqn:E'; [apply Nat.eqb_eq in E'; congruence | reflexivity].
    + rewrite Hps4; unfold upd; rewrite Nat.eqb_refl; reflexivity.
    + cbn [forallb]; rewrite Hy, Hps5; reflexivity.
Qed.

(** ** Auxiliary facts for re-validation *)

Lemma dict_find_In_eq (d : dict) (k w : value) :
  dict_find d k = Some w -> exists k', In (k', w) d /\ py_eq k' k = true.
Proof.
  induction d as [|[k' v'] d IH]; cbn [dict_find]; [discriminate|].
  destruct (py_eq k' k) eqn:E; [intro H; injection H as <-; exists k'; split; [left|]; auto|].
  intro H; destruct (IH H) as [k'' [H1 H2]]; exists k''; split; [right|]; auto.
Qed.

Lemma fop_filter (p : value -> bool) (xs : list value) :
  ForallOrdPairs (fun a b => py_eq a b = false) xs ->
  ForallOrdPairs (fun a b => py_eq a b = false) (filter p xs).
Proof.
  induction xs as [|x xs IH]; cbn [filter]; intro H; [constructor|].
  inversion H as [|a l Hh Ht]; subst.
  destruct (p x); [constructor; [|apply IH, Ht]|apply IH, Ht].
  rewrite Forall_forall in *; intros y Hy; apply filter_In in Hy; apply Hh; tauto.
Qed.

Lemma dedup_distinct (xs : list value) :
  ForallOrdPairs (fun a b => py_eq a b = false) (dedup xs).
Proof.
  induction xs as [|x xs IH]; cbn [dedup]; constructor.
  - rewrite Forall_forall; intros y Hy; apply filter_In in Hy.
    destruct Hy as [_ Hy]; destruct (py_eq x y); [discriminate | reflexivity].
  - apply fop_filter, IH.
Qed.

Lemma type_name_dict_free (x : value) (T : string) :
  type_name x = T -> T <> "dict" -> T <> "list" -> dict_free x = true.
Proof. destruct x; cbn [type_name dict_free]; intros <- H1 H2; congruence. Qed.

Lemma type_matches_dict_free (D ty : value) :
  Validate.type_matches D ty = Ok true -> dict_free D = true.
Proof.
  intro H.
  destruct (Types.tag_allowed Validate.allowed_types ty) eqn:Ea.
  2:{ unfold Validate.type_matches in H; rewrite Ea in H; discriminate. }
  apply validate_tag_allowed_iff in Ea; destruct Ea as [t [Ht ->]].
  rewrite (validate_type_matches_recognised D t Ht) in H; injection H as H.
  assert (Hnd : t <> "dict" /\ t <> "list") by (tag_cases Ht; split; discriminate).
  destruct (list_tag_match t) as [inner|] eqn:El.
  - destruct D; try discriminate; cbn [dict_free].
    assert (Hi : inner <> "dict" /\ inner <> "list")
      by (tag_cases Ht; cbn in El; try discriminate; injection El as <-; split; discriminate).
    rewrite elements_match_forallb, forallb_forall in H; apply forallb_forall.
    intros x Hx; specialize (H x Hx); apply String.eqb_eq in H.
    eapply type_name_dict_free; [exact H | apply Hi | apply Hi].
  - apply String.eqb_eq in H; eapply type_name_dict_free; [exact H | apply Hnd | apply Hnd].
Qed.

Lemma dict_free_not_dict (D : value) (c : loc) : dict_free D = true -> D <> VDict c.
Proof. intros H ->; discriminate. Qed.

Lemma check_types_inv (st : store) (v t : value) (ks : list value) (u : unit) :
  Validate.check_types st v t ks = Ok u -> forall k, In k ks ->
  exists E ty w, Validate.find_entry st t "keywords" "keyword" k = Ok E /\
    py_getitem st E (VStr "type") = Ok ty /\ py_getitem st v k = Ok w /\
    Validate.type_matches w ty = Ok true.
Proof.
  induction ks as [|k ks IH]; cbn [Validate.check_types]; intros H k' Hk'; [contradiction|].
  destruct (Validate.find_entry st t "keywords" "keyword" k) as [E|] eqn:E1; cbn [rbind] in H;
    [|discriminate].
  destruct (py_getitem st E (VStr "type")) as [ty|] eqn:E2; cbn [rbind] in H; [|discriminate].
  destruct (py_getitem st v k) as [w|] eqn:E3; cbn [rbind] in H; [|discriminate].
  destruct (Validate.type_matches w ty) as [b|] eqn:E4; cbn [rbind] in H; [|discriminate].
  destruct b; cbn [negb] in H; [|discriminate].
  destruct Hk' as [<- | Hk']; [exists E, ty, w; auto | exact (IH H k' Hk')].
Qed.

Lemma check_types_intro (st : store) (v t : value) (ks : list value) :
  (forall k, In k ks ->
   exists E ty w, Validate.find_entry st t "keywords" "keyword" k = Ok E /\
     py_getitem st E (VStr "type") = Ok ty /\ py_getitem st v k = Ok w /\
     Validate.type_matches w ty = Ok true) ->
  Validate.check_types st v t ks = Ok tt.
Proof.
  induction ks as [|k ks IH]; cbn [Validate.check_types]; intro H; [reflexivity|].
  destruct (H k (or_introl eq_refl)) as [E [ty [w (H1 & H2 & H3 & H4)]]].
  rewrite H1; cbn [rbind]; rewrite H2; cbn [rbind]; rewrite H3; cbn [rbind]; rewrite H4.
  cbn [rbind negb]; apply IH; intros k' Hk'; apply H; right; exact Hk'.
Qed.

Lemma fill_default_typed (st : store) (t : value) (y E D : value) :
  defaults_typed st t ->
  Validate.find_entry st t "keywords" "keyword" y = Ok E ->
  py_getitem st E (VStr "default") = Ok D ->
  exists ty, py_getitem st E (VStr "type") = Ok ty /\ Validate.type_matches D ty = Ok true.
Proof.
  intros Hd H1 H2; unfold Validate.find_entry in H1.
  destruct t as [| | | | | s | vs | x]; cbn [py_getitem int_index] in H1; try discriminate.
  cbn [hashable] in H1.
  destruct (dict_find (st x) (VStr "keywords")) as [es|] eqn:Ees; cbn [rbind] in H1; [|discriminate].
  destruct (py_iter st es) as [xs|] eqn:Exs; cbn [rbind] in H1; [|discriminate].
  destruct (filterM _ xs) as [ys|] eqn:Eys; cbn [rbind] in H1; [|discriminate].
  destruct ys as [|y0 ys]; cbn [first] in H1; [discriminate|]; injection H1 as <-.
  assert (Hin : In y0 xs) by (eapply filterM_incl; [exact Eys | left; reflexivity]).
  destruct y0 as [| | | | | s | vs | e]; cbn [py_getitem int_index] in H2; try discriminate.
  cbn [hashable] in H2; destruct (dict_find (st e) (VStr "default")) as [D'|] eqn:ED; [|discriminate].
  injection H2 as ->.
  destruct (Hd x e D (reaches_here st x)) as [ty [Hty Hm]];
    [exists es, xs; auto | exact ED |].
  exists ty; cbn [py_getitem hashable]; rewrite Hty; auto.
Qed.

Lemma validate_node_ok_dict (n : nat) (st st' : store) (v t r : value) :
  Validate.validate_node n st v t = (st', Ok r) -> exists l, v = VDict l.
Proof.
  destruct n as [|f]; cbn [Validate.validate_node]; [discriminate|].
  destruct (Validate.prelude st v t) as [[[[l ik] ts] tk]|] eqn:Ep; [|discriminate].
  intros _; destruct (prelude_facts _ _ _ _ _ _ _ Ep) as [-> _]; eauto.
Qed.

Lemma same_child (d : dict) (s s' : value) (c : loc) :
  NoDup (children d) -> dict_find d s = Some (VDict c) -> dict_find d s' = Some (VDict c) ->
  py_eq s s' = true.
Proof.
  induction d as [|[k w] d IH]; cbn [dict_find]; [discriminate|].
  intros Hnd H1 H2.
  assert (Hc : forall x, dict_find d x = Some (VDict c) -> In c (children d)).
  { intros x Hx; apply children_In; destruct (dict_find_In _ _ _ Hx) as [k' Hk']; eauto. }
  destruct (py_eq k s) eqn:E1, (py_eq k s') eqn:E2.
  - rewrite py_eq_sym in E1; exact (py_eq_trans _ _ _ E1 E2).
  - injection H1 as ->; cbn [children] in Hnd; inversion Hnd; subst.
    exfalso; eauto.
  - injection H2 as ->; cbn [children] in Hnd; inversion Hnd; subst.
    exfalso; eauto.
  - apply IH; auto; destruct w; cbn [children] in Hnd; auto; inversion Hnd; auto.
Qed.

Lemma reaches_trans (st : store) (v : value) (x y : loc) :
  reaches st v x -> reaches st (VDict x) y -> reaches st v y.
Proof.
  induction 1 as [l | l k w x Hk R IH | l k w x Hk R IH | vs w x Hw R IH]; intro Ry.
  - exact Ry.
  - eapply reaches_key; eauto.
  - eapply reaches_value; eauto.
  - eapply reaches_item; eauto.
Qed.

Lemma defaults_typed_sub (st : store) (t t' : value) :
  (forall x, reaches st t' x -> reaches st t x) -> defaults_typed st t -> defaults_typed st t'.
Proof. intros Hs Hd x e D R; apply Hd, Hs, R. Qed.

Lemma defaults_typed_agree (st st' : store) (t : value) :
  (forall x, reaches st t x -> st' x = st x) -> defaults_typed st t -> defaults_typed st' t.
Proof.
  intros Ag Hd x e D R [ks [xs (H1 & H2 & H3)]] HD.
  assert (R' : reaches st t x) by (apply (reaches_agree st st' t Ag), R).
  rewrite (Ag x R') in H1.
  destruct (dict_find_In _ _ _ H1) as [k Hk].
  assert (Rks : forall y, reaches st ks y -> reaches st t y)
    by (intros y Ry; eapply reaches_trans; [exact R' | eapply reaches_value; eauto]).
  rewrite (py_iter_agree st st' ks (fun y Ry => Ag y (Rks y Ry))) in H2.
  assert (Re : reaches st t e)
    by (apply Rks; eapply py_iter_reach; [exact H2 | exact H3 | apply reaches_here]).
  rewrite (Ag e Re) in HD |- *.
  apply (Hd x e D R'); [exists ks, xs; auto | exact HD].
Qed.

Lemma stable_agree (n : nat) (st st' : store) (fp : list loc) (l : loc) (t : value) :
  (forall x, In x fp -> st' x = st x) -> (forall x, reaches st t x -> st' x = st x) ->
  stable n st fp l t -> stable n st' fp l t.
Proof.
  intros A1 A2 Hs st2 B1 B2; apply Hs.
  - intros x Hx; rewrite B1, A1; auto.
  - intros x Hx; rewrite B2, A2; auto; apply (reaches_agree st st' t A2), Hx.
Qed.

Lemma disjoint_or_same (cs : list (loc * list loc)) (p q : loc * list loc) :
  NoDup (concat (map snd cs)) -> In p cs -> In q cs ->
  p = q \/ (forall x, In x (snd p) -> ~ In x (snd q)).
Proof.
  intros Hnd Hp Hq.
  destruct (existsb (fun x => if in_dec Nat.eq_dec x (snd q) then true else false) (snd p)) eqn:E.
  - apply existsb_exists in E; destruct E as [x [Hx1 Hx2]].
    destruct (in_dec Nat.eq_dec x (snd q)) as [Hx3|]; [|discriminate].
    left; eapply concat_pairs_disjoint; eauto.
  - right; intros x Hx1 Hx2.
    assert (existsb (fun x => if in_dec Nat.eq_dec x (snd q) then true else false) (snd p) = true)
      by (apply existsb_exists; exists x; split; [exact Hx1|]; destruct (in_dec Nat.eq_dec x (snd q)); tauto).
    congruence.
Qed.

Lemma upd_same (st : store) (l : loc) : upd st l (st l) = st.
Proof.
  apply functional_extensionality; intro x; unfold upd.
  destruct (Nat.eqb_spec l x) as [->|]; reflexivity.
Qed.

Lemma getitem_dict_ok (st : store) (l : loc) (k w : value) :
  py_getitem st (VDict l) k = Ok w <-> hashable k = true /\ dict_find (st l) k = Some w.
Proof.
  cbn [py_getitem]; destruct (hashable k); [|split; [discriminate | intros [? _]; discriminate]].
  destruct (dict_find (st l) k); split; try (intros [_ H]; congruence); try discriminate.
  intro H; injection H as ->; auto.
Qed.

(** ** First run: the sections loop *)

Section SectionsRun.

Variables (f d' : nat) (st0 : store) (l : loc) (t : value) (fp : list loc)
  (cs : list (loc * list loc)) (L : dict).
Hypothesis Hrec : run_stable f.
Hypothesis Hfp : fp = l :: concat (map snd cs).
Hypothesis Hnd : NoDup fp.
Hypothesis HndL : NoDup (children L).
Hypothesis Hcov : forall c, In c (children L) -> exists fpc, In (c, fpc) cs.
Hypothesis Hdisj : forall x, reaches st0 t x -> ~ In x fp.
Hypothesis Htyped : defaults_typed st0 t.

Lemma sections_run (secs : list value) :
  forall Q st st_end u,
  st l = L -> (forall x, ~ In x fp -> st x = st0 x) ->
  (forall c fpc, In (c, fpc) cs -> tree d' st c fpc) ->
  (forall s, In s Q -> exists c fpc tc, dict_find L s = Some (VDict c) /\ In (c, fpc) cs /\
     Validate.find_entry st0 t "sections" "section" s = Ok tc /\ stable f st fpc c tc) ->
  Validate.sections_loop (Validate.validate_node f) st l t secs = (st_end, Ok u) ->
  st_end l = L /\ (forall x, ~ In x fp -> st_end x = st0 x) /\
  (forall c fpc, In (c, fpc) cs -> tree d' st_end c fpc) /\
  (forall s, In s (app Q secs) -> exists c fpc tc, dict_find L s = Some (VDict c) /\
     In (c, fpc) cs /\ Validate.find_entry st0 t "sections" "section" s = Ok tc /\
     stable f st_end fpc c tc).
Proof.
  assert (Hndc : NoDup (concat (map snd cs))) by (rewrite Hfp in Hnd; inversion Hnd; assumption).
  induction secs as [|s secs IH]; intros Q st st_end u E1 E2 E3 E4 H;
    cbn [Validate.sections_loop] in H.
  { injection H as <- <-; rewrite app_nil_r; auto. }
  destruct (py_getitem st (VDict l) s) as [w|] eqn:Eg; [|discriminate].
  destruct (Validate.find_entry st t "sections" "section" s) as [tc|] eqn:Et; [|discriminate].
  destruct (Validate.validate_node f st w tc) as [st1 [r|]] eqn:Ev; [|discriminate].
  destruct (Validate.dict_setitem st1 l s r) as [st2|] eqn:Es; [|discriminate].
  assert (Ag0 : forall x, reaches st0 t x -> st x = st0 x)
    by (intros x Rx; apply E2, Hdisj, Rx).
  assert (Rt : forall x, reaches st t x -> reaches st0 t x)
    by (intros x; apply (reaches_agree st0 st t Ag0)).
  assert (Et0 : Validate.find_entry st0 t "sections" "section" s = Ok tc)
    by (rewrite <- Et; symmetry; apply find_entry_agree, Ag0).
  apply getitem_dict_ok in Eg; destruct Eg as [Hs Eg]; rewrite E1 in Eg.
  destruct (validate_node_ok_dict _ _ _ _ _ _ Ev) as [c ->].
  destruct (validate_node_grow _ _ _ _ _ _ Ev) as [_ ->].
  assert (Hc : In c (children L))
    by (apply children_In; destruct (dict_find_In _ _ _ Eg) as [k Hk]; eauto).
  destruct (Hcov c Hc) as [fpc Hin].
  destruct (tree_child d' st l fp cs c fpc Hfp Hnd Hin) as [Hincl Hl].
  assert (Rtc : forall x, reaches st tc x -> reaches st t x)
    by (eapply find_entry_reach; exact Et).
  destruct (Hrec d' st c tc fpc st1 (VDict c) (E3 c fpc Hin)) as (F1 & T1 & S1).
  { intros x Rx Hx; apply (Hdisj x (Rt x (Rtc x Rx))), Hincl, Hx. }
  { apply (defaults_typed_sub st t tc Rtc), (defaults_typed_agree st0 st t Ag0 Htyped). }
  { exact Ev. }
  assert (El1 : st1 l = L) by (rewrite F1; auto).
  unfold Validate.dict_setitem in Es; rewrite Hs, El1, (dict_set_same _ _ _ Eg) in Es.
  injection Es as <-; rewrite <- El1, upd_same in H.
  assert (Fr : forall x, ~ In x fp -> ~ In x fpc) by (intros x Hx Hx'; apply Hx, Hincl, Hx').
  destruct (IH (app Q [s]) st1 st_end u El1) as (R1 & R2 & R3 & R4); auto.
  - intros x Hx; rewrite F1; auto.
  - intros c' fpc' Hin'.
    destruct (disjoint_or_same cs (c', fpc') (c, fpc) Hndc Hin' Hin) as [Eq | Dj].
    + injection Eq as -> ->; exact T1.
    + apply (tree_agree d' st); [apply E3, Hin' | intros x Hx; apply F1, Dj, Hx].
  - intros s' Hs'; apply in_app_iff in Hs'; destruct Hs' as [Hs' | [<- | []]].
    + destruct (E4 s' Hs') as [c' [fpc' [tc' (D' & Hin' & Et' & S')]]].
      exists c', fpc', tc'; repeat (split; [assumption|]).
      destruct (disjoint_or_same cs (c', fpc') (c, fpc) Hndc Hin' Hin) as [Eq | Dj].
      * injection Eq as -> ->.
        rewrite (find_entry_eq st0 t _ _ s' s (same_child L s' s c HndL D' Eg)), Et0 in Et'.
        injection Et' as <-; exact S1.
      * apply (stable_agree f st st1); [intros x Hx; apply F1, Dj, Hx | | exact S'].
        intros x Rx; apply F1, Fr, Hdisj.
        apply Rt; eapply find_entry_reach; [|exact Rx].
        rewrite (find_entry_agree st0 st t _ _ _ Ag0); exact Et'.
    + exists c, fpc, tc; auto.
  - split; [|split; [|split]]; auto.
    intros s' Hs'; apply R4; rewrite <- app_assoc; exact Hs'.
Qed.

End SectionsRun.

Lemma sections_loop_noop (f : nat) (st : store) (l : loc) (t : value) (secs : list value) :
  (forall s, In s secs -> exists c tc, py_getitem st (VDict l) s = Ok (VDict c) /\
     Validate.find_entry st t "sections" "section" s = Ok tc /\
     Validate.validate_node f st (VDict c) tc = (st, Ok (VDict c))) ->
  Validate.sections_loop (Validate.validate_node f) st l t secs = (st, Ok tt).
Proof.
  induction secs as [|s secs IH]; intro H; cbn [Validate.sections_loop]; [reflexivity|].
  destruct (H s (or_introl eq_refl)) as [c [tc (E1 & E2 & E3)]].
  rewrite E1, E2; cbv beta iota; rewrite E3; cbv beta iota.
  unfold Validate.dict_setitem; apply getitem_dict_ok in E1; destruct E1 as [Hs Ef].
  rewrite Hs, (dict_set_same _ _ _ Ef), upd_same; apply IH.
  intros s' Hs'; apply H; right; exact Hs'.
Qed.

Lemma dict_free_not_section (D : value) : dict_free D = true -> String.eqb (type_name D) "dict" = false.
Proof. destruct D; cbn; try reflexivity; discriminate. Qed.

(** ** Second run: the node itself *)

Section NodeRerun.

Variables (f : nat) (st st1 : store) (l : loc) (t : value) (fp : list loc)
  (ps : list (value * value)) (is ik ts tk nd : list value).
Hypothesis P : prelude_ok st l t is ik ts tk nd.
Hypothesis Hkh : keys_hashable (st l).
Hypothesis HmF : map fst ps = set_difference (dedup tk) (dedup ik).
Hypothesis Htyp : forall y D, In (y, D) ps -> exists E ty,
  Validate.find_entry st t "keywords" "keyword" y = Ok E /\
  py_getitem st E (VStr "type") = Ok ty /\ Validate.type_matches D ty = Ok true.
Hypothesis Hst1 : st1 l = dict_set_all (st l) ps.
Hypothesis Hl : In l fp.
Hypothesis Hag1 : forall x, reaches st t x -> st1 x = st x.
Hypothesis Hsec : forall s, In s ts -> exists c fpc tc,
  dict_find (st1 l) s = Some (VDict c) /\ incl fpc fp /\
  Validate.find_entry st t "sections" "section" s = Ok tc /\ stable f st1 fpc c tc.

Lemma rerun_ik : ik = filter (fun k => negb (is_section_key (st l) k)) (dict_keys (st l)).
Proof.
  destruct P as (P1 & P2 & _).
  rewrite (input_sections_of_eq st l Hkh) in P1; injection P1 as <-.
  rewrite input_keywords_of_eq in P2; injection P2 as <-; reflexivity.
Qed.

Lemma rerun_is : is = filter (is_section_key (st l)) (dict_keys (st l)).
Proof.
  destruct P as (P1 & _).
  rewrite (input_sections_of_eq st l Hkh) in P1; injection P1 as <-; reflexivity.
Qed.

Lemma rerun_find (k : value) :
  dict_find (st1 l) k = match dict_find ps k with Some D => Some D | None => dict_find (st l) k end.
Proof.
  rewrite Hst1; apply dict_find_set_all; rewrite HmF; unfold set_difference.
  apply fop_filter, dedup_distinct.
Qed.

Lemma rerun_free (y D : value) : In (y, D) ps -> dict_free D = true.
Proof.
  intro H; destruct (Htyp y D H) as [E [ty (_ & _ & Hm)]]; eapply type_matches_dict_free; exact Hm.
Qed.

Lemma rerun_section (k : value) :
  is_section_key (st1 l) k =
  match dict_find ps k with Some _ => false | None => is_section_key (st l) k end.
Proof.
  unfold is_section_key at 1; rewrite rerun_find.
  destruct (dict_find ps k) as [D|] eqn:E; [|reflexivity].
  destruct (dict_find_In _ _ _ E) as [y Hy]; apply dict_free_not_section, (rerun_free y), Hy.
Qed.

Lemma rerun_F (y : value) : In y (map fst ps) -> In y tk /\ py_in_list y ik = false.
Proof.
  rewrite HmF, set_difference_In, py_in_list_dedup; intros [H1 H2]; split; [apply dedup_incl, H1 | exact H2].
Qed.

Lemma rerun_ps_find (y : value) : In y (map fst ps) -> exists D, dict_find ps y = Some D.
Proof. intro H; apply dict_find_in_keys, H. Qed.

Lemma rerun_keys (k : value) :
  In k (dict_keys (st1 l)) -> In k (dict_keys (st l)) \/ In k (map fst ps).
Proof. rewrite Hst1; apply dict_set_all_keys_inv. Qed.

Lemma rerun_hash : keys_hashable (st1 l).
Proof.
  unfold keys_hashable; apply forallb_forall; intros k Hk.
  destruct P as (_ & _ & _ & _ & _ & _ & P7 & _).
  destruct (rerun_keys k Hk) as [H | H].
  - unfold keys_hashable in Hkh; rewrite forallb_forall in Hkh; apply Hkh, H.
  - rewrite forallb_forall in P7; apply P7, (rerun_F k H).
Qed.

Lemma rerun_ik_sub (y : value) :
  In y ik -> In y (filter (fun k => negb (is_section_key (st1 l) k)) (dict_keys (st1 l))).
Proof.
  rewrite rerun_ik, !filter_In; intros [H1 H2]; split.
  - rewrite Hst1; apply dict_set_all_keys, H1.
  - rewrite rerun_section; destruct (dict_find ps y); [reflexivity | exact H2].
Qed.

Lemma rerun_not_ps (k : value) :
  In k (dict_keys (st1 l)) -> dict_find ps k = None -> In k (dict_keys (st l)).
Proof.
  intros Hk E; destruct (rerun_keys k Hk) as [H | H]; [exact H|].
  destruct (rerun_ps_find k H) as [D ED]; congruence.
Qed.

Lemma node_stable : stable (S f) st1 fp l t.
Proof.
  intros st2 B1 B2.
  destruct P as (P1 & P2 & P3 & P4 & P5 & P6 & P7 & P8 & P9 & P10 & P11 & P12 & P13 & P14 & P15).
  assert (A : forall x, reaches st t x -> st2 x = st x).
  { intros x Rx; rewrite B2, Hag1; auto; apply (reaches_agree st st1 t Hag1), Rx. }
  assert (E2l : st2 l = st1 l) by (apply B1, Hl).
  assert (Hf2 : forall k, dict_find (st2 l) k = dict_find (st1 l) k) by (intro k; rewrite E2l; reflexivity).
  assert (Hfe : forall key field k, Validate.find_entry st2 t key field k = Validate.find_entry st t key field k)
    by (intros; apply find_entry_agree, A).
  set (ik2 := filter (fun k => negb (is_section_key (st1 l) k)) (dict_keys (st1 l))).
  set (is2 := filter (is_section_key (st1 l)) (dict_keys (st1 l))).
  assert (Hik2 : forall k, In k ik2 <-> In k (dict_keys (st1 l)) /\ is_section_key (st1 l) k = false).
  { intro k; unfold ik2; rewrite filter_In; destruct (is_section_key (st1 l) k); intuition. }
  assert (Hhk : forall k, In k (dict_keys (st1 l)) -> hashable k = true).
  { intros k Hk; pose proof rerun_hash as X; unfold keys_hashable in X; rewrite forallb_forall in X; auto. }
  assert (Hcov : forall k, In k tk -> py_in_list k ik2 = true).
  { intros k Hk; destruct (py_in_list k ik) eqn:Eik.
    - apply py_in_list_iff in Eik; destruct Eik as [y [Hy Hyk]].
      apply py_in_list_iff; exists y; split; [apply rerun_ik_sub; assumption | exact Hyk].
    - destruct (dedup_cover tk k Hk) as [y [Hy Hyk]].
      assert (HyF : In y (map fst ps)).
      { rewrite HmF; apply set_difference_In; split; [exact Hy|].
        rewrite py_in_list_dedup, (py_in_list_eq y k _ Hyk); exact Eik. }
      pose proof (dict_set_all_has_key (st l) ps y HyF) as Hh; rewrite <- Hst1 in Hh.
      unfold has_key in Hh; apply py_in_list_iff in Hh; destruct Hh as [z [Hz Hzy]].
      destruct (rerun_ps_find y HyF) as [D ED].
      apply py_in_list_iff; exists z; split; [|exact (py_eq_trans _ _ _ Hzy Hyk)].
      apply Hik2; split; [exact Hz|].
      rewrite rerun_section, (dict_find_eq ps z y Hzy), ED; reflexivity. }
  assert (Hct : Validate.check_types st2 (VDict l) t ik2 = Ok tt).
  { apply check_types_intro; intros k Hk; apply Hik2 in Hk; destruct Hk as [Hk Hs].
    destruct (dict_find ps k) as [D|] eqn:Epk.
    - destruct (dict_find_In_eq _ _ _ Epk) as [y [Hy Hyk]].
      destruct (Htyp y D Hy) as [E [ty (H1 & H2 & H3)]].
      exists E, ty, D; rewrite Hfe, <- (find_entry_eq st t _ _ y k Hyk), H1.
      split; [reflexivity|split; [|split; [|exact H3]]].
      + rewrite <- H2; apply py_getitem_agree, (agree_sub st st2 E t); [|exact A].
        eapply find_entry_reach; exact H1.
      + apply getitem_dict_ok; split; [apply Hhk, Hk|]; rewrite Hf2, rerun_find, Epk; reflexivity.
    - assert (Hk0 : In k ik).
      { rewrite rerun_ik; apply filter_In; split; [eapply rerun_not_ps; eauto|].
        rewrite rerun_section, Epk in Hs; rewrite Hs; reflexivity. }
      destruct (check_types_inv _ _ _ _ _ P15 k Hk0) as [E [ty [w (H1 & H2 & H3 & H4)]]].
      exists E, ty, w; rewrite Hfe, H1; split; [reflexivity|split; [|split; [|exact H4]]].
      + rewrite <- H2; apply py_getitem_agree, (agree_sub st st2 E t); [|exact A].
        eapply find_entry_reach; exact H1.
      + apply getitem_dict_ok in H3; destruct H3 as [H3 H3'].
        apply getitem_dict_ok; split; [exact H3|]; rewrite Hf2, rerun_find, Epk; exact H3'. }
  assert (P2' : prelude_ok st2 l t is2 ik2 ts tk nd).
  { assert (Hh2 : keys_hashable (st2 l)) by (rewrite E2l; apply rerun_hash).
    split; [|split; [|split; [|split; [|split]]]].
    - rewrite (input_sections_of_eq st2 l Hh2), E2l; reflexivity.
    - pose proof (input_keywords_of_eq st2 l) as X; rewrite E2l in X; exact X.
    - unfold Validate.template_sections_of; rewrite (template_names_of_agree st st2 t _ _ A); exact P3.
    - unfold Validate.template_keywords_of; rewrite (template_names_of_agree st st2 t _ _ A); exact P4.
    - rewrite (keywords_no_doc_of_agree st st2 t A); exact P5.
    - split; [apply forallb_forall; intros k Hk; apply Hhk, Hik2, Hk|].
      split; [exact P7|split].
      + intros k Hk; apply Hik2 in Hk; destruct Hk as [Hk Hs].
        destruct (dict_find ps k) as [D|] eqn:Epk.
        * destruct (dict_find_In_eq _ _ _ Epk) as [y [Hy Hyk]].
          apply (in_map fst) in Hy; destruct (rerun_F y Hy) as [Hyt _].
          apply py_in_list_iff; exists y; auto.
        * apply P8; rewrite rerun_ik; apply filter_In; split; [eapply rerun_not_ps; eauto|].
          rewrite rerun_section, Epk in Hs; rewrite Hs; reflexivity.
      + split; [apply forallb_forall; intros k Hk; apply filter_In in Hk; apply Hhk, Hk|].
        split; [exact P10|split; [|split; [|split; [exact P13|split]]]].
        * intros k Hk; apply filter_In in Hk; destruct Hk as [Hk Hs].
          rewrite rerun_section in Hs; destruct (dict_find ps k) eqn:Epk; [discriminate|].
          apply P11; rewrite rerun_is; apply filter_In; split; [eapply rerun_not_ps; eauto | exact Hs].
        * rewrite (keywords_no_default_of_agree st st2 t A); exact P12.
        * intros k Hk; apply P14, py_in_list_iff in Hk; destruct Hk as [y [Hy Hyk]].
          apply py_in_list_iff; exists y; split; [apply rerun_ik_sub, Hy | exact Hyk].
        * exact Hct. }
  assert (Hh6 : forallb hashable ik2 = true) by (destruct P2' as (_ & _ & _ & _ & _ & X & _); exact X).
  cbn [Validate.validate_node]; rewrite (prelude_of_ok _ _ _ _ _ _ _ _ P2'); cbv beta iota.
  unfold Validate.fill_defaults; rewrite (py_set_ok _ P7), (py_set_ok ik2 Hh6); cbv beta iota.
  rewrite (proj2 (set_difference_dedup_nil tk ik2) Hcov); cbn [Validate.fill_loop]; cbv beta iota.
  rewrite (sections_loop_noop f st2 l t ts); [reflexivity|].
  intros s Hs; destruct (Hsec s Hs) as [c [fpc [tc (D & Hi & Ft & Sf)]]].
  exists c, tc; split.
  { apply getitem_dict_ok; split; [rewrite forallb_forall in P10; apply P10, Hs | rewrite Hf2; exact D]. }
  split; [rewrite Hfe; exact Ft|].
  apply Sf; [intros x Hx; apply B1, Hi, Hx|].
  intros x Rx.
  assert (Rx' : reaches st tc x).
  { apply (reaches_agree st st1 tc); [|exact Rx].
    apply (agree_sub st st1 tc t); [eapply find_entry_reach; exact Ft | exact Hag1]. }
  assert (Rt : reaches st t x) by (eapply find_entry_reach; [exact Ft | exact Rx']).
  rewrite A, Hag1; auto.
Qed.

End NodeRerun.

(** ** Both runs together, by induction on the fuel *)

Lemma run_stable_all (n : nat) : run_stable n.
Proof.
  induction n as [|f IH]; intros d st l t fp st' r T Dj Ty H; cbn [Validate.validate_node] in H;
    [discriminate|].
  destruct (Validate.prelude st (VDict l) t) as [[[[l' ik] ts] tk]|] eqn:Ep; [|discriminate].
  destruct (prelude_ok_of _ _ _ _ _ _ _ Ep) as [-> [is [nd P]]].
  destruct (Validate.fill_defaults st l t tk ik) as [st_f [u|]] eqn:Ef; [|discriminate].
  destruct (Validate.sections_loop (Validate.validate_node f) st_f l t ts) as [st_e [u'|]] eqn:Es;
    [|discriminate].
  injection H as -> <-.
  pose proof P as (_ & _ & _ & _ & _ & P6 & P7 & _).
  unfold Validate.fill_defaults in Ef; rewrite (py_set_ok _ P7), (py_set_ok _ P6) in Ef.
  destruct d as [|d']; [contradiction|].
  destruct T as [cs (Efp & Hnd & Hch & Hent & Hcov & Hsub)].
  assert (Hl : In l fp) by (rewrite Efp; left; reflexivity).
  destruct (fill_loop_effect t l _ st st_f u Ef) as [ps (HmF & Hps & Hfr & Hfl & _)].
  { intros x Rx ->; exact (Dj l Rx Hl). }
  assert (Htyp : forall y D, In (y, D) ps -> exists E ty,
    Validate.find_entry st t "keywords" "keyword" y = Ok E /\
    py_getitem st E (VStr "type") = Ok ty /\ Validate.type_matches D ty = Ok true).
  { intros y D Hy; destruct (Hps y D Hy) as [E [H1 H2]].
    destruct (fill_default_typed st t y E D Ty H1 H2) as [ty [H3 H4]]; exists E, ty; auto. }
  assert (Hfree : forall D, In D (map snd ps) -> dict_free D = true).
  { intros D HD; apply in_map_iff in HD; destruct HD as [[y D'] [<- Hy]].
    destruct (Htyp y D' Hy) as [E [ty (_ & _ & Hm)]]; exact (type_matches_dict_free _ _ Hm). }
  assert (Agf : forall x, reaches st t x -> st_f x = st x).
  { intros x Rx; apply Hfr; intros ->; exact (Dj l Rx Hl). }
  assert (Hkh : keys_hashable (st l)).
  { unfold keys_hashable, dict_keys; apply forallb_forall; intros k Hk.
    apply in_map_iff in Hk; destruct Hk as [[k' w] [<- Hk]]; apply (Hent k' w Hk). }
  destruct (children_set_all (st l) ps Hfree) as [Hci Hcn].
  rewrite <- Hfl in Hci, Hcn.
  assert (Hcov' : forall c, In c (children (st_f l)) -> exists fpc, In (c, fpc) cs)
    by (intros c Hc; apply Hcov, Hci, Hc).
  assert (Hdj' : forall x, reaches st_f t x -> ~ In x fp)
    by (intros x Rx; apply Dj, (reaches_agree st st_f t Agf), Rx).
  assert (Hty' : defaults_typed st_f t) by (apply (defaults_typed_agree st st_f t Agf), Ty).
  assert (Htr : forall c fpc, In (c, fpc) cs -> tree d' st_f c fpc).
  { intros c fpc Hc; apply (tree_agree d' st); [apply Hsub, Hc|].
    intros x Hx; apply Hfr; intros ->.
    destruct (tree_child d' st l fp cs c fpc Efp Hnd Hc) as [_ Hn]; exact (Hn Hx). }
  destruct (sections_run f d' st_f l t fp cs (st_f l) IH Efp Hnd (Hcn Hch) Hcov' Hdj' Hty'
              ts [] st_f st' u' eq_refl (fun _ _ => eq_refl) Htr (fun s H => match H with end) Es)
    as (R1 & R2 & R3 & R4).
  assert (Fr : forall x, ~ In x fp -> st' x = st x).
  { intros x Hx; rewrite R2, Hfr; auto; intros ->; exact (Hx Hl). }
  split; [exact Fr|split].
  - exists cs; rewrite R1; split; [exact Efp|split; [exact Hnd|split; [exact (Hcn Hch)|split]]].
    + intros k w Hkw; rewrite Hfl in Hkw; split.
      * assert (Hk : In k (dict_keys (dict_set_all (st l) ps)))
          by (apply (in_map fst) in Hkw; exact Hkw).
        destruct (dict_set_all_keys_inv _ _ _ Hk) as [Hk' | Hk'].
        -- unfold keys_hashable in Hkh; rewrite forallb_forall in Hkh; apply Hkh, Hk'.
        -- rewrite HmF in Hk'; apply set_difference_In in Hk'; destruct Hk' as [Hk' _].
           apply dedup_incl in Hk'; rewrite forallb_forall in P7; apply P7, Hk'.
      * destruct (dict_set_all_entries_inv _ _ _ _ Hkw) as [Hw | Hw].
        -- exact (proj2 (Hent k w Hw)).
        -- left; apply Hfree, Hw.
    + split; [exact Hcov' | exact R3].
  - apply (node_stable f st st' l t fp ps is ik ts tk nd P Hkh HmF Htyp);
      [rewrite R1; exact Hfl | exact Hl | intros x Rx; apply Fr, Dj, Rx |].
    intros s Hs; destruct (R4 s Hs) as [c [fpc [tc (D & Hin & Ft & Sf)]]].
    exists c, fpc, tc; rewrite R1; split; [exact D|split].
    + exact (proj1 (tree_child d' st l fp cs c fpc Efp Hnd Hin)).
    + split; [|exact Sf]; rewrite <- Ft; symmetry; apply find_entry_agree, Agf.
Qed.

(** ** A finite set of dicts closed under reachability *)

Lemma reaches_closed (st : store) (S : list loc) (v : value) (x : loc) :
  closed_b st S = true -> (forall y, In y (dict_locs v) -> In y S) -> reaches st v x -> In x S.
Proof.
  intros Hc Hv R; induction R as [l | l k w x Hk R IH | l k w x Hk R IH | vs w x Hw R IH].
  - apply Hv; left; reflexivity.
  - apply IH; intros y Hy.
    assert (Hl : In l S) by (apply Hv; left; reflexivity).
    unfold closed_b in Hc; rewrite forallb_forall in Hc; specialize (Hc l Hl).
    rewrite forallb_forall in Hc; specialize (Hc (k, w) Hk); rewrite forallb_forall in Hc.
    specialize (Hc y (in_or_app _ _ _ (or_introl Hy))); apply existsb_exists in Hc.
    destruct Hc as [z [Hz E]]; apply Nat.eqb_eq in E; subst; exact Hz.
  - apply IH; intros y Hy.
    assert (Hl : In l S) by (apply Hv; left; reflexivity).
    unfold closed_b in Hc; rewrite forallb_forall in Hc; specialize (Hc l Hl).
    rewrite forallb_forall in Hc; specialize (Hc (k, w) Hk); rewrite forallb_forall in Hc.
    specialize (Hc y (in_or_app _ _ _ (or_intror Hy))); apply existsb_exists in Hc.
    destruct Hc as [z [Hz E]]; apply Nat.eqb_eq in E; subst; exact Hz.
  - apply IH; intros y Hy; apply Hv; cbn [dict_locs]; apply in_flat_map; eauto.
Qed.

(** C4 (amended): on an input that is a tree of nested dicts (no dict
    shared or reachable twice, non-dict values holding no dict, hashable
    keys), disjoint from the template, and a template whose every keyword
    default matches its declared type, validating again the result of a
    successful validation returns that same result and changes nothing:
    [validate_node] is idempotent there. *)
Theorem validate_node_idempotent (n d : nat) (st st1 : store) (l : loc) (t : value)
    (fp : list loc) (r : value) :
  tree d st l fp -> (forall x, reaches st t x -> ~ In x fp) -> defaults_typed st t ->
  Validate.validate_node n st (VDict l) t = (st1, Ok r) ->
  Validate.validate_node n st1 r t = (st1, Ok r).
Proof.
  intros T Dj Ty H.
  destruct (run_stable_all n d st l t fp st1 r T Dj Ty H) as (_ & _ & S).
  destruct (validate_node_grow _ _ _ _ _ _ H) as [_ ->].
  apply S; intros; reflexivity.
Qed.

Lemma validate_node_idempotent_witness :
  tree 1 store_default 1 [1] /\
  (forall x, reaches store_default (VDict 2) x -> ~ In x [1]) /\
  defaults_typed store_default (VDict 2) /\
  run_default = (fst run_default, Ok (VDict 1)) /\
  Validate.validate_node Validate.recursion_limit (fst run_default) (VDict 1) (VDict 2)
  = (fst run_default, Ok (VDict 1)).
Proof.
  assert (T : tree 1 store_default 1 [1]).
  { exists []; split; [reflexivity|split; [repeat constructor; intros []|split; [constructor|]]].
    split; [intros k w []|split; [intros c []|intros c fpc []]]. }
  assert (Dj : forall x, reaches store_default (VDict 2) x -> ~ In x [1]).
  { intros x R; apply (reaches_closed store_default [2; 3]) in R;
      [| vm_compute; reflexivity | intros y [<- | []]; cbn; tauto].
    destruct R as [<- | [<- | []]]; intros [H | []]; discriminate. }
  assert (Ty : defaults_typed store_default (VDict 2)).
  { intros x e D R [ks [xs (H1 & H2 & H3)]] HD.
    apply (reaches_closed store_default [2; 3]) in R;
      [| vm_compute; reflexivity | intros y [<- | []]; cbn; tauto].
    destruct R as [<- | [<- | []]]; vm_compute in H1; [|discriminate].
    injection H1 as <-; vm_compute in H2; injection H2 as <-.
    destruct H3 as [H3 | []]; injection H3 as <-.
    vm_compute in HD; injection HD as <-.
    exists (VStr "int"); split; vm_compute; reflexivity. }
  assert (E : run_default = (fst run_default, Ok (VDict 1))) by (vm_compute; reflexivity).
  split; [exact T|split; [exact Dj|split; [exact Ty|split; [exact E|]]]].
  exact (validate_node_idempotent Validate.recursion_limit 1 store_default (fst run_default)
           1 (VDict 2) [1] (VDict 1) T Dj Ty E).
Defined.

(** C4: validating again the result of a validation is not always a no-op:
    a template default of the wrong type is filled in by the first run
    without any type check, and the second run then rejects it. *)
Lemma validate_node_not_idempotent :
  let run1 := Validate.validate_node Validate.recursion_limit store_bad_default (VDict 1) (VDict 2) in
  run1 = (fst run1, Ok (VDict 1)) /\
  fst run1 1 = [(VStr "n", VStr "x")] /\
  Validate.validate_node Validate.recursion_limit (fst run1) (VDict 1) (VDict 2)
  = (fst run1, Exc (InputError [PLit "incorrect type for keyword: "; PStr (VStr "n");
                                 PLit ", expected '"; PStr (VStr "int"); PLit "' type"])).
Proof. vm_compute; repeat split; reflexivity. Qed.

(** ** The two [type_matches] *)

(** [types.type_matches] and [validate.type_matches] compute the same
    function: same allowed tags, same error, same answer on every value. *)
Theorem type_matches_agree (v tag : value) :
  Types.type_matches v tag = Validate.type_matches v tag.
Proof.
  unfold Types.type_matches, Validate.type_matches.
  change Validate.allowed_types with Types.allowed_types.
  destruct (negb _); [reflexivity|].
  destruct tag; try reflexivity.
  destruct (list_tag_match s); [|reflexivity].
  destruct v; try reflexivity.
  cbn [Types._type_check_list Types._type_check_scalar]; rewrite elements_match_forallb; reflexivity.
Qed.

(** ** [type_fixers] on values that already match *)

Lemma map_ctor_str_id (st : store) (xs : list value) :
  forallb (fun x => String.eqb (type_name x) "str") xs = true ->
  Types.map_ctor st Types.CStr xs = Some (Ok xs).
Proof.
  induction xs as [|x xs IH]; cbn; intro H; [reflexivity|].
  apply andb_prop in H as [H1 H2]; rewrite (IH H2).
  destruct x; try discriminate; reflexivity.
Qed.

(** For the five scalar tags and for [List[str]], [type_fixers[t](v)]
    returns [v] itself when [type_matches(v, t)] holds. *)
Theorem coerce_matching_identity (st : store) (v : value) (T : string) :
  In T ("List[str]" :: spec_scalar_tags) ->
  Types.type_matches v (VStr T) = Ok true ->
  Types.coerce st v T = Some (Ok v).
Proof.
  intros HT Hm; tag_cases HT; unfold Types.type_matches in Hm; cbn in Hm;
    destruct v as [| | | | |s|xs|]; try discriminate; try reflexivity.
  injection Hm as Hm; unfold Types.coerce; cbn.
  rewrite (map_ctor_str_id st xs Hm); reflexivity.
Qed.

Lemma coerce_matching_identity_witness :
  In "List[str]" ("List[str]" :: spec_scalar_tags) /\
  Types.type_matches (VList [VStr "a"; VStr "b"]) (VStr "List[str]") = Ok true /\
  Types.coerce empty_store (VList [VStr "a"; VStr "b"]) "List[str]"
  = Some (Ok (VList [VStr "a"; VStr "b"])).
Proof.
  assert (H1 : In "List[str]" ("List[str]" :: spec_scalar_tags)) by (left; reflexivity).
  assert (H2 : Types.type_matches (VList [VStr "a"; VStr "b"]) (VStr "List[str]") = Ok true)
    by (vm_compute; reflexivity).
  split; [exact H1|split; [exact H2|]].
  exact (coerce_matching_identity empty_store _ _ H1 H2).
Defined.

(** The values [type_fixers] produces are never [None]. *)
Lemma coerce_not_none (st : store) (x : value) (s : string) (y : value) :
  Types.coerce st x s = Some (Ok y) -> y <> VNone.
Proof.
  unfold Types.coerce; destruct (Types.lookup_fixer _ s) as [[c|]|]; intro H.
  - destruct c, x; cbn in H;
      try (destruct (Types.float_exact _) in H);
      try discriminate; injection H as <-; discriminate.
  - destruct (py_iter st x); [|discriminate].
    destruct (Types.map_ctor _ _ _) as [[ys|]|]; try discriminate.
    injection H as <-; discriminate.
  - discriminate.
Qed.

(** ** [rec_typenade]: the loop over [incoming.items()] *)

Lemma obind_ok {A B} (r : option (result A)) (k : A -> option (result B)) (b : B) :
  Typenade.obind r k = Some (Ok b) -> exists a, r = Some (Ok a) /\ k a = Some (Ok b).
Proof. destruct r as [[a|e]|]; cbn; intro H; [eauto|discriminate|discriminate]. Qed.

Section ItemsLoop.
Variable rec : value -> value -> list value -> option (result (otree * list error)).
Variables (st : store) (incoming types : value) (fixate : bool) (address : list value).

Definition item_step (kw : value * value) (r : value * otree * list error) : Prop :=
  fst (fst r) = fst kw /\
  Typenade.typenade_item rec st incoming types fixate address (fst kw) (snd kw)
  = Some (Ok (snd (fst r), snd r)).

Lemma items_loop_inv (items : dict) :
  forall outgoing errors o errs,
  Typenade.items_loop rec st incoming types fixate address items outgoing errors = Some (Ok (o, errs)) ->
  exists rs, Forall2 item_step items rs /\
    o = ODict (fold_left (fun acc r => oset acc (fst (fst r)) (snd (fst r))) rs outgoing) /\
    errs = app errors (concat (map snd rs)).
Proof.
  induction items as [|[k v] items IH]; cbn; intros outgoing errors o errs H.
  - injection H as <- <-; exists []; cbn; rewrite app_nil_r; auto.
  - apply obind_ok in H; destruct H as [[o1 es] [H1 H2]]; simpl in H2.
    destruct (IH _ _ _ _ H2) as (rs & F & -> & ->).
    exists ((k, o1, es) :: rs); cbn; split; [constructor; [split; auto|exact F]|split; [reflexivity|]].
    rewrite app_assoc; reflexivity.
Qed.

Lemma item_steps_keys (items : dict) rs :
  Forall2 item_step items rs -> map (fun r => fst (fst r)) rs = map fst items.
Proof. induction 1 as [|kw r items rs [E _] _ IH]; cbn; [reflexivity|rewrite E, IH; reflexivity]. Qed.

End ItemsLoop.

Lemma distinct_keys_app_cons (xs ys : list value) (y : value) :
  distinct_keys (app xs (y :: ys)) = true -> forallb (fun x => negb (py_eq x y)) xs = true.
Proof.
  induction xs as [|x xs IH]; cbn; intro H; [reflexivity|].
  apply andb_prop in H as [H1 H2]; rewrite forallb_forall in H1.
  rewrite (H1 y (in_or_app xs (y :: ys) y (or_intror (or_introl eq_refl)))); exact (IH H2).
Qed.

Lemma oset_new (d : list (value * otree)) (k : value) (o : otree) :
  forallb (fun x => negb (py_eq x k)) (map fst d) = true -> oset d k o = app d [(k, o)].
Proof.
  induction d as [|[k' o'] d IH]; cbn; intro H; [reflexivity|].
  apply andb_prop in H as [H1 H2]; apply negb_true_iff in H1; rewrite H1, (IH H2); reflexivity.
Qed.

Lemma fold_oset_distinct (rs : list (value * otree * list error)) :
  forall outgoing,
  distinct_keys (app (map fst outgoing) (map (fun r => fst (fst r)) rs)) = true ->
  fold_left (fun acc r => oset acc (fst (fst r)) (snd (fst r))) rs outgoing
  = app outgoing (map (fun r => (fst (fst r), snd (fst r))) rs).
Proof.
  induction rs as [|r rs IH]; cbn; intros outgoing H; [rewrite app_nil_r; reflexivity|].
  rewrite (oset_new _ _ _ (distinct_keys_app_cons _ _ _ H)), IH.
  - rewrite <- app_assoc; reflexivity.
  - rewrite map_app, <- app_assoc; exact H.
Qed.

(** One level of [rec_typenade] on a dict with distinct keys: one step per
    item, [outgoing] in the order of [incoming], the errors concatenated. *)
Lemma rec_typenade_dict (f : nat) (st : store) (l : loc) (types : value) (fixate : bool)
    (address : list value) (o : otree) (errs : list error) :
  Typenade.rec_typenade (S f) st (VDict l) types fixate address = Some (Ok (o, errs)) ->
  distinct_keys (dict_keys (st l)) = true ->
  exists rs,
    Forall2 (item_step (fun v tk addr => Typenade.rec_typenade f st v tk fixate addr)
               st (VDict l) types fixate address) (st l) rs /\
    o = ODict (map (fun r => (fst (fst r), snd (fst r))) rs) /\
    errs = concat (map snd rs).
Proof.
  cbn [Typenade.rec_typenade]; intros H D.
  destruct (items_loop_inv _ _ _ _ _ _ _ _ _ _ _ H) as (rs & F & -> & ->).
  exists rs; split; [exact F|split; [|reflexivity]].
  rewrite fold_oset_distinct; [reflexivity|].
  cbn; rewrite (item_steps_keys _ _ _ _ _ _ _ _ F); exact D.
Qed.

(** The two branches of the loop body. *)
Lemma typenade_item_dict rec (st : store) (incoming types : value) (fixate : bool)
    (address : list value) (k : value) (l : loc) (o : otree) (es : list error) :
  Typenade.typenade_item rec st incoming types fixate address k (VDict l) = Some (Ok (o, es)) ->
  exists tk, py_getitem st types k = Ok tk /\ rec (VDict l) tk (app address [k]) = Some (Ok (o, es)).
Proof.
  intro H.
  change (Typenade.obind (Some (py_getitem st types k)) (fun tk => rec (VDict l) tk (app address [k]))
          = Some (Ok (o, es))) in H.
  apply obind_ok in H as [tk [H1 H2]]; injection H1 as H1; eauto.
Qed.

Lemma typenade_item_leaf rec (st : store) (incoming types : value) (fixate : bool)
    (address : list value) (k v : value) (o : otree) (es : list error) :
  (forall l, v <> VDict l) ->
  Typenade.typenade_item rec st incoming types fixate address k v = Some (Ok (o, es)) ->
  exists declared w,
    py_getitem st types k = Ok declared /\ py_getitem st incoming k = Ok w /\
    ((w = VNone /\ o = OLeaf VNone /\
      es = [{| err_address := app address [k]; err_message := Typenade.required_msg k |}]) \/
     (w <> VNone /\ Types.type_matches w declared = Ok true /\ es = [] /\
      exists x, (if fixate then Typenade.fix_value st declared w else Some (Ok w)) = Some (Ok x) /\
                o = OLeaf x) \/
     (w <> VNone /\ Types.type_matches w declared = Ok false /\ o = OLeaf VNone /\
      es = [{| err_address := app address [k]; err_message := Typenade.mismatch_msg w declared |}])).
Proof.
  intros Hv H.
  assert (E : Typenade.typenade_item rec st incoming types fixate address k v =
    Typenade.obind (Some (py_getitem st types k)) (fun declared =>
    Typenade.obind (Some (py_getitem st incoming k)) (fun w =>
    match w with
    | VNone =>
        Some (Ok (OLeaf VNone, [{| err_address := app address [k];
                                   err_message := Typenade.required_msg k |}]))
    | _ =>
        Typenade.obind (Some (Types.type_matches w declared)) (fun b =>
        if b then
          Typenade.obind (if fixate then Typenade.fix_value st declared w else Some (Ok w)) (fun x =>
          Some (Ok (OLeaf x, [])))
        else
          Some (Ok (OLeaf VNone, [{| err_address := app address [k];
                                     err_message := Typenade.mismatch_msg w declared |}])))
    end))).
  { destruct v; try reflexivity; exfalso; eapply Hv; reflexivity. }
  rewrite E in H; clear E.
  apply obind_ok in H as [declared [H1 H]]; injection H1 as H1.
  apply obind_ok in H as [w [H2 H]]; injection H2 as H2.
  exists declared, w; split; [exact H1|split; [exact H2|]].
  destruct w; [left; injection H as <- <-; auto|..];
    right; apply obind_ok in H as [bm [H3 H]]; injection H3 as H3;
    (destruct bm;
     [ left; apply obind_ok in H as [x [Hx Hk]]; injection Hk as <- <-; repeat split; eauto; discriminate
     | right; injection H as <- <-; repeat split; auto; discriminate ]).
Qed.

(** ** [rec_typenade]: errors and [None] leaves *)

Lemma value_dict_cases (v : value) : (exists l, v = VDict l) \/ (forall l, v <> VDict l).
Proof. destruct v; [right; intros ? ?; discriminate..|left; eauto]. Qed.

Lemma none_leaves_dict (es : list (value * otree)) :
  none_leaves (ODict es) = list_sum (map (fun e => none_leaves (snd e)) es).
Proof. induction es as [|[k o] es IH]; cbn; [reflexivity|]; cbn in IH; rewrite IH; reflexivity. Qed.

Lemma distinct_tree_child (st : store) (l : loc) (k w : value) :
  distinct_tree st (VDict l) -> In (k, w) (st l) -> distinct_tree st w.
Proof. intros D Hin x R; apply D; exact (reaches_value st l k w x Hin R). Qed.

Lemma distinct_tree_of_closed (st : store) (S : list loc) (v : value) :
  closed_b st S = true -> (forall y, In y (dict_locs v) -> In y S) ->
  forallb (fun x => distinct_keys (dict_keys (st x))) S = true -> distinct_tree st v.
Proof.
  intros C Hv F x R; apply (reaches_closed st S v x C Hv) in R.
  rewrite forallb_forall in F; exact (F x R).
Qed.

Lemma fix_value_not_none (st : store) (declared w x : value) :
  Typenade.fix_value st declared w = Some (Ok x) -> x <> VNone.
Proof. destruct declared; try discriminate; apply coerce_not_none. Qed.

Lemma concat_length_sum {A : Type} (P : A -> value * otree * list error -> Prop) items rs :
  Forall2 P items rs ->
  (forall a r, In a items -> P a r -> length (snd r) = none_leaves (snd (fst r))) ->
  length (concat (map snd rs)) = list_sum (map (fun e => none_leaves (snd e))
                                              (map (fun r => (fst (fst r), snd (fst r))) rs)).
Proof.
  induction 1 as [|a r items rs Hp _ IH]; cbn; intro H; [reflexivity|].
  rewrite length_app, (H a r (or_introl eq_refl) Hp), IH; [reflexivity|].
  intros a' r' Ha'; apply H; right; exact Ha'.
Qed.

Lemma errors_none_leaves (n : nat) :
  forall st v types fixate address o errs,
  Typenade.rec_typenade n st v types fixate address = Some (Ok (o, errs)) ->
  distinct_tree st v -> length errs = none_leaves o.
Proof.
  induction n as [|f IH]; intros st v types fixate address o errs H D; [discriminate|].
  destruct v as [| | | | | | |l]; try discriminate.
  destruct (rec_typenade_dict f st l types fixate address o errs H (D l (reaches_here st l)))
    as (rs & F & -> & ->).
  rewrite none_leaves_dict; apply (concat_length_sum _ _ _ F).
  intros [k w] [[k' o'] es] Hin [_ Hs]; cbn in Hs |- *.
  destruct (value_dict_cases w) as [[l' ->] | Hw].
  - apply typenade_item_dict in Hs as [tk [_ Hr]].
    exact (IH _ _ _ _ _ _ _ Hr (distinct_tree_child st l k _ D Hin)).
  - apply typenade_item_leaf in Hs as (declared & w' & _ & _ & C); [|exact Hw].
    destruct C as [(_ & -> & ->) | [(Hn & _ & -> & x & Hx & ->) | (_ & _ & -> & ->)]];
      try reflexivity.
    assert (Nx : x <> VNone).
    { destruct fixate; [exact (fix_value_not_none _ _ _ _ Hx)|injection Hx as <-; exact Hn]. }
    destruct x; [contradiction|reflexivity..].
Qed.

(** On an input whose dicts have distinct keys, [rec_typenade] reports
    exactly one error per [None] value of its [outgoing] dict: each error
    sets its keyword to [None], and a matching value is never turned into
    [None] by [type_fixers]. *)
Theorem rec_typenade_errors_none_leaves (n : nat) (st : store) (v types : value) (fixate : bool)
    (address : list value) (o : otree) (errs : list error) :
  Typenade.rec_typenade n st v types fixate address = Some (Ok (o, errs)) ->
  distinct_tree st v -> length errs = none_leaves o.
Proof. apply errors_none_leaves. Qed.

Lemma rec_typenade_errors_none_leaves_witness :
  Typenade.rec_typenade Validate.recursion_limit store_typenade (VDict 1) (VDict 3) true []
  = Some (Ok (fst typenade_out1, snd typenade_out1)) /\
  distinct_tree store_typenade (VDict 1) /\
  length (snd typenade_out1) = none_leaves (fst typenade_out1) /\
  length (snd typenade_out1) = 2.
Proof.
  assert (E : Typenade.rec_typenade Validate.recursion_limit store_typenade (VDict 1) (VDict 3) true []
              = Some (Ok (fst typenade_out1, snd typenade_out1))) by (vm_compute; reflexivity).
  assert (D : distinct_tree store_typenade (VDict 1)).
  { apply (distinct_tree_of_closed store_typenade [1; 2]);
      [vm_compute; reflexivity | intros y [<- | []]; cbn; tauto | vm_compute; reflexivity]. }
  split; [exact E|split; [exact D|split; [|vm_compute; reflexivity]]].
  exact (rec_typenade_errors_none_leaves _ _ _ _ _ _ _ _ E D).
Defined.

(** A successful [typenade] on an input whose dicts have distinct keys
    returns a dict with no [None] value anywhere. *)
Theorem typenade_ok_no_none (st : store) (incoming types : value) (o : otree) :
  Typenade.typenade st incoming types = Some (Ok o) -> distinct_tree st incoming ->
  none_leaves o = 0.
Proof.
  unfold Typenade.typenade; intros H D.
  apply obind_ok in H as [[o' errs] [H1 H2]]; cbn in H2.
  destruct errs; [injection H2 as ->|discriminate].
  symmetry; exact (errors_none_leaves _ _ _ _ _ _ _ _ H1 D).
Qed.

Lemma typenade_ok_no_none_witness :
  Typenade.typenade store_typenade (VDict 5) (VDict 3) = Some (Ok typenade_out5) /\
  distinct_tree store_typenade (VDict 5) /\ none_leaves typenade_out5 = 0.
Proof.
  assert (E : Typenade.typenade store_typenade (VDict 5) (VDict 3) = Some (Ok typenade_out5))
    by (vm_compute; reflexivity).
  assert (D : distinct_tree store_typenade (VDict 5)).
  { apply (distinct_tree_of_closed store_typenade [5; 2]);
      [vm_compute; reflexivity | intros y [<- | []]; cbn; tauto | vm_compute; reflexivity]. }
  split; [exact E|split; [exact D|]].
  exact (typenade_ok_no_none _ _ _ _ E D).
Defined.

(** ** [rec_typenade]: one keyword at a time *)

Lemma Forall2_In_l {A B : Type} (P : A -> B -> Prop) xs ys x :
  Forall2 P xs ys -> In x xs -> exists y, In y ys /\ P x y.
Proof.
  induction 1 as [|a b xs ys Hp _ IH]; [intros []|intros [<- | Hx]].
  - exists b; split; [left|]; auto.
  - destruct (IH Hx) as [y [Hy Py]]; exists y; split; [right|]; auto.
Qed.

Lemma dict_find_distinct_In (d : dict) (k w : value) :
  distinct_keys (dict_keys d) = true -> In (k, w) d -> dict_find d k = Some w.
Proof.
  induction d as [|[k0 w0] d IH]; cbn; intros D Hin; [contradiction|].
  apply andb_prop in D as [D1 D2].
  destruct Hin as [E | Hin].
  - injection E as -> ->; rewrite py_eq_refl; reflexivity.
  - rewrite forallb_forall in D1.
    specialize (D1 k (in_map fst d (k, w) Hin)); apply negb_true_iff in D1.
    rewrite D1; exact (IH D2 Hin).
Qed.

Lemma rec_typenade_ok_dict (f : nat) (st : store) (l : loc) (types : value) (fixate : bool)
    (address : list value) (o : otree) (errs : list error) :
  Typenade.rec_typenade (S f) st (VDict l) types fixate address = Some (Ok (o, errs)) ->
  exists rs,
    Forall2 (item_step (fun v tk addr => Typenade.rec_typenade f st v tk fixate addr)
               st (VDict l) types fixate address) (st l) rs /\
    errs = concat (map snd rs).
Proof.
  cbn [Typenade.rec_typenade]; intro H.
  destruct (items_loop_inv _ _ _ _ _ _ _ _ _ _ _ H) as (rs & F & _ & ->); eauto.
Qed.

Lemma in_outgoing (rs : list (value * otree * list error)) (r : value * otree * list error) :
  In r rs -> In (fst (fst r), snd (fst r)) (map (fun r => (fst (fst r), snd (fst r))) rs).
Proof. apply (in_map (fun r => (fst (fst r), snd (fst r)))). Qed.

Lemma in_errors (rs : list (value * otree * list error)) (r : value * otree * list error) e :
  In r rs -> In e (snd r) -> In e (concat (map snd rs)).
Proof. intros Hr He; apply in_concat; exists (snd r); split; [apply in_map|]; auto. Qed.

(** A keyword whose input value is [None] gets [None] in [outgoing] and
    the error ["Keyword 'k' is required but has no value"] at
    [address + (k,)]. *)
Theorem rec_typenade_none_value (f : nat) (st : store) (l : loc) (types : value)
    (fixate : bool) (address : list value) (o : otree) (errs : list error) (k : value) :
  Typenade.rec_typenade (S f) st (VDict l) types fixate address = Some (Ok (o, errs)) ->
  distinct_keys (dict_keys (st l)) = true -> In (k, VNone) (st l) ->
  exists es, o = ODict es /\ In (k, OLeaf VNone) es /\
    In {| err_address := app address [k]; err_message := Typenade.required_msg k |} errs.
Proof.
  intros H D Hin.
  destruct (rec_typenade_dict _ _ _ _ _ _ _ _ H D) as (rs & F & -> & ->).
  destruct (Forall2_In_l _ _ _ _ F Hin) as [[[k' o'] es] [Hr [Ek Hs]]]; cbn [fst snd] in Ek, Hs; subst k'.
  apply typenade_item_leaf in Hs as (declared & w & _ & Hw & C); [|intros ? ?; discriminate].
  apply getitem_dict_ok in Hw as [_ Hw]; rewrite (dict_find_distinct_In _ _ _ D Hin) in Hw.
  injection Hw as <-.
  destruct C as [(_ & -> & ->) | [(Hn & _) | (Hn & _)]]; [|contradiction..].
  eexists; split; [reflexivity|split].
  - exact (in_outgoing _ _ Hr).
  - exact (in_errors _ _ _ Hr (or_introl eq_refl)).
Qed.

Lemma rec_typenade_none_value_witness :
  Typenade.rec_typenade Validate.recursion_limit store_typenade (VDict 1) (VDict 3) true []
  = Some (Ok (fst typenade_out1, snd typenade_out1)) /\
  distinct_keys (dict_keys (store_typenade 1)) = true /\
  In (VStr "a", VNone) (store_typenade 1) /\
  exists es, fst typenade_out1 = ODict es /\ In (VStr "a", OLeaf VNone) es /\
    In {| err_address := [VStr "a"]; err_message := Typenade.required_msg (VStr "a") |}
       (snd typenade_out1).
Proof.
  assert (E : Typenade.rec_typenade Validate.recursion_limit store_typenade (VDict 1) (VDict 3) true []
              = Some (Ok (fst typenade_out1, snd typenade_out1))) by (vm_compute; reflexivity).
  assert (D : distinct_keys (dict_keys (store_typenade 1)) = true) by (vm_compute; reflexivity).
  assert (Hin : In (VStr "a", VNone) (store_typenade 1)) by (cbn; tauto).
  split; [exact E|split; [exact D|split; [exact Hin|]]].
  exact (rec_typenade_none_value 999 store_typenade 1 (VDict 3) true [] _ _ (VStr "a") E D Hin).
Defined.

Lemma string_app_nil_r (s : string) : (s ++ "")%string = s.
Proof. induction s as [|c s IH]; cbn; [reflexivity|rewrite IH; reflexivity]. Qed.

(** A keyword whose value is neither a dict nor [None] and does not match
    its declared type gets [None] in [outgoing] and an error at
    [address + (k,)] whose message names both the actual type of the value
    and the declared one. *)
Theorem rec_typenade_mismatch (f : nat) (st : store) (l : loc) (types : value)
    (fixate : bool) (address : list value) (o : otree) (errs : list error)
    (k w declared : value) :
  Typenade.rec_typenade (S f) st (VDict l) types fixate address = Some (Ok (o, errs)) ->
  distinct_keys (dict_keys (st l)) = true -> In (k, w) (st l) ->
  (forall l', w <> VDict l') -> w <> VNone ->
  py_getitem st types k = Ok declared -> Types.type_matches w declared = Ok false ->
  exists es, o = ODict es /\ In (k, OLeaf VNone) es /\
    In {| err_address := app address [k]; err_message := Typenade.mismatch_msg w declared |} errs /\
    (forall s, declared = VStr s ->
       render (Typenade.mismatch_msg w declared)
       = Some ("Actual (" ++ type_name w ++ ") and declared (" ++ s ++ ") types do not match")).
Proof.
  intros H D Hin Hd Hn Ht Hm.
  destruct (rec_typenade_dict _ _ _ _ _ _ _ _ H D) as (rs & F & -> & ->).
  destruct (Forall2_In_l _ _ _ _ F Hin) as [[[k' o'] es] [Hr [Ek Hs]]];
    cbn [fst snd] in Ek, Hs; subst k'.
  apply typenade_item_leaf in Hs as (declared' & w' & Ht' & Hw & C); [|exact Hd].
  rewrite Ht in Ht'; injection Ht' as <-.
  apply getitem_dict_ok in Hw as [_ Hw]; rewrite (dict_find_distinct_In _ _ _ D Hin) in Hw.
  injection Hw as <-.
  destruct C as [(E & _) | [(_ & Hm' & _) | (_ & _ & -> & ->)]];
    [contradiction | rewrite Hm in Hm'; discriminate |].
  eexists; split; [reflexivity|split; [|split]].
  - exact (in_outgoing _ _ Hr).
  - exact (in_errors _ _ _ Hr (or_introl eq_refl)).
  - intros s ->; cbn [render fold_right Typenade.mismatch_msg]; rewrite string_app_nil_r; reflexivity.
Qed.

Lemma rec_typenade_mismatch_witness :
  Typenade.rec_typenade Validate.recursion_limit store_typenade (VDict 1) (VDict 3) true []
  = Some (Ok (fst typenade_out1, snd typenade_out1)) /\
  distinct_keys (dict_keys (store_typenade 1)) = true /\
  In (VStr "b", VStr "5") (store_typenade 1) /\
  py_getitem store_typenade (VDict 3) (VStr "b") = Ok (VStr "int") /\
  Types.type_matches (VStr "5") (VStr "int") = Ok false /\
  exists es, fst typenade_out1 = ODict es /\ In (VStr "b", OLeaf VNone) es /\
    In {| err_address := [VStr "b"];
          err_message := Typenade.mismatch_msg (VStr "5") (VStr "int") |} (snd typenade_out1) /\
    (forall s, VStr "int" = VStr s ->
       render (Typenade.mismatch_msg (VStr "5") (VStr "int"))
       = Some ("Actual (" ++ type_name (VStr "5") ++ ") and declared (" ++ s ++ ") types do not match")).
Proof.
  assert (E : Typenade.rec_typenade Validate.recursion_limit store_typenade (VDict 1) (VDict 3) true []
              = Some (Ok (fst typenade_out1, snd typenade_out1))) by (vm_compute; reflexivity).
  assert (D : distinct_keys (dict_keys (store_typenade 1)) = true) by (vm_compute; reflexivity).
  assert (Hin : In (VStr "b", VStr "5") (store_typenade 1)) by (cbn; tauto).
  assert (Hg : py_getitem store_typenade (VDict 3) (VStr "b") = Ok (VStr "int"))
    by (vm_compute; reflexivity).
  assert (Hm : Types.type_matches (VStr "5") (VStr "int") = Ok false) by (vm_compute; reflexivity).
  split; [exact E|split; [exact D|split; [exact Hin|split; [exact Hg|split; [exact Hm|]]]]].
  exact (rec_typenade_mismatch 999 store_typenade 1 (VDict 3) true [] _ _ (VStr "b") (VStr "5")
           (VStr "int") E D Hin ltac:(intros ? ?; discriminate) ltac:(discriminate) Hg Hm).
Defined.

(** Every key of [incoming] must be a key of [types], also for a nested
    dict: [types[k]] is read for every item, so a successful
    [rec_typenade] means all keys were declared. *)
Theorem rec_typenade_keys_declared (f : nat) (st : store) (l lt : loc) (fixate : bool)
    (address : list value) (o : otree) (errs : list error) (k w : value) :
  Typenade.rec_typenade (S f) st (VDict l) (VDict lt) fixate address = Some (Ok (o, errs)) ->
  In (k, w) (st l) -> has_key (st lt) k = true.
Proof.
  intros H Hin.
  destruct (rec_typenade_ok_dict _ _ _ _ _ _ _ _ H) as (rs & F & _).
  destruct (Forall2_In_l _ _ _ _ F Hin) as [[[k' o'] es] [_ [Ek Hs]]];
    cbn [fst snd] in Ek, Hs; subst k'.
  assert (Hg : exists tk, py_getitem st (VDict lt) k = Ok tk).
  { destruct (value_dict_cases w) as [[l' ->] | Hw].
    - apply typenade_item_dict in Hs as [tk [Hg _]]; eauto.
    - apply typenade_item_leaf in Hs as (declared & _ & Hg & _); eauto. }
  destruct Hg as [tk Hg]; apply getitem_dict_ok in Hg as [_ Hg].
  exact (dict_find_some_exists _ _ _ Hg).
Qed.

Lemma rec_typenade_keys_declared_witness :
  Typenade.rec_typenade Validate.recursion_limit store_typenade (VDict 1) (VDict 3) true []
  = Some (Ok (fst typenade_out1, snd typenade_out1)) /\
  In (VStr "c", VDict 2) (store_typenade 1) /\ has_key (store_typenade 3) (VStr "c") = true.
Proof.
  assert (E : Typenade.rec_typenade Validate.recursion_limit store_typenade (VDict 1) (VDict 3) true []
              = Some (Ok (fst typenade_out1, snd typenade_out1))) by (vm_compute; reflexivity).
  assert (Hin : In (VStr "c", VDict 2) (store_typenade 1)) by (cbn; tauto).
  split; [exact E|split; [exact Hin|]].
  exact (rec_typenade_keys_declared 999 store_typenade 1 3 true [] _ _ (VStr "c") (VDict 2) E Hin).
Defined.

Lemma snapshot_items_of (snap : value -> option otree) (P : value * value -> value * otree * list error -> Prop)
    (items : dict) rs :
  Forall2 P items rs ->
  (forall kw r, In kw items -> P kw r -> snd r = [] ->
     fst (fst r) = fst kw /\ snap (snd kw) = Some (snd (fst r))) ->
  concat (map snd rs) = [] ->
  snapshot_items snap items = Some (map (fun r => (fst (fst r), snd (fst r))) rs).
Proof.
  induction 1 as [|[k w] r items rs Hp _ IH]; cbn; intros H C; [reflexivity|].
  apply app_eq_nil in C as [C1 C2].
  destruct (H (k, w) r (or_introl eq_refl) Hp C1) as [Ek Hs]; cbn in Ek, Hs.
  rewrite Hs, IH; [rewrite Ek; reflexivity| |exact C2].
  intros kw r' Hin; apply H; right; exact Hin.
Qed.

Lemma snapshot_leaf (fuel : nat) (st : store) (w : value) :
  (forall l, w <> VDict l) -> snapshot fuel st w = Some (OLeaf w).
Proof. intro H; destruct fuel, w; try reflexivity; exfalso; eapply H; reflexivity. Qed.

(** With [fixate=False], a [rec_typenade] that reports no error returns a
    copy of [incoming]: the same keys in the same order, the same
    values, nested dicts copied in turn. *)
Theorem rec_typenade_nofix_copy (n : nat) :
  forall st v types address o,
  Typenade.rec_typenade n st v types false address = Some (Ok (o, [])) ->
  distinct_tree st v -> snapshot n st v = Some o.
Proof.
  induction n as [|f IH]; intros st v types address o H D; [discriminate|].
  destruct v as [| | | | | | |l]; try discriminate.
  destruct (rec_typenade_dict f st l types false address o [] H (D l (reaches_here st l)))
    as (rs & F & -> & C).
  cbn [snapshot]; rewrite (snapshot_items_of _ _ _ _ F); [reflexivity| |symmetry; exact C].
  intros [k w] [[k' o'] es] Hin [Ek Hs] Hes; cbn [fst snd] in Ek, Hs, Hes |- *; subst k' es.
  split; [reflexivity|].
  destruct (value_dict_cases w) as [[l' ->] | Hw].
  - apply typenade_item_dict in Hs as [tk [_ Hr]].
    exact (IH _ _ _ _ _ Hr (distinct_tree_child st l k _ D Hin)).
  - rewrite (snapshot_leaf f st w Hw).
    apply typenade_item_leaf in Hs as (declared & w' & _ & Hg & C'); [|exact Hw].
    apply getitem_dict_ok in Hg as [_ Hg].
    rewrite (dict_find_distinct_In _ _ _ (D l (reaches_here st l)) Hin) in Hg.
    injection Hg as <-.
    destruct C' as [(_ & _ & E) | [(_ & _ & _ & x & Hx & ->) | (_ & _ & _ & E)]];
      [discriminate | | discriminate].
    injection Hx as <-; reflexivity.
Qed.

Lemma rec_typenade_nofix_copy_witness :
  Typenade.rec_typenade Validate.recursion_limit store_typenade (VDict 5) (VDict 3) false []
  = Some (Ok (typenade_out5, [])) /\
  distinct_tree store_typenade (VDict 5) /\
  snapshot Validate.recursion_limit store_typenade (VDict 5) = Some typenade_out5.
Proof.
  assert (E : Typenade.rec_typenade Validate.recursion_limit store_typenade (VDict 5) (VDict 3) false []
              = Some (Ok (typenade_out5, []))) by (vm_compute; reflexivity).
  assert (D : distinct_tree store_typenade (VDict 5)).
  { apply (distinct_tree_of_closed store_typenade [5; 2]);
      [vm_compute; reflexivity | intros y [<- | []]; cbn; tauto | vm_compute; reflexivity]. }
  split; [exact E|split; [exact D|]].
  exact (rec_typenade_nofix_copy _ _ _ _ _ _ E D).
Defined.

(** ** [rec_typenade]: addresses and shape *)

Lemma Forall2_In_r {A B : Type} (P : A -> B -> Prop) xs ys y :
  Forall2 P xs ys -> In y ys -> exists x, In x xs /\ P x y.
Proof.
  induction 1 as [|a b xs ys Hp _ IH]; [intros []|intros [<- | Hy]].
  - exists a; split; [left|]; auto.
  - destruct (IH Hy) as [x [Hx Px]]; exists x; split; [right|]; auto.
Qed.

Lemma in_concat_snd (rs : list (value * otree * list error)) e :
  In e (concat (map snd rs)) -> exists r, In r rs /\ In e (snd r).
Proof.
  intro H; apply in_concat in H as [es [Hes He]].
  apply in_map_iff in Hes as [r [<- Hr]]; eauto.
Qed.

(** On an input whose dicts have distinct keys, the address of every
    error [rec_typenade] reports is [address] followed by a non-empty
    path of keys that leads, through [incoming], to a value that is not a
    dict: the keyword the error is about. *)
Theorem rec_typenade_error_address (n : nat) :
  forall st v types fixate address o errs,
  Typenade.rec_typenade n st v types fixate address = Some (Ok (o, errs)) ->
  distinct_tree st v ->
  forall e, In e errs ->
  exists p w, err_address e = app address p /\ p <> [] /\ follow st v p = Some w /\
              (forall l, w <> VDict l).
Proof.
  induction n as [|f IH]; intros st v types fixate address o errs H D e He; [discriminate|].
  destruct v as [| | | | | | |l]; try discriminate.
  pose proof (D l (reaches_here st l)) as Dl.
  destruct (rec_typenade_dict f st l types fixate address o errs H Dl) as (rs & F & _ & ->).
  destruct (in_concat_snd _ _ He) as [[[k' o'] es] [Hr He']]; cbn [snd] in He'.
  destruct (Forall2_In_r _ _ _ _ F Hr) as [[k w] [Hin [Ek Hs]]]; cbn [fst snd] in Ek, Hs; subst k'.
  destruct (value_dict_cases w) as [[l' ->] | Hw].
  - apply typenade_item_dict in Hs as [tk [_ Hrec]].
    destruct (IH _ _ _ _ _ _ _ Hrec (distinct_tree_child st l k _ D Hin) e He')
      as (p & w' & Ea & Np & Hf & Hw').
    exists (k :: p), w'; split; [rewrite Ea, <- app_assoc; reflexivity|split; [discriminate|]].
    cbn [follow]; rewrite (dict_find_distinct_In _ _ _ Dl Hin); auto.
  - apply typenade_item_leaf in Hs as (declared & w' & _ & _ & C); [|exact Hw].
    assert (Ea : err_address e = app address [k]).
    { destruct C as [(_ & _ & ->) | [(_ & _ & -> & _) | (_ & _ & _ & ->)]];
        [destruct He' as [<- | []]; reflexivity | contradiction | destruct He' as [<- | []]; reflexivity]. }
    exists [k], w; split; [exact Ea|split; [discriminate|]].
    cbn [follow]; rewrite (dict_find_distinct_In _ _ _ Dl Hin); auto.
Qed.

Lemma rec_typenade_error_address_witness :
  Typenade.rec_typenade Validate.recursion_limit store_typenade (VDict 1) (VDict 3) true []
  = Some (Ok (fst typenade_out1, snd typenade_out1)) /\
  distinct_tree store_typenade (VDict 1) /\
  In {| err_address := [VStr "a"]; err_message := Typenade.required_msg (VStr "a") |}
     (snd typenade_out1) /\
  exists p w, [VStr "a"] = app [] p /\ p <> [] /\ follow store_typenade (VDict 1) p = Some w /\
              (forall l, w <> VDict l).
Proof.
  assert (E : Typenade.rec_typenade Validate.recursion_limit store_typenade (VDict 1) (VDict 3) true []
              = Some (Ok (fst typenade_out1, snd typenade_out1))) by (vm_compute; reflexivity).
  assert (D : distinct_tree store_typenade (VDict 1)).
  { apply (distinct_tree_of_closed store_typenade [1; 2]);
      [vm_compute; reflexivity | intros y [<- | []]; cbn; tauto | vm_compute; reflexivity]. }
  assert (He : In {| err_address := [VStr "a"]; err_message := Typenade.required_msg (VStr "a") |}
                  (snd typenade_out1)) by (vm_compute; left; reflexivity).
  split; [exact E|split; [exact D|split; [exact He|]]].
  exact (rec_typenade_error_address _ _ _ _ _ _ _ _ E D _ He).
Defined.

(** On a dict with distinct keys, [outgoing] has the keys of [incoming] in
    the same order; a dict value gives a dict, any other value a leaf. *)
Theorem rec_typenade_shape (f : nat) (st : store) (l : loc) (types : value) (fixate : bool)
    (address : list value) (o : otree) (errs : list error) :
  Typenade.rec_typenade (S f) st (VDict l) types fixate address = Some (Ok (o, errs)) ->
  distinct_keys (dict_keys (st l)) = true ->
  exists es, o = ODict es /\
    Forall2 (fun kw e => fst e = fst kw /\
               match snd kw, snd e with
               | VDict _, ODict _ => True
               | VDict _, OLeaf _ => False
               | _, ODict _ => False
               | _, OLeaf _ => True
               end) (st l) es.
Proof.
  intros H D.
  destruct (rec_typenade_dict _ _ _ _ _ _ _ _ H D) as (rs & F & -> & _).
  eexists; split; [reflexivity|].
  clear H D; induction F as [|[k w] [[k' o'] es] items rs [Ek Hs] _ IH]; cbn; constructor; auto.
  cbn [fst snd] in Ek, Hs |- *; split; [exact Ek|].
  destruct (value_dict_cases w) as [[l' ->] | Hw].
  - apply typenade_item_dict in Hs as [tk [_ Hrec]].
    destruct f; [discriminate|]; cbn [Typenade.rec_typenade] in Hrec.
    destruct (items_loop_inv _ _ _ _ _ _ _ _ _ _ _ Hrec) as (rs' & _ & -> & _); exact I.
  - apply typenade_item_leaf in Hs as (declared & w' & _ & _ & C); [|exact Hw].
    assert (Eo : exists x, o' = OLeaf x).
    { destruct C as [(_ & -> & _) | [(_ & _ & _ & x & _ & ->) | (_ & _ & -> & _)]]; eauto. }
    destruct Eo as [x ->]; destruct w; try exact I; exfalso; eapply Hw; reflexivity.
Qed.

Lemma rec_typenade_shape_witness :
  Typenade.rec_typenade Validate.recursion_limit store_typenade (VDict 1) (VDict 3) true []
  = Some (Ok (fst typenade_out1, snd typenade_out1)) /\
  distinct_keys (dict_keys (store_typenade 1)) = true /\
  exists es, fst typenade_out1 = ODict es /\
    Forall2 (fun kw e => fst e = fst kw /\
               match snd kw, snd e with
               | VDict _, ODict _ => True
               | VDict _, OLeaf _ => False
               | _, ODict _ => False
               | _, OLeaf _ => True
               end) (store_typenade 1) es.
Proof.
  assert (E : Typenade.rec_typenade Validate.recursion_limit store_typenade (VDict 1) (VDict 3) true []
              = Some (Ok (fst typenade_out1, snd typenade_out1))) by (vm_compute; reflexivity).
  assert (D : distinct_keys (dict_keys (store_typenade 1)) = true) by (vm_compute; reflexivity).
  split; [exact E|split; [exact D|]].
  exact (rec_typenade_shape 999 store_typenade 1 (VDict 3) true [] _ _ E D).
Defined.

(** ** What a successful [validate_node] has checked *)

Lemma comp_filter_map_cond_ok (cond : value -> result bool) (f : value -> result value)
    (xs ys : list value) :
  Validate.comp_filter_map cond f xs = Ok ys -> forall x, In x xs -> exists b, cond x = Ok b.
Proof.
  revert ys; induction xs as [|x xs IH]; cbn; intros ys H y Hy; [contradiction|].
  destruct (cond x) as [b|e] eqn:Ec; cbn [rbind] in H; [|discriminate].
  destruct Hy as [<- | Hy]; [eauto|].
  destruct b; [|exact (IH _ H y Hy)].
  destruct (f x); cbn [rbind] in H; [|discriminate].
  destruct (Validate.comp_filter_map cond f xs) eqn:E'; cbn [rbind] in H; [|discriminate].
  exact (IH _ eq_refl y Hy).
Qed.

Lemma input_sections_of_hashable (st : store) (l : loc) (is : list value) :
  Validate.input_sections_of st (VDict l) = Ok is -> keys_hashable (st l).
Proof.
  unfold Validate.input_sections_of; cbn [py_iter rbind]; intro H.
  unfold keys_hashable; apply forallb_forall; intros k Hk.
  destruct (comp_filter_map_cond_ok _ _ _ _ H k Hk) as [b Hb].
  destruct (py_getitem st (VDict l) k) eqn:Eg; cbn [rbind] in Hb; [|discriminate].
  apply getitem_dict_ok in Eg; tauto.
Qed.

(** The checks passed by a successful run, with the input's sections and
    keywords as the filters of its keys. *)
Lemma validate_node_checked (f : nat) (st st' : store) (l : loc) (t r : value) :
  Validate.validate_node (S f) st (VDict l) t = (st', Ok r) ->
  exists ts tk nd,
    prelude_ok st l t (filter (is_section_key (st l)) (dict_keys (st l)))
      (filter (fun k => negb (is_section_key (st l) k)) (dict_keys (st l))) ts tk nd.
Proof.
  cbn [Validate.validate_node]; intro H.
  destruct (Validate.prelude st (VDict l) t) as [[[[l' ik] ts] tk]|] eqn:Ep; [|discriminate].
  destruct (prelude_ok_of _ _ _ _ _ _ _ Ep) as [-> [is [nd P]]].
  pose proof P as (P1 & P2 & _).
  pose proof (input_sections_of_hashable _ _ _ P1) as Hkh.
  rewrite (input_sections_of_eq _ _ Hkh) in P1; injection P1 as <-.
  rewrite input_keywords_of_eq in P2; injection P2 as <-.
  exists ts, tk, nd; exact P.
Qed.

Lemma filter_section_In (d : dict) (k : value) (b : bool) :
  In k (dict_keys d) -> is_section_key d k = b ->
  In k (filter (fun k => if b then is_section_key d k else negb (is_section_key d k)) (dict_keys d)).
Proof. intros Hk Hb; apply filter_In; split; [exact Hk|]; rewrite Hb; destruct b; reflexivity. Qed.

(** After a successful [validate_node], every key of the input dict was
    declared by the template: a key whose value is a dict as one of its
    sections, any other key as one of its keywords. *)
Theorem validate_node_keys_declared (f : nat) (st st' : store) (l : loc) (t r : value) :
  Validate.validate_node (S f) st (VDict l) t = (st', Ok r) ->
  exists ts tk,
    Validate.template_sections_of st t = Ok ts /\ Validate.template_keywords_of st t = Ok tk /\
    forall k, In k (dict_keys (st l)) ->
      py_in_list k (if is_section_key (st l) k then ts else tk) = true.
Proof.
  intro H; destruct (validate_node_checked _ _ _ _ _ _ H) as (ts & tk & nd & P).
  destruct P as (_ & _ & P3 & P4 & _ & _ & _ & P8 & _ & _ & P11 & _).
  exists ts, tk; split; [exact P3|split; [exact P4|]].
  intros k Hk; destruct (is_section_key (st l) k) eqn:E.
  - apply P11, (filter_section_In _ _ true Hk E).
  - apply P8, (filter_section_In _ _ false Hk E).
Qed.

(** After a successful [validate_node], every template keyword without a
    default was given in the input dict, with a value that is not a
    dict. *)
Theorem validate_node_required_given (f : nat) (st st' : store) (l : loc) (t r : value) :
  Validate.validate_node (S f) st (VDict l) t = (st', Ok r) ->
  exists nd, Validate.keywords_no_default_of st t = Ok nd /\
    forall k, In k nd -> has_key (st l) k = true /\ is_section_key (st l) k = false.
Proof.
  intro H; destruct (validate_node_checked _ _ _ _ _ _ H) as (ts & tk & nd & P).
  destruct P as (_ & _ & _ & _ & _ & _ & _ & _ & _ & _ & _ & P12 & _ & P14 & _).
  exists nd; split; [exact P12|]; intros k Hk.
  destruct (proj1 (py_in_list_iff _ _) (P14 k Hk)) as [y [Hy Hyk]]; apply filter_In in Hy as [Hy Hs].
  split.
  - apply (has_key_eq _ y k Hyk); apply py_in_list_iff; exists y; split; [exact Hy|apply py_eq_refl].
  - unfold is_section_key in *; rewrite <- (dict_find_eq _ _ _ Hyk).
    destruct (dict_find (st l) y); [|reflexivity].
    destruct (String.eqb _ _); [discriminate|reflexivity].
Qed.

(** After a successful [validate_node], every keyword given in the input
    dict (a key whose value is not a dict) has a value that matches the
    type its template entry declares. *)
Theorem validate_node_keywords_typed (f : nat) (st st' : store) (l : loc) (t r : value) :
  Validate.validate_node (S f) st (VDict l) t = (st', Ok r) ->
  forall k, In k (dict_keys (st l)) -> is_section_key (st l) k = false ->
  exists E ty w, Validate.find_entry st t "keywords" "keyword" k = Ok E /\
    py_getitem st E (VStr "type") = Ok ty /\ dict_find (st l) k = Some w /\
    Validate.type_matches w ty = Ok true.
Proof.
  intros H k Hk Hs; destruct (validate_node_checked _ _ _ _ _ _ H) as (ts & tk & nd & P).
  destruct P as (_ & _ & _ & _ & _ & _ & _ & _ & _ & _ & _ & _ & _ & _ & P15).
  destruct (check_types_inv _ _ _ _ _ P15 k (filter_section_In _ _ false Hk Hs))
    as (E & ty & w & H1 & H2 & H3 & H4).
  apply getitem_dict_ok in H3 as [_ H3]; exists E, ty, w; auto.
Qed.

Lemma validate_node_keys_declared_witness :
  Validate.validate_node (S 999) store_nested (VDict 1) (VDict 2) = (fst run_nested, Ok (VDict 1)) /\
  exists ts tk,
    Validate.template_sections_of store_nested (VDict 2) = Ok ts /\
    Validate.template_keywords_of store_nested (VDict 2) = Ok tk /\
    forall k, In k (dict_keys (store_nested 1)) ->
      py_in_list k (if is_section_key (store_nested 1) k then ts else tk) = true.
Proof.
  assert (E : Validate.validate_node (S 999) store_nested (VDict 1) (VDict 2)
              = (fst run_nested, Ok (VDict 1))) by (vm_compute; reflexivity).
  split; [exact E|exact (validate_node_keys_declared _ _ _ _ _ _ E)].
Defined.

Lemma validate_node_required_given_witness :
  Validate.validate_node (S 999) store_nested (VDict 1) (VDict 2) = (fst run_nested, Ok (VDict 1)) /\
  exists nd, Validate.keywords_no_default_of store_nested (VDict 2) = Ok nd /\
    forall k, In k nd -> has_key (store_nested 1) k = true /\ is_section_key (store_nested 1) k = false.
Proof.
  assert (E : Validate.validate_node (S 999) store_nested (VDict 1) (VDict 2)
              = (fst run_nested, Ok (VDict 1))) by (vm_compute; reflexivity).
  split; [exact E|exact (validate_node_required_given _ _ _ _ _ _ E)].
Defined.

Lemma validate_node_keywords_typed_witness :
  Validate.validate_node (S 999) store_nested (VDict 1) (VDict 2) = (fst run_nested, Ok (VDict 1)) /\
  In (VStr "n") (dict_keys (store_nested 1)) /\ is_section_key (store_nested 1) (VStr "n") = false /\
  exists E ty w, Validate.find_entry store_nested (VDict 2) "keywords" "keyword" (VStr "n") = Ok E /\
    py_getitem store_nested E (VStr "type") = Ok ty /\ dict_find (store_nested 1) (VStr "n") = Some w /\
    Validate.type_matches w ty = Ok true.
Proof.
  assert (E : Validate.validate_node (S 999) store_nested (VDict 1) (VDict 2)
              = (fst run_nested, Ok (VDict 1))) by (vm_compute; reflexivity).
  assert (Hk : In (VStr "n") (dict_keys (store_nested 1))) by (cbn; tauto).
  assert (Hs : is_section_key (store_nested 1) (VStr "n") = false) by (vm_compute; reflexivity).
  split; [exact E|split; [exact Hk|split; [exact Hs|]]].
  exact (validate_node_keywords_typed _ _ _ _ _ _ E _ Hk Hs).
Defined.

(** ** Missing keywords get their template default *)

Lemma filterM_true {A} (f : A -> result bool) (xs ys : list A) (y : A) :
  filterM f xs = Ok ys -> In y ys -> f y = Ok true.
Proof.
  revert ys; induction xs as [|x xs IH]; simpl; intros ys H Hy.
  - injection H as <-; contradiction.
  - destruct (f x) as [b|] eqn:Ef; [|discriminate]; cbn [rbind] in H.
    destruct (filterM f xs) as [zs|]; [|discriminate]; cbn [rbind] in H.
    injection H as <-; destruct b; [destruct Hy as [<- | Hy]; [exact Ef|]|]; eapply IH; eauto.
Qed.

Lemma mapM_In_l {A B} (f : A -> result B) (xs : list A) (ys : list B) (x : A) (y : B) :
  mapM f xs = Ok ys -> In x xs -> f x = Ok y -> In y ys.
Proof.
  revert ys; induction xs as [|x' xs IH]; simpl; intros ys H Hx Hf; [contradiction|].
  destruct (f x') as [y'|] eqn:Ef; [|discriminate]; cbn [rbind] in H.
  destruct (mapM f xs) as [zs|]; [|discriminate]; cbn [rbind] in H.
  injection H as <-; destruct Hx as [-> | Hx]; [left; congruence|right; eauto].
Qed.

(** The name a keyword entry is found by is, up to [==], one of the
    template's keyword names. *)
Lemma find_entry_named (st : store) (t : value) (k E : value) (tk : list value) :
  Validate.find_entry st t "keywords" "keyword" k = Ok E ->
  Validate.template_keywords_of st t = Ok tk -> exists y, In y tk /\ py_eq y k = true.
Proof.
  unfold Validate.find_entry, Validate.template_keywords_of, Validate.template_names_of; intros H1 H2.
  destruct (py_getitem st t (VStr "keywords")) as [es|] eqn:Ees; cbn [rbind] in H1; [|discriminate].
  destruct (py_iter st es) as [xs|] eqn:Exs; cbn [rbind] in H1; [|discriminate].
  destruct (filterM _ xs) as [ys|] eqn:Eys; cbn [rbind] in H1; [|discriminate].
  destruct ys as [|E' ys]; [discriminate|]; injection H1 as <-.
  pose proof (filterM_true _ _ _ _ Eys (or_introl eq_refl)) as Hf; cbv beta in Hf.
  pose proof (filterM_incl _ _ _ _ Eys (or_introl eq_refl)) as Hin.
  destruct (py_getitem st E' (VStr "keyword")) as [n|] eqn:En; cbn [rbind] in Hf; [|discriminate].
  injection Hf as Hnk.
  destruct t as [| | | | | | |lt]; try discriminate.
  apply getitem_dict_ok in Ees as [_ Ees].
  cbn [py_contains hashable] in H2; rewrite (dict_find_some_exists _ _ _ Ees) in H2; cbn [rbind] in H2.
  unfold Validate.names_of in H2; rewrite Exs in H2; cbn [rbind] in H2.
  exists n; split; [exact (mapM_In_l _ _ _ _ _ H2 Hin En)|exact Hnk].
Qed.

(** On an input that is a tree of nested dicts, disjoint from a template
    whose keyword defaults match their declared types, a successful
    [validate_node] leaves, under every template keyword the input dict
    did not have, the template's default for it. *)
Theorem validate_node_fills_default (n d : nat) (st st' : store) (l : loc) (t : value)
    (fp : list loc) (r k E D : value) :
  tree d st l fp -> (forall x, reaches st t x -> ~ In x fp) -> defaults_typed st t ->
  Validate.validate_node n st (VDict l) t = (st', Ok r) ->
  has_key (st l) k = false ->
  Validate.find_entry st t "keywords" "keyword" k = Ok E ->
  py_getitem st E (VStr "default") = Ok D ->
  dict_find (st' l) k = Some D.
Proof.
  intros T Dj Ty H Hk HE HD.
  destruct n as [|f]; cbn [Validate.validate_node] in H; [discriminate|].
  destruct (Validate.prelude st (VDict l) t) as [[[[l' ik] ts] tk]|] eqn:Ep; [|discriminate].
  destruct (prelude_facts _ _ _ _ _ _ _ Ep) as [El (Hik & Htk & _ & _)]; injection El as <-.
  destruct (prelude_ok_of _ _ _ _ _ _ _ Ep) as [_ [is [nd P]]].
  destruct (Validate.fill_defaults st l t tk ik) as [st_f [u|]] eqn:Ef; [|discriminate].
  destruct (Validate.sections_loop (Validate.validate_node f) st_f l t ts) as [st_e [u'|]] eqn:Es;
    [|discriminate].
  injection H as -> <-.
  pose proof P as (_ & _ & _ & _ & _ & P6 & P7 & _).
  unfold Validate.fill_defaults in Ef; rewrite (py_set_ok _ P7), (py_set_ok _ P6) in Ef.
  destruct d as [|d']; [contradiction|].
  destruct T as [cs (Efp & Hnd & Hch & Hent & Hcov & Hsub)].
  assert (Hl : In l fp) by (rewrite Efp; left; reflexivity).
  destruct (fill_loop_effect t l _ st st_f u Ef) as [ps (HmF & Hps & Hfr & Hfl & _)].
  { intros x Rx ->; exact (Dj l Rx Hl). }
  assert (Hfree : forall D, In D (map snd ps) -> dict_free D = true).
  { intros D' HD'; apply in_map_iff in HD'; destruct HD' as [[y D''] [<- Hy]].
    destruct (Hps y D'' Hy) as [E' [H1 H2]].
    destruct (fill_default_typed st t y E' D'' Ty H1 H2) as [ty [_ Hm]].
    exact (type_matches_dict_free _ _ Hm). }
  assert (Agf : forall x, reaches st t x -> st_f x = st x).
  { intros x Rx; apply Hfr; intros ->; exact (Dj l Rx Hl). }
  destruct (children_set_all (st l) ps Hfree) as [Hci Hcn].
  rewrite <- Hfl in Hci, Hcn.
  assert (Hcov' : forall c, In c (children (st_f l)) -> exists fpc, In (c, fpc) cs)
    by (intros c Hc; apply Hcov, Hci, Hc).
  assert (Hdj' : forall x, reaches st_f t x -> ~ In x fp)
    by (intros x Rx; apply Dj, (reaches_agree st st_f t Agf), Rx).
  assert (Hty' : defaults_typed st_f t) by (apply (defaults_typed_agree st st_f t Agf), Ty).
  assert (Htr : forall c fpc, In (c, fpc) cs -> tree d' st_f c fpc).
  { intros c fpc Hc; apply (tree_agree d' st); [apply Hsub, Hc|].
    intros x Hx; apply Hfr; intros ->.
    destruct (tree_child d' st l fp cs c fpc Efp Hnd Hc) as [_ Hn]; exact (Hn Hx). }
  destruct (sections_run f d' st_f l t fp cs (st_f l) (run_stable_all f) Efp Hnd (Hcn Hch) Hcov'
              Hdj' Hty' ts [] st_f st' u' eq_refl (fun _ _ => eq_refl) Htr
              (fun s H => match H with end) Es) as (R1 & _).
  rewrite R1, Hfl, dict_find_set_all; [|rewrite HmF; apply fop_filter, dedup_distinct].
  destruct (dict_find ps k) as [D'|] eqn:Eps.
  - destruct (dict_find_In_eq _ _ _ Eps) as [y [Hy Hyk]].
    destruct (Hps y D' Hy) as [E' [H1 H2]].
    rewrite (find_entry_eq _ _ _ _ _ _ Hyk), HE in H1; injection H1 as <-.
    rewrite HD in H2; injection H2 as ->; reflexivity.
  - exfalso; apply dict_find_none_iff in Eps.
    destruct (find_entry_named _ _ _ _ _ HE Htk) as [y [Hy Hyk]].
    assert (Hd : py_in_list k (dedup tk) = true).
    { rewrite py_in_list_dedup; apply py_in_list_iff; eauto. }
    destruct (proj1 (py_in_list_iff _ _) Hd) as [y1 [Hy1 Hy1k]].
    assert (Hnot : py_in_list y1 (dedup ik) = false).
    { rewrite py_in_list_dedup; destruct (py_in_list y1 ik) eqn:Ei; [|reflexivity].
      destruct (proj1 (py_in_list_iff _ _) Ei) as [z [Hz Hzy]].
      assert (Hkk : has_key (st l) k = true).
      { apply py_in_list_iff; exists z; split; [exact (Hik z Hz)|exact (py_eq_trans _ _ _ Hzy Hy1k)]. }
      congruence. }
    assert (HF : In y1 (map fst ps)) by (rewrite HmF; apply set_difference_In; auto).
    assert (Hex : existsb (fun k' => py_eq k' k) (dict_keys ps) = true)
      by (apply existsb_exists; exists y1; split; [exact HF|exact Hy1k]).
    congruence.
Qed.

Lemma validate_node_fills_default_witness :
  let run := Validate.validate_node Validate.recursion_limit store_nested (VDict 4) (VDict 5) in
  tree 1 store_nested 4 [4] /\
  (forall x, reaches store_nested (VDict 5) x -> ~ In x [4]) /\
  defaults_typed store_nested (VDict 5) /\
  run = (fst run, Ok (VDict 4)) /\ has_key (store_nested 4) (VStr "m") = false /\
  Validate.find_entry store_nested (VDict 5) "keywords" "keyword" (VStr "m") = Ok (VDict 6) /\
  py_getitem store_nested (VDict 6) (VStr "default") = Ok (VInt 1) /\
  dict_find (fst run 4) (VStr "m") = Some (VInt 1).
Proof.
  intro run.
  assert (T : tree 1 store_nested 4 [4]).
  { exists []; split; [reflexivity|split; [repeat constructor; intros []|split; [constructor|]]].
    split; [intros k w []|split; [intros c []|intros c fpc []]]. }
  assert (Dj : forall x, reaches store_nested (VDict 5) x -> ~ In x [4]).
  { intros x R; apply (reaches_closed store_nested [5; 6]) in R;
      [| vm_compute; reflexivity | intros y [<- | []]; cbn; tauto].
    destruct R as [<- | [<- | []]]; intros [H | []]; discriminate. }
  assert (Ty : defaults_typed store_nested (VDict 5)).
  { intros x e D R [ks [xs (H1 & H2 & H3)]] HD.
    apply (reaches_closed store_nested [5; 6]) in R;
      [| vm_compute; reflexivity | intros y [<- | []]; cbn; tauto].
    destruct R as [<- | [<- | []]]; vm_compute in H1; [|discriminate].
    injection H1 as <-; vm_compute in H2; injection H2 as <-.
    destruct H3 as [H3 | []]; injection H3 as <-.
    vm_compute in HD; injection HD as <-.
    exists (VStr "int"); split; vm_compute; reflexivity. }
  assert (E : run = (fst run, Ok (VDict 4))) by (vm_compute; reflexivity).
  assert (Hk : has_key (store_nested 4) (VStr "m") = false) by (vm_compute; reflexivity).
  assert (HE : Validate.find_entry store_nested (VDict 5) "keywords" "keyword" (VStr "m") = Ok (VDict 6))
    by (vm_compute; reflexivity).
  assert (HD : py_getitem store_nested (VDict 6) (VStr "default") = Ok (VInt 1))
    by (vm_compute; reflexivity).
  split; [exact T|split; [exact Dj|split; [exact Ty|split; [exact E|split; [exact Hk|
    split; [exact HE|split; [exact HD|]]]]]]].
  exact (validate_node_fills_default _ 1 _ _ 4 _ [4] _ _ _ _ T Dj Ty E Hk HE HD).
Defined.

(** ** What [validate_node] never writes *)

(** On an input that is a tree of nested dicts, disjoint from a template
    whose keyword defaults match their declared types, a successful
    [validate_node] writes only to the dicts of the input tree: every other
    dict of the store, the template's among them, is left as it was. *)
Theorem validate_node_frame (n d : nat) (st st' : store) (l : loc) (t : value)
    (fp : list loc) (r : value) :
  tree d st l fp -> (forall x, reaches st t x -> ~ In x fp) -> defaults_typed st t ->
  Validate.validate_node n st (VDict l) t = (st', Ok r) ->
  (forall x, ~ In x fp -> st' x = st x) /\ (forall x, reaches st t x -> st' x = st x).
Proof.
  intros T Dj Ty H.
  destruct (run_stable_all n d st l t fp st' r T Dj Ty H) as (Fr & _ & _).
  split; [exact Fr|intros x Rx; apply Fr, Dj, Rx].
Qed.

Lemma validate_node_frame_witness :
  let run := Validate.validate_node Validate.recursion_limit store_nested (VDict 4) (VDict 5) in
  tree 1 store_nested 4 [4] /\
  (forall x, reaches store_nested (VDict 5) x -> ~ In x [4]) /\
  defaults_typed store_nested (VDict 5) /\
  run = (fst run, Ok (VDict 4)) /\
  (forall x, ~ In x [4] -> fst run x = store_nested x) /\
  (forall x, reaches store_nested (VDict 5) x -> fst run x = store_nested x).
Proof.
  intro run.
  assert (T : tree 1 store_nested 4 [4]).
  { exists []; split; [reflexivity|split; [repeat constructor; intros []|split; [constructor|]]].
    split; [intros k w []|split; [intros c []|intros c fpc []]]. }
  assert (Dj : forall x, reaches store_nested (VDict 5) x -> ~ In x [4]).
  { intros x R; apply (reaches_closed store_nested [5; 6]) in R;
      [| vm_compute; reflexivity | intros y [<- | []]; cbn; tauto].
    destruct R as [<- | [<- | []]]; intros [H | []]; discriminate. }
  assert (Ty : defaults_typed store_nested (VDict 5)).
  { intros x e D R [ks [xs (H1 & H2 & H3)]] HD.
    apply (reaches_closed store_nested [5; 6]) in R;
      [| vm_compute; reflexivity | intros y [<- | []]; cbn; tauto].
    destruct R as [<- | [<- | []]]; vm_compute in H1; [|discriminate].
    injection H1 as <-; vm_compute in H2; injection H2 as <-.
    destruct H3 as [H3 | []]; injection H3 as <-.
    vm_compute in HD; injection HD as <-.
    exists (VStr "int"); split; vm_compute; reflexivity. }
  assert (E : run = (fst run, Ok (VDict 4))) by (vm_compute; reflexivity).
  split; [exact T|split; [exact Dj|split; [exact Ty|split; [exact E|]]]].
  exact (validate_node_frame _ 1 _ _ 4 _ [4] _ T Dj Ty E).
Defined.

(** ** [check_predicates_node] and the store *)

Section ReadOnly.

Variable py_eval : store -> pred_frame -> store * result value.
Hypothesis eval_pure : forall st fr, fst (py_eval st fr) = st.

Lemma predicate_loop_pure (st : store) (ke : Predicates.kw_env) (r : option value) (preds : list value) :
  fst (Predicates.predicate_loop py_eval st ke r preds) = st.
Proof.
  revert st r; induction preds as [|p preds IH]; intros st r; cbn [Predicates.predicate_loop];
    [reflexivity|].
  pose proof (eval_pure st (Predicates.frame_of ke p r)) as Hp.
  destruct (py_eval st (Predicates.frame_of ke p r)) as [st1 [v|e]]; cbn [fst] in Hp; subst st1.
  - destruct (negb (truthy st v)); [reflexivity|apply IH].
  - destruct e; reflexivity.
Qed.

Lemma check_keyword_pure (st : store) (d n t : value) (is ik ts : list value) (c : carry) (k : value) :
  fst (Predicates.check_keyword py_eval st d n t is ik ts c k) = st.
Proof.
  unfold Predicates.check_keyword.
  destruct (Validate.find_entry _ _ _ _ _); [|reflexivity].
  destruct (py_getitem _ _ _); [|reflexivity].
  destruct (py_contains _ _ _) as [[|]|]; try reflexivity.
  destruct (py_getitem _ _ _); [|reflexivity].
  destruct (py_iter _ _); [|reflexivity].
  apply predicate_loop_pure.
Qed.

Lemma keywords_loop_pure (st : store) (d n t : value) (is ik ts : list value) (c : carry) (ks : list value) :
  fst (Predicates.keywords_loop py_eval st d n t is ik ts c ks) = st.
Proof.
  revert st c; induction ks as [|k ks IH]; intros st c; cbn [Predicates.keywords_loop]; [reflexivity|].
  pose proof (check_keyword_pure st d n t is ik ts c k) as Hk.
  destruct (Predicates.check_keyword py_eval st d n t is ik ts c k) as [st1 [c1|e]];
    cbn [fst] in Hk; subst st1; [apply IH|reflexivity].
Qed.

Lemma psections_loop_pure (rec : store -> value -> value -> store * result unit)
    (st : store) (n t : value) (secs : list value) :
  (forall st0 v t0, fst (rec st0 v t0) = st0) ->
  fst (Predicates.psections_loop rec st n t secs) = st.
Proof.
  intro Hr; revert st; induction secs as [|s secs IH]; intros st; cbn [Predicates.psections_loop];
    [reflexivity|].
  destruct (py_getitem st n s) as [w|]; [|reflexivity].
  destruct (Validate.find_entry st t "sections" "section" s) as [tc|]; [|reflexivity].
  pose proof (Hr st w tc) as H.
  destruct (rec st w tc) as [st1 [u|e]]; cbn [fst] in H; subst st1; [apply IH|reflexivity].
Qed.

Lemma check_predicates_node_pure (fuel : nat) :
  forall st d n t, fst (Predicates.check_predicates_node py_eval fuel st d n t) = st.
Proof.
  induction fuel as [|f IH]; intros st d n t; cbn [Predicates.check_predicates_node]; [reflexivity|].
  destruct (Validate.input_sections_of st n) as [is|]; [|reflexivity].
  destruct (Validate.input_keywords_of st n is) as [ik|]; [|reflexivity].
  destruct (Validate.template_sections_of st t) as [ts|]; [|reflexivity].
  pose proof (keywords_loop_pure st d n t is ik ts None ik) as Hk.
  destruct (Predicates.keywords_loop _ _ _ _ _ _ _ _ _ _) as [st1 [c|e]]; cbn [fst] in Hk; subst st1;
    [|reflexivity].
  apply psections_loop_pure; intros; apply IH.
Qed.

End ReadOnly.

(** When [eval] leaves the store as it is, so does [check_predicates_node]:
    it reads the input and the template and never writes to them, whatever
    it returns. *)
Theorem check_predicates_node_read_only
    (py_eval : store -> pred_frame -> store * result value) (fuel : nat) (st : store)
    (input_dict input_dict_node template_dict_node : value) :
  (forall st0 fr, fst (py_eval st0 fr) = st0) ->
  fst (Predicates.check_predicates_node py_eval fuel st input_dict input_dict_node template_dict_node)
  = st.
Proof. intro H; apply (check_predicates_node_pure py_eval H). Qed.

Lemma check_predicates_node_read_only_witness :
  (forall st0 fr, fst (toy_eval st0 fr) = st0) /\
  fst (Predicates.check_predicates_node toy_eval Validate.recursion_limit store_predicates
         (VDict 1) (VDict 1) (VDict 2)) = store_predicates.
Proof.
  assert (H : forall st0 fr, fst (toy_eval st0 fr) = st0) by reflexivity.
  split; [exact H|].
  exact (check_predicates_node_read_only toy_eval _ _ _ _ _ H).
Defined.

(** ** [check_predicates_node] without predicates *)

Lemma find_entry_keyword_entry (st : store) (t k : value) (e : loc) :
  Validate.find_entry st t "keywords" "keyword" k = Ok (VDict e) ->
  exists x, t = VDict x /\ keyword_entry st x e.
Proof.
  unfold Validate.find_entry; intro H.
  destruct (py_getitem st t (VStr "keywords")) as [es|] eqn:Ees; cbn [rbind] in H; [|discriminate].
  destruct (py_iter st es) as [xs|] eqn:Exs; cbn [rbind] in H; [|discriminate].
  destruct (filterM _ xs) as [ys|] eqn:Eys; cbn [rbind] in H; [|discriminate].
  destruct ys as [|E' ys]; [discriminate|]; injection H as ->.
  destruct t as [| | | | | | |x]; try discriminate.
  apply getitem_dict_ok in Ees as [_ Ees].
  exists x; split; [reflexivity|exists es, xs; split; [exact Ees|split; [exact Exs|]]].
  exact (filterM_incl _ _ _ _ Eys (or_introl eq_refl)).
Qed.

Section NoPredicates.

Variables py_eval1 py_eval2 : store -> pred_frame -> store * result value.

Lemma check_keyword_no_eval (st : store) (d n t : value) (is ik ts : list value) (c : carry) (k : value) :
  no_predicates st t ->
  Predicates.check_keyword py_eval1 st d n t is ik ts c k
  = Predicates.check_keyword py_eval2 st d n t is ik ts c k /\
  fst (Predicates.check_keyword py_eval1 st d n t is ik ts c k) = st.
Proof.
  intro Np; unfold Predicates.check_keyword.
  destruct (Validate.find_entry st t "keywords" "keyword" k) as [E|] eqn:HE; [|auto].
  destruct (py_getitem st n k) as [v|]; [|auto].
  destruct (py_contains st E (VStr "predicates")) as [[|]|] eqn:Hc; [|auto|auto].
  destruct E as [| | | | |s|vs|e]; try discriminate.
  - cbn [py_getitem int_index]; auto.
  - cbn [py_getitem int_index]; auto.
  - exfalso; destruct (find_entry_keyword_entry _ _ _ _ HE) as [x [-> Hke]].
    cbn [py_contains hashable] in Hc; injection Hc as Hc.
    pose proof (proj1 (dict_find_none_iff _ _) (Np x e (reaches_here st x) Hke)) as Hn; congruence.
Qed.

Lemma keywords_loop_no_eval (st : store) (d n t : value) (is ik ts : list value) (ks : list value) :
  no_predicates st t -> forall c,
  Predicates.keywords_loop py_eval1 st d n t is ik ts c ks
  = Predicates.keywords_loop py_eval2 st d n t is ik ts c ks /\
  fst (Predicates.keywords_loop py_eval1 st d n t is ik ts c ks) = st.
Proof.
  intro Np; induction ks as [|k ks IH]; intro c; cbn [Predicates.keywords_loop]; [auto|].
  destruct (check_keyword_no_eval st d n t is ik ts c k Np) as [E1 E2].
  rewrite <- E1.
  destruct (Predicates.check_keyword py_eval1 st d n t is ik ts c k) as [st1 [c1|e]];
    cbn [fst] in E2; subst st1; [apply IH|auto].
Qed.

Lemma psections_loop_no_eval (rec1 rec2 : store -> value -> value -> store * result unit)
    (st : store) (n t : value) (secs : list value) :
  (forall s w tc, Validate.find_entry st t "sections" "section" s = Ok tc ->
     rec1 st w tc = rec2 st w tc /\ fst (rec1 st w tc) = st) ->
  Predicates.psections_loop rec1 st n t secs = Predicates.psections_loop rec2 st n t secs /\
  fst (Predicates.psections_loop rec1 st n t secs) = st.
Proof.
  intro Hr; induction secs as [|s secs IH]; cbn [Predicates.psections_loop]; [auto|].
  destruct (py_getitem st n s) as [w|]; [|auto].
  destruct (Validate.find_entry st t "sections" "section" s) as [tc|] eqn:Et; [|auto].
  destruct (Hr s w tc Et) as [E1 E2]; rewrite <- E1.
  destruct (rec1 st w tc) as [st1 [u|e]]; cbn [fst] in E2; subst st1; [exact IH|auto].
Qed.

Lemma check_predicates_node_no_eval (fuel : nat) :
  forall st d n t, no_predicates st t ->
  Predicates.check_predicates_node py_eval1 fuel st d n t
  = Predicates.check_predicates_node py_eval2 fuel st d n t /\
  fst (Predicates.check_predicates_node py_eval1 fuel st d n t) = st.
Proof.
  induction fuel as [|f IH]; intros st d n t Np; cbn [Predicates.check_predicates_node]; [auto|].
  destruct (Validate.input_sections_of st n) as [is|]; [|auto].
  destruct (Validate.input_keywords_of st n is) as [ik|]; [|auto].
  destruct (Validate.template_sections_of st t) as [ts|]; [|auto].
  destruct (keywords_loop_no_eval st d n t is ik ts ik Np None) as [E1 E2]; rewrite <- E1.
  destruct (Predicates.keywords_loop py_eval1 st d n t is ik ts None ik) as [st1 [c|e]];
    cbn [fst] in E2; subst st1; [|auto].
  apply psections_loop_no_eval; intros s w tc Et; apply IH.
  intros x e Rx; apply Np; exact (find_entry_reach _ _ _ _ _ _ Et x Rx).
Qed.

End NoPredicates.

(** On a template none of whose keywords, at any depth, carries
    [predicates], [check_predicates_node] never calls [eval]: its result
    and final store are the same whatever [eval] does, and the store is
    left unchanged. *)
Theorem check_predicates_node_no_predicates
    (py_eval1 py_eval2 : store -> pred_frame -> store * result value) (fuel : nat)
    (st : store) (input_dict input_dict_node template_dict_node : value) :
  no_predicates st template_dict_node ->
  Predicates.check_predicates_node py_eval1 fuel st input_dict input_dict_node template_dict_node
  = Predicates.check_predicates_node py_eval2 fuel st input_dict input_dict_node template_dict_node /\
  fst (Predicates.check_predicates_node py_eval1 fuel st input_dict input_dict_node template_dict_node)
  = st.
Proof. apply check_predicates_node_no_eval. Qed.

Lemma check_predicates_node_no_predicates_witness :
  let other : store -> pred_frame -> store * result value := fun st _ => (st, Exc SyntaxError) in
  no_predicates store_nested (VDict 2) /\
  Predicates.check_predicates_node toy_eval Validate.recursion_limit store_nested (VDict 1) (VDict 1) (VDict 2)
  = Predicates.check_predicates_node other Validate.recursion_limit store_nested (VDict 1) (VDict 1) (VDict 2) /\
  fst (Predicates.check_predicates_node toy_eval Validate.recursion_limit store_nested
         (VDict 1) (VDict 1) (VDict 2)) = store_nested.
Proof.
  intro other.
  assert (Np : no_predicates store_nested (VDict 2)).
  { intros x e R [ks [xs (H1 & H2 & H3)]].
    apply (reaches_closed store_nested [2; 3; 5; 6]) in R;
      [| vm_compute; reflexivity | intros y [<- | []]; cbn; tauto].
    destruct R as [<- | [<- | [<- | [<- | []]]]]; vm_compute in H1; try discriminate;
      injection H1 as <-; vm_compute in H2; injection H2 as <-;
      destruct H3 as [H3 | []]; injection H3 as <-; vm_compute; reflexivity. }
  split; [exact Np|].
  exact (check_predicates_node_no_predicates toy_eval other _ _ _ _ _ Np).
Defined.

(** ** [rec_documentation_generator] repeats what it has written *)

Lemma string_app_assoc (a b c : string) : (a ++ (b ++ c))%string = ((a ++ b) ++ c)%string.
Proof. induction a as [|x a IH]; cbn; [reflexivity|rewrite IH; reflexivity]. Qed.

Fixpoint cumul (doc : string) (parts : list string) (level : nat) : string :=
  match parts with
  | [] => EmptyString
  | p :: ps => Documentation.indent (doc ++ p) level ++ cumul (doc ++ p) ps level
  end.

Lemma cumul_cumulative (doc : string) (parts : list string) (level : nat) :
  cumul doc parts level = cumulative doc parts level.
Proof.
  unfold cumulative; revert doc; induction parts as [|p ps IH]; intros doc; [reflexivity|].
  cbn [cumul length seq map concat_str fold_right]; f_equal.
  - cbn [concat_str firstn fold_right]; rewrite string_app_nil_r; reflexivity.
  - rewrite IH, <- (seq_shift _ 1), map_map; unfold concat_str at 1; f_equal; apply map_ext; intros i.
    cbn [concat_str firstn fold_right]; rewrite string_app_assoc; reflexivity.
Qed.

Lemma keywords_doc_loop_cumul (py_str : store -> value -> string) (st : store) (level : nat)
    (ks : list value) (ds : list string) :
  Forall2 (fun k d => Documentation.document_keyword py_str st k = Ok d) ks ds ->
  forall doc docs,
  Documentation.keywords_doc_loop py_str st level doc docs ks
  = Ok (doc ++ concat_str ds, docs ++ cumul doc ds level).
Proof.
  induction 1 as [|k d ks ds Hk _ IH]; intros doc docs; cbn [Documentation.keywords_doc_loop].
  - cbn; rewrite !string_app_nil_r; reflexivity.
  - rewrite Hk; cbn [rbind]; rewrite IH; cbn [concat_str fold_right cumul].
    rewrite !string_app_assoc; reflexivity.
Qed.

Lemma sections_doc_loop_cumul (rec : value -> result string) (st : store) (level : nat)
    (ss : list value) (ps : list (string * string * string)) :
  Forall2 (fun s '(n, d, sub) => py_getitem st s (VStr "name") = Ok (VStr n) /\
             py_getitem st s (VStr "docstring") = Ok (VStr d) /\ rec s = Ok sub) ss ps ->
  forall doc docs,
  Documentation.sections_doc_loop rec st level doc docs ss
  = Ok (docs ++ cumul doc (map section_part ps) level).
Proof.
  induction 1 as [|s [[n d] sub] ss ps Hs _ IH]; intros doc docs; cbn [Documentation.sections_doc_loop].
  - cbn; rewrite string_app_nil_r; reflexivity.
  - destruct Hs as (Hn & Hd & Hr); rewrite Hn, Hd; cbn [rbind Documentation.fmt_s]; rewrite Hr; cbn [rbind].
    rewrite IH; cbn [map cumul section_part]; rewrite !string_app_assoc; reflexivity.
Qed.

(** In [rec_documentation_generator], [doc] is never reset inside a
    loop and the whole of it is appended to [docs] after every entry.  The
    keyword part of the output is therefore the header [**Keywords**]
    followed by the docs of the first keyword, then the header and the docs
    of the first two keywords, and so on; the section part is built the same
    way from its own header. *)
Theorem rec_documentation_generator_cumulative (py_str : store -> value -> string) (f : nat)
    (st : store) (t : value) (level : nat) (ks ss : list value) (ds : list string)
    (ps : list (string * string * string)) :
  Documentation.entries_or_empty st t "keywords" = Ok (VList ks) ->
  Forall2 (fun k d => Documentation.document_keyword py_str st k = Ok d) ks ds ->
  Documentation.entries_or_empty st t "sections" = Ok (VList ss) ->
  Forall2 (fun s '(n, d, sub) => py_getitem st s (VStr "name") = Ok (VStr n) /\
             py_getitem st s (VStr "docstring") = Ok (VStr d) /\
             Documentation.rec_documentation_generator py_str f st s (S level) = Ok sub) ss ps ->
  Documentation.rec_documentation_generator py_str (S f) st t level
  = Ok (cumulative (Documentation.nl ++ "**Keywords**") ds level ++
        cumulative (sections_header level) (map section_part ps) level).
Proof.
  intros Hk Hks Hs Hss; cbn [Documentation.rec_documentation_generator].
  rewrite Hk; cbn [rbind py_iter]; rewrite (keywords_doc_loop_cumul _ _ _ _ _ Hks); cbn [rbind].
  rewrite Hs; cbn [rbind py_iter].
  rewrite (sections_doc_loop_cumul _ _ _ _ _ Hss).
  rewrite <- !cumul_cumulative; f_equal; f_equal.
  - destruct ks; [inversion Hks; reflexivity|reflexivity].
  - destruct ss as [|s ss]; [inversion Hss; reflexivity|reflexivity].
Qed.

Lemma rec_documentation_generator_cumulative_witness :
  Documentation.rec_documentation_generator str_doc 6 store_doc (VDict 1) 0
  = Ok (cumulative (Documentation.nl ++ "**Keywords**") [doc_kw_a; doc_kw_b] 0 ++
        cumulative (sections_header 0)
          (map section_part [("s", "S", Documentation.indent (Documentation.nl ++ "**Keywords**" ++ doc_kw_a) 1)]) 0).
Proof.
  apply (rec_documentation_generator_cumulative str_doc 5 store_doc (VDict 1) 0
           [VDict 2; VDict 3] [VDict 4]); [reflexivity| |reflexivity|].
  - repeat constructor.
  - repeat constructor; vm_compute; reflexivity.
Defined.
